(** * supabase_models: the base model and its two entity definitions

    A shallow embedding of [src/supabase_models/models.py]:
    [SupabaseBaseModel] (the serialiser table and [serialize_fields], the
    required-column check, [dump], [__iter__], [load]) and the entity
    definitions [Category] and [Product].

    The classes are models of a validation library, with its default
    configuration. The part of the library that they switch on is embedded
    with them:
    - a call of a class validates every field that is given, collects the
      errors of all of them, and on success runs the after-validator;
      a field that is not given takes its default, which is not validated;
      arguments that name no field are ignored;
    - every field is [T | None] with default [None]: [None] passes, and
      anything else is validated as a [T], then against the constraints of
      the declaration (lengths, pattern, bound);
    - an input of the exact type of the field is taken as it is; what the
      library converts other inputs to is a parameter of the development
      ([Coercions]); in [Decimal | float] an exact [Decimal] or [float] is
      kept as such;
    - a pattern is searched with both anchors, so it matches the whole
      string;
    - a field that holds a model takes an instance of that model as it is,
      and validates a mapping as that model;
    - the instance records the fields that were given
      ([__pydantic_fields_set__]); an assignment to a field stores the value
      without validation and records the field as set;
    - a dump in Python mode passes each value through the field serialiser
      and turns a nested model into the dictionary of all its fields.

    Python values are a tagged union [pyval]; a dictionary is an association
    list in insertion order; a set of names is a [gset string]; a [float] is
    a binary64 number; an exception is the [Raise] branch of [result]. *)

From Stdlib Require Import ZArith NArith List String Ascii Bool Lia.
From Stdlib Require Import Floats DecimalString.
From stdpp Require Import base decidable option list gmap strings.

Import ListNotations.
Local Open Scope string_scope.
Local Open Scope list_scope.

(** ** Text helpers *)

Module Text.

Definition digit_char (d : N) : ascii := ascii_of_N (48 + d).

(** The [width] low decimal digits of [n], most significant first. *)
Fixpoint fixed_width (width : nat) (n : N) : string :=
  match width with
  | O => EmptyString
  | S w => (fixed_width w (n / 10) ++ String (digit_char (n mod 10)) EmptyString)%string
  end.

Definition is_empty (s : string) : bool :=
  match s with EmptyString => true | _ => false end.

(** Without its leading zeros, but for the last digit. *)
Fixpoint strip_zeros (s : string) : string :=
  match s with
  | EmptyString => "0"
  | String c s' =>
      if Ascii.eqb c "0" && negb (is_empty s') then strip_zeros s' else s
  end.

(** [str(n)] for a natural number: its decimal digits. A number has no
    more decimal digits than binary ones. *)
Definition of_N (n : N) : string :=
  strip_zeros (fixed_width (N.to_nat (N.size n)) n).

Fixpoint replicate_char (n : nat) (c : ascii) : string :=
  match n with
  | O => EmptyString
  | S n' => String c (replicate_char n' c)
  end.

(** ["%0<width>d" % n] for [n >= 0]: the digits of [n], with zeros in front
    up to the width. *)
Definition zfill (width : nat) (n : N) : string :=
  if (n <? 10 ^ N.of_nat width)%N then fixed_width width n else of_N n.

(** ["%+d" % z]. *)
Definition signed (z : Z) : string :=
  match z with
  | Zneg p => ("-" ++ of_N (Npos p))%string
  | _ => ("+" ++ of_N (Z.to_N z))%string
  end.

Fixpoint take (n : nat) (s : string) : string :=
  match n, s with
  | S n', String c s' => String c (take n' s')
  | _, _ => EmptyString
  end.

Fixpoint drop (n : nat) (s : string) : string :=
  match n, s with
  | S n', String _ s' => drop n' s'
  | _, _ => s
  end.

Definition hex_digit (d : N) : ascii :=
  if (d <? 10)%N then ascii_of_N (48 + d) else ascii_of_N (87 + d).

(** The [width] low hexadecimal digits of [n], most significant first:
    ["%0<width>x" % n] when [n < 16 ^ width]. *)
Fixpoint hex_fixed (width : nat) (n : N) : string :=
  match width with
  | O => EmptyString
  | S w => (hex_fixed w (n / 16) ++ String (hex_digit (n mod 16)) EmptyString)%string
  end.

(** Every character of [s] passes the test [p]. *)
Fixpoint all_chars (p : ascii -> bool) (s : string) : bool :=
  match s with
  | EmptyString => true
  | String c s' => p c && all_chars p s'
  end.

End Text.

(** ** The standard-library value types the serialiser table names *)

(** [datetime.date]. *)
Record date := mkDate { year : N; month : N; day : N }.

(** [datetime.time]; [utcoffset] is what [self.utcoffset()] returns, in
    microseconds ([None] for a naive value). *)
Record time := mkTime {
  hour : N; minute : N; second : N; microsecond : N;
  utcoffset : option Z
}.

(** [datetime.datetime] (its exact type is [datetime], not [date]). *)
Record datetime := mkDatetime { dt_date : date; dt_time : time }.

(** A finite [decimal.Decimal]: sign, coefficient ([_int], kept here as the
    number whose decimal digits it is) and exponent ([_exp]). *)
Record Decimal := mkDecimal { d_sign : bool; d_int : N; d_exp : Z }.

(** [uuid.UUID], by its 128-bit integer. *)
Record UUID := mkUUID { uuid_int : N }.

Module Iso.

(** [date.isoformat]. *)
Definition date_isoformat (d : date) : string :=
  (Text.zfill 4 (year d) ++ "-" ++ Text.zfill 2 (month d) ++ "-" ++ Text.zfill 2 (day d))%string.

(** [_format_time] with the default [timespec='auto']. *)
Definition format_time (t : time) : string :=
  let hms := (Text.zfill 2 (hour t) ++ ":" ++ Text.zfill 2 (minute t) ++ ":"
                ++ Text.zfill 2 (second t))%string in
  if (microsecond t =? 0)%N then hms
  else (hms ++ "." ++ Text.zfill 6 (microsecond t))%string.

(** [_format_offset]. *)
Definition format_offset (off : option Z) : string :=
  match off with
  | None => EmptyString
  | Some o =>
      let sign := if (o <? 0)%Z then "-" else "+" in
      let a := Z.to_N (Z.abs o) in
      let hh := (a / 3600000000)%N in
      let r := (a mod 3600000000)%N in
      let mm := (r / 60000000)%N in
      let ss := (r mod 60000000)%N in
      let hm := (sign ++ Text.zfill 2 hh ++ ":" ++ Text.zfill 2 mm)%string in
      if (ss =? 0)%N then hm
      else
        let secs := (hm ++ ":" ++ Text.zfill 2 (ss / 1000000))%string in
        if (ss mod 1000000 =? 0)%N then secs
        else (secs ++ "." ++ Text.zfill 6 (ss mod 1000000))%string
  end.

(** [time.isoformat]. *)
Definition time_isoformat (t : time) : string :=
  (format_time t ++ format_offset (utcoffset t))%string.

(** [datetime.isoformat] with the default separator ['T']. *)
Definition datetime_isoformat (d : datetime) : string :=
  (date_isoformat (dt_date d) ++ "T" ++ format_time (dt_time d)
     ++ format_offset (utcoffset (dt_time d)))%string.

End Iso.

(** [Decimal.__str__] (scientific string, capitals on, finite value). *)
Definition Decimal_str (d : Decimal) : string :=
  let sign := if d_sign d then "-" else "" in
  let int := Text.of_N (d_int d) in
  let len := Z.of_nat (String.length int) in
  let leftdigits := (d_exp d + len)%Z in
  let dotplace :=
    if ((d_exp d <=? 0) && (-6 <? leftdigits))%Z then leftdigits else 1%Z in
  let intpart :=
    if (dotplace <=? 0)%Z then "0"
    else if (len <=? dotplace)%Z
         then (int ++ Text.replicate_char (Z.to_nat (dotplace - len)) "0"%char)%string
         else Text.take (Z.to_nat dotplace) int in
  let fracpart :=
    if (dotplace <=? 0)%Z
    then ("." ++ Text.replicate_char (Z.to_nat (- dotplace)) "0"%char ++ int)%string
    else if (len <=? dotplace)%Z then ""
         else ("." ++ Text.drop (Z.to_nat dotplace) int)%string in
  let exp :=
    if (leftdigits =? dotplace)%Z then ""
    else ("E" ++ Text.signed (leftdigits - dotplace))%string in
  (sign ++ intpart ++ fracpart ++ exp)%string.

(** [UUID.__str__]: the 32 hexadecimal digits grouped 8-4-4-4-12. *)
Definition UUID_str (u : UUID) : string :=
  let hex := Text.hex_fixed 32 (uuid_int u) in
  (Text.take 8 hex ++ "-" ++ Text.take 4 (Text.drop 8 hex) ++ "-"
     ++ Text.take 4 (Text.drop 12 hex) ++ "-" ++ Text.take 4 (Text.drop 16 hex)
     ++ "-" ++ Text.drop 20 hex)%string.

Module Base64.

Definition alphabet : string :=
  "ABCDEFGHIJKLMNOPQRSTUVWXYZabcdefghijklmnopqrstuvwxyz0123456789+/".

Definition sextet (n : N) : ascii :=
  match String.get (N.to_nat (n mod 64)) alphabet with
  | Some c => c
  | None => "="%char
  end.

Definition code (b : Byte.byte) : N := Byte.to_N b.

(** [base64.b64encode(v).decode("utf-8")]: three bytes give four
    characters; a last group of one or two bytes is padded with [=]. *)
Fixpoint b64encode (bs : list Byte.byte) : string :=
  match bs with
  | [] => EmptyString
  | [a] =>
      let n := (code a * 65536)%N in
      String (sextet (n / 262144)) (String (sextet (n / 4096)) "==")
  | [a; b] =>
      let n := (code a * 65536 + code b * 256)%N in
      String (sextet (n / 262144)) (String (sextet (n / 4096))
        (String (sextet (n / 64)) "="))
  | a :: b :: c :: rest =>
      let n := (code a * 65536 + code b * 256 + code c)%N in
      String (sextet (n / 262144)) (String (sextet (n / 4096))
        (String (sextet (n / 64)) (String (sextet n) (b64encode rest))))
  end.

End Base64.

(** ** Python values *)

(** [class ProductStatusEnum(str, Enum)]. *)
Inductive ProductStatusEnum := DRAFT | ACTIVE | ARCHIVED.

Definition enum_value (e : ProductStatusEnum) : string :=
  match e with
  | DRAFT => "draft"
  | ACTIVE => "active"
  | ARCHIVED => "archived"
  end.

(** The model classes of the module. *)
Inductive model_class := SupabaseBaseModel | Category | Product.

#[global] Instance model_class_eq_dec : EqDecision model_class.
Proof. solve_decision. Defined.

Local Set Warnings "-register-all".

(** A Python value, tagged by its exact type. A [str] is a sequence of
    one-byte characters; a [Decimal] is finite; a [dict] has string keys
    and keeps insertion order; a model instance carries its class, its
    [__dict__] and its [__pydantic_fields_set__]. *)
Inductive pyval :=
| VNone
| VBool (b : bool)
| VInt (z : Z)
| VFloat (f : float)
| VStr (s : string)
| VBytes (bs : list Byte.byte)
| VDecimal (d : Decimal)
| VDatetime (d : datetime)
| VDate (d : date)
| VTime (t : time)
| VUUID (u : UUID)
| VEnum (e : ProductStatusEnum)
| VList (l : list pyval)
| VDict (d : list (string * pyval))
| VModel (c : model_class) (d : list (string * pyval)) (fs : gset string).

Abbreviation dict := (list (string * pyval)).

Module Dict.

Fixpoint get (d : dict) (k : string) : option pyval :=
  match d with
  | [] => None
  | (k', v) :: d' => if String.eqb k' k then Some v else get d' k
  end.

(** [d[k] = v]: an existing key keeps its position, a new key goes last. *)
Fixpoint set (d : dict) (k : string) (v : pyval) : dict :=
  match d with
  | [] => [(k, v)]
  | (k', v') :: d' =>
      if String.eqb k' k then (k', v) :: d' else (k', v') :: set d' k v
  end.

Definition keys (d : dict) : list string := map fst d.

(** [d.items()]. *)
Definition items (d : dict) : list (string * pyval) := d.

(** [dict(pairs)]. *)
Definition of_items (pairs : list (string * pyval)) : dict :=
  fold_left (fun d kv => set d (fst kv) (snd kv)) pairs [].

End Dict.

(** A model instance. *)
Record instance := mkInstance {
  i_class : model_class;
  i_dict : dict;
  i_fields_set : gset string
}.

Definition VInstance (self : instance) : pyval :=
  VModel (i_class self) (i_dict self) (i_fields_set self).

(** ** Exceptions *)

(** The messages of the [ValueError]s: the one the required-column check
    raises, with the list it prints, and the one an assignment to an unknown
    name raises. *)
Inductive message :=
| Required_columns_cannot_be_None (missing : list string)
| object_has_no_field (name : string).

(** The kinds of line a [ValidationError] lists. [type_error] stands for the
    library's family of type and parsing errors; [value_error] is a
    [ValueError] raised by a validator of the class. *)
Inductive error_type :=
| type_error
| string_too_short
| string_too_long
| string_pattern_mismatch
| greater_than
| too_short
| too_long
| model_type
| value_error (m : message).

(** One line of a [ValidationError]: where, and what. *)
Definition error_detail : Type := list string * error_type.

Inductive exn :=
| ValidationError (title : model_class) (errors : list error_detail)
| ValueError (m : message)
| TypeError.

Inductive result (A : Type) :=
| Ok (a : A)
| Raise (e : exn).
Arguments Ok {A} a.
Arguments Raise {A} e.

Definition bind {A B} (r : result A) (k : A -> result B) : result B :=
  match r with
  | Ok a => k a
  | Raise e => Raise e
  end.

Notation "'let*' x ':=' r 'in' k" := (bind r (fun x => k))
  (at level 10, x name, r at level 100, k at level 200).

(** A list comprehension whose body may raise: the first exception wins. *)
Fixpoint comprehension {A B} (f : A -> result B) (l : list A) : result (list B) :=
  match l with
  | [] => Ok []
  | a :: l' => let* b := f a in let* bs := comprehension f l' in Ok (b :: bs)
  end.

(** ** SupabaseBaseModel: serialisation *)

(** [_SERIALIZERS.get(type(value))] applied to [value]: the table has the
    six exact types [datetime], [date], [time], [Decimal], [UUID] and
    [bytes]. *)
Definition _SERIALIZERS (value : pyval) : option string :=
  match value with
  | VDatetime v => Some (Iso.datetime_isoformat v)
  | VDate v => Some (Iso.date_isoformat v)
  | VTime v => Some (Iso.time_isoformat v)
  | VDecimal v => Some (Decimal_str v)
  | VUUID v => Some (UUID_str v)
  | VBytes v => Some (Base64.b64encode v)
  | _ => None
  end.

(** [serialize_fields], the serialiser of every field. *)
Definition serialize_fields (value : pyval) : pyval :=
  match _SERIALIZERS value with
  | Some s => VStr s
  | None => value
  end.

(** What the library makes, in Python mode, of the value a field serialiser
    returned: containers are rebuilt, a nested model instance becomes the
    dictionary of all its fields (each through the serialiser of its own
    class, which is [serialize_fields] again), anything else is kept. *)
Fixpoint to_python (v : pyval) : pyval :=
  match v with
  | VList l => VList (map to_python l)
  | VDict d => VDict (map (fun kv => (fst kv, to_python (snd kv))) d)
  | VModel _ d _ =>
      VDict (map (fun kv => (fst kv, match _SERIALIZERS (snd kv) with
                                     | Some s => VStr s
                                     | None => to_python (snd kv)
                                     end)) d)
  | _ => v
  end.

Definition serialize_field (value : pyval) : pyval :=
  to_python (serialize_fields value).

(** ** Patterns *)

Module Regex.

(** The regular expressions the field patterns are written in. A pattern
    [^r$] asks for a match of [r] against the whole string. *)
Inductive regex :=
| Range (lo hi : ascii)                (* [lo-hi] *)
| Char (c : ascii)                     (* a literal *)
| Seq (r1 r2 : regex)                  (* r1 r2 *)
| Repeat (r : regex) (lo hi : nat).    (* r{lo,hi} *)

Definition in_range (lo hi c : ascii) : bool :=
  (nat_of_ascii lo <=? nat_of_ascii c)%nat && (nat_of_ascii c <=? nat_of_ascii hi)%nat.

(** [m] run [lo] times, then at most [extra] more times (greedy), then [k]. *)
Fixpoint repeat_match (m : string -> (string -> bool) -> bool)
    (lo extra : nat) (s : string) (k : string -> bool) : bool :=
  match lo with
  | S lo' => m s (fun s' => repeat_match m lo' extra s' k)
  | O =>
      (fix more (extra : nat) (s : string) : bool :=
         match extra with
         | S e => m s (fun s' => more e s') || k s
         | O => k s
         end) extra s
  end.

(** [matches r s k]: some prefix of [s] matches [r] and [k] accepts the
    rest. *)
Fixpoint matches (r : regex) (s : string) (k : string -> bool) : bool :=
  match r with
  | Range lo hi =>
      match s with
      | String c s' => in_range lo hi c && k s'
      | EmptyString => false
      end
  | Char c0 =>
      match s with
      | String c s' => Ascii.eqb c0 c && k s'
      | EmptyString => false
      end
  | Seq r1 r2 => matches r1 s (fun s' => matches r2 s' k)
  | Repeat r lo hi => repeat_match (matches r) lo (hi - lo) s k
  end.

Definition is_empty (s : string) : bool :=
  match s with EmptyString => true | _ => false end.

(** [^r$] on [s]. *)
Definition fullmatch (r : regex) (s : string) : bool := matches r s is_empty.

End Regex.

(** [^[A-Z]{2,3}-[0-9]{3,4}$], the pattern of [Product.sku]. *)
Definition sku_pattern : Regex.regex :=
  Regex.Seq (Regex.Repeat (Regex.Range "A" "Z") 2 3)
    (Regex.Seq (Regex.Char "-") (Regex.Repeat (Regex.Range "0" "9") 3 4)).

(** ** Field declarations *)

(** The type a field is annotated with, next to [None]. *)
Inductive ftype :=
| TInt                        (* int *)
| TStr                        (* str *)
| TDecimalOrFloat             (* Decimal | float *)
| TProductStatusEnum          (* ProductStatusEnum *)
| TDatetime                   (* datetime *)
| TModel (c : model_class).   (* another model *)

(** [name: <type> | None = Field(default=..., max_length=..., ...)]. *)
Record FieldInfo := mkField {
  f_name : string;
  f_type : ftype;
  f_default : pyval;
  f_max_length : option nat;
  f_min_length : option nat;
  f_pattern : option Regex.regex;
  f_gt : option float
}.

Definition Field (name : string) (t : ftype) : FieldInfo :=
  mkField name t VNone None None None None.

Definition max_length (n : nat) (f : FieldInfo) : FieldInfo :=
  mkField (f_name f) (f_type f) (f_default f) (Some n) (f_min_length f) (f_pattern f) (f_gt f).
Definition min_length (n : nat) (f : FieldInfo) : FieldInfo :=
  mkField (f_name f) (f_type f) (f_default f) (f_max_length f) (Some n) (f_pattern f) (f_gt f).
Definition pattern (r : Regex.regex) (f : FieldInfo) : FieldInfo :=
  mkField (f_name f) (f_type f) (f_default f) (f_max_length f) (f_min_length f) (Some r) (f_gt f).
Definition gt (b : float) (f : FieldInfo) : FieldInfo :=
  mkField (f_name f) (f_type f) (f_default f) (f_max_length f) (f_min_length f) (f_pattern f) (Some b).

(** [cls.model_fields], in declaration order. *)
Definition model_fields (cls : model_class) : list FieldInfo :=
  match cls with
  | SupabaseBaseModel => []
  | Category =>
      [ Field "id" TInt;
        max_length 100 (Field "name" TStr);
        min_length 4 (max_length 14 (Field "nickname" TStr)) ]
  | Product =>
      [ Field "id" TInt;
        max_length 100 (Field "name" TStr);
        pattern sku_pattern (max_length 20 (Field "sku" TStr));
        gt 1.0 (Field "price" TDecimalOrFloat);
        Field "category_id" TInt;
        max_length 8 (Field "status" TProductStatusEnum);
        Field "created_at" TDatetime;
        Field "categories" (TModel Category) ]
  end.

Definition field_names (cls : model_class) : list string :=
  map f_name (model_fields cls).

(** The class variable [table_name]. *)
Definition table_name (cls : model_class) : option string :=
  match cls with
  | SupabaseBaseModel => None
  | Category => Some "categories"
  | Product => Some "products"
  end.

(** The class variable [_required_columns]; the base class has none. *)
Definition _required_columns (cls : model_class) : option (list string) :=
  match cls with
  | SupabaseBaseModel => None
  | Category => Some ["name"]
  | Product => Some ["name"; "sku"]
  end.

(** ** Validation *)

(** A validated [Decimal | float]. *)
Inductive number := NDecimal (d : Decimal) | NFloat (f : float).

Definition VNumber (n : number) : pyval :=
  match n with
  | NDecimal d => VDecimal d
  | NFloat f => VFloat f
  end.

(** What the library's lax mode makes of an input that is not already of
    the exact type of the field (a numeric string for an [int], an ISO
    string for a [datetime], an [int] for a [Decimal | float], ...). The
    development is generic in these conversions: only the type of what they
    return is fixed, and an input of the exact type never reaches them. *)
Class Coercions := {
  lax_int : pyval -> option Z;
  lax_str : pyval -> option string;
  lax_number : pyval -> option number;
  lax_enum : pyval -> option ProductStatusEnum;
  lax_datetime : pyval -> option datetime
}.

(** [d > b] for a [Decimal] and a [float]: Python compares the two exact
    values. *)
Definition Decimal_gt_float (d : Decimal) (b : float) : bool :=
  let dz := (if d_sign d then - Z.of_N (d_int d) else Z.of_N (d_int d))%Z in
  match Prim2SF b with
  | S754_nan => false
  | S754_infinity s => s
  | S754_zero _ => (0 <? dz)%Z
  | S754_finite s m e =>
      let bz := if s then Zneg m else Zpos m in
      (bz * 2 ^ Z.max e 0 * 10 ^ Z.max (- d_exp d) 0
         <? dz * 10 ^ Z.max (d_exp d) 0 * 2 ^ Z.max (- e) 0)%Z
  end.

(** [x > b]. *)
Definition number_gt (x : number) (b : float) : bool :=
  match x with
  | NDecimal d => Decimal_gt_float d b
  | NFloat f => PrimFloat.ltb b f
  end.

(** The outcome of a validator: a value, or the lines of the error. *)
Inductive validation (A : Type) :=
| Valid (a : A)
| Invalid (errors : list error_detail).
Arguments Valid {A} a.
Arguments Invalid {A} errors.

Definition fail {A} (e : error_type) : validation A := Invalid [([], e)].

(** The length constraints, with the error kinds of the type they are on. *)
Definition length_error (f : FieldInfo) (n : nat) (short long : error_type)
  : option error_type :=
  if match f_min_length f with Some m => (n <? m)%nat | None => false end
  then Some short
  else if match f_max_length f with Some m => (m <? n)%nat | None => false end
       then Some long
       else None.

Definition pattern_error (f : FieldInfo) (s : string) : option error_type :=
  match f_pattern f with
  | Some r => if Regex.fullmatch r s then None else Some string_pattern_mismatch
  | None => None
  end.

Definition gt_error (f : FieldInfo) (x : number) : option error_type :=
  match f_gt f with
  | Some b => if number_gt x b then None else Some greater_than
  | None => None
  end.

Section Validation.

Context {lax : Coercions}.

(** The type validators: an input of the exact type is taken as it is. *)
Definition as_int (v : pyval) : option Z :=
  match v with VInt z => Some z | _ => lax_int v end.
Definition as_str (v : pyval) : option string :=
  match v with VStr s => Some s | _ => lax_str v end.
Definition as_number (v : pyval) : option number :=
  match v with
  | VDecimal d => Some (NDecimal d)
  | VFloat f => Some (NFloat f)
  | _ => lax_number v
  end.
Definition as_enum (v : pyval) : option ProductStatusEnum :=
  match v with VEnum e => Some e | _ => lax_enum v end.
Definition as_datetime (v : pyval) : option datetime :=
  match v with VDatetime d => Some d | _ => lax_datetime v end.

Section Fields.

(** The validator of a nested model, from a dictionary. *)
Variable nested : model_class -> dict -> validation instance.

(** A field [name: T | None]: [None] passes; anything else is validated
    as a [T], then against the constraints of the declaration. *)
Definition validate_field (f : FieldInfo) (v : pyval) : validation pyval :=
  match v with
  | VNone => Valid VNone
  | _ =>
      match f_type f with
      | TInt =>
          match as_int v with
          | Some z => Valid (VInt z)
          | None => fail type_error
          end
      | TStr =>
          match as_str v with
          | Some s =>
              match length_error f (String.length s) string_too_short string_too_long with
              | Some e => fail e
              | None =>
                  match pattern_error f s with
                  | Some e => fail e
                  | None => Valid (VStr s)
                  end
              end
          | None => fail type_error
          end
      | TDecimalOrFloat =>
          match as_number v with
          | Some x =>
              match gt_error f x with
              | Some e => fail e
              | None => Valid (VNumber x)
              end
          | None => fail type_error
          end
      | TProductStatusEnum =>
          match as_enum v with
          | Some e =>
              match length_error f (String.length (enum_value e)) too_short too_long with
              | Some err => fail err
              | None => Valid (VEnum e)
              end
          | None => fail type_error
          end
      | TDatetime =>
          match as_datetime v with
          | Some d => Valid (VDatetime d)
          | None => fail type_error
          end
      | TModel c =>
          match v with
          | VModel c0 _ _ => if decide (c0 = c) then Valid v else fail model_type
          | VDict d =>
              match nested c d with
              | Valid self => Valid (VInstance self)
              | Invalid errors => Invalid errors
              end
          | _ => fail model_type
          end
      end
  end.

(** The fields of a model from the keyword arguments: a field that is
    given is validated and recorded as set, a field that is missing
    takes its default; the errors of all the fields are collected, each
    under the name of its field. Arguments that name no field are
    ignored. *)
Fixpoint validate_fields (fields : list FieldInfo) (kwargs : dict)
  : dict * gset string * list error_detail :=
  match fields with
  | [] => ([], ∅, [])
  | f :: rest =>
      let '(values, fields_set, errors) := validate_fields rest kwargs in
      match Dict.get kwargs (f_name f) with
      | None => ((f_name f, f_default f) :: values, fields_set, errors)
      | Some v =>
          match validate_field f v with
          | Valid v' => ((f_name f, v') :: values, {[f_name f]} ∪ fields_set, errors)
          | Invalid es =>
              (values, fields_set,
               map (fun e => (f_name f :: fst e, snd e)) es ++ errors)
          end
      end
  end.

End Fields.

End Validation.

(** ** SupabaseBaseModel *)

Definition is_None (v : option pyval) : bool :=
  match v with Some VNone => true | _ => false end.

(** [getattr(self, name)] for the name of a field. *)
Definition getattr (self : instance) (name : string) : option pyval :=
  Dict.get (i_dict self) name.

(** [validate_required_columns], the [mode="after"] validator. The names in
    [_required_columns] are fields of the class, so [getattr] finds them. *)
Definition validate_required_columns (self : instance) : result instance :=
  match _required_columns (i_class self) with
  | Some cols =>
      let missing := List.filter (fun f => is_None (getattr self f)) cols in
      match missing with
      | [] => Ok self
      | _ => Raise (ValueError (Required_columns_cannot_be_None missing))
      end
  | None => Ok self
  end.

(** The library turns a [ValueError] of an after-validator into a line of
    the validation error (the check above raises nothing else). *)
Definition after_validator (r : result instance) : validation instance :=
  match r with
  | Ok self => Valid self
  | Raise (ValueError m) => fail (value_error m)
  | Raise _ => Invalid []
  end.

Section Construction.

Context {lax : Coercions}.

(** Validation of a model from keyword arguments: the fields, then, if
    none failed, the after-validator. [depth] bounds the nesting of models
    inside models. *)
Fixpoint validate_model (depth : nat) (cls : model_class) (kwargs : dict)
  : validation instance :=
  match depth with
  | O => fail model_type
  | S depth' =>
      let '(values, fields_set, errors) :=
        validate_fields (validate_model depth') (model_fields cls) kwargs in
      match errors with
      | [] => after_validator (validate_required_columns (mkInstance cls values fields_set))
      | _ => Invalid errors
      end
  end.

(** [Product] holds a [Category], which holds no model. *)
Definition nesting_depth : nat := 2.

(** The call of a class with keyword arguments [kwargs]. *)
Definition construct (cls : model_class) (kwargs : dict) : result instance :=
  match validate_model nesting_depth cls kwargs with
  | Valid self => Ok self
  | Invalid errors => Raise (ValidationError cls errors)
  end.

(** The call of a class with an arbitrary value unpacked into keyword
    arguments: only a mapping can be unpacked. *)
Definition call (cls : model_class) (record : pyval) : result instance :=
  match record with
  | VDict kwargs => construct cls kwargs
  | _ => Raise TypeError
  end.

End Construction.

(** [self.<name> = value] for a model without [validate_assignment]: a
    field is stored as it is and recorded as set; another public name is
    refused. *)
Definition setattr (self : instance) (name : string) (value : pyval) : result instance :=
  if bool_decide (name ∈ field_names (i_class self))
  then Ok (mkInstance (i_class self) (Dict.set (i_dict self) name value)
             ({[name]} ∪ i_fields_set self))
  else Raise (ValueError (object_has_no_field name)).

(** [self.model_dump(exclude=...)]: the entries of [__dict__] that are not
    excluded, each through the field serialiser. *)
Definition model_dump (self : instance) (exclude : option (gset string)) : dict :=
  map (fun kv => (fst kv, serialize_field (snd kv)))
    (match exclude with
     | Some ex => filter (fun kv : string * pyval => fst kv ∉ ex) (i_dict self)
     | None => i_dict self
     end).

(** [dump]. *)
Definition dump (self : instance) : dict :=
  let field_names := field_names (i_class self) in
  let exclude_set : gset string :=
    list_to_set (filter (fun f => f ∉ i_fields_set self) field_names) in
  model_dump self (if decide (exclude_set = ∅) then None else Some exclude_set).

(** [__iter__]: [iter(self.dump().items())], as the sequence it yields. *)
Definition __iter__ (self : instance) : list (string * pyval) :=
  Dict.items (dump self).

(** The argument of [load]: an object with a [data] attribute (a response),
    or any other value. *)
Inductive response_or_data :=
| Response (data : pyval)
| Data (v : pyval).

(** What [load] returns: one instance, or a list of them. *)
Inductive loaded :=
| Instance (self : instance)
| Instances (l : list instance).

Section Load.

Context {lax : Coercions}.

(** [load]. *)
Definition load (cls : model_class) (x : response_or_data) : result loaded :=
  let data := match x with Response d => d | Data v => v end in
  match data with
  | VList l => let* xs := comprehension (call cls) l in Ok (Instances xs)
  | _ => let* self := call cls data in Ok (Instance self)
  end.

End Load.

(** The conversions switched off: every input must have the exact type. *)
Definition exact_only : Coercions :=
  {| lax_int := fun _ => None; lax_str := fun _ => None; lax_number := fun _ => None;
     lax_enum := fun _ => None; lax_datetime := fun _ => None |}.

(** ** Notions the properties are stated with *)

(** The exact type of a value, [type(value)]. *)
Inductive pytype :=
| T_NoneType | T_bool | T_int | T_float | T_str | T_bytes | T_Decimal
| T_datetime | T_date | T_time | T_UUID | T_ProductStatusEnum | T_list | T_dict
| T_model (c : model_class).

Definition type_of (v : pyval) : pytype :=
  match v with
  | VNone => T_NoneType
  | VBool _ => T_bool
  | VInt _ => T_int
  | VFloat _ => T_float
  | VStr _ => T_str
  | VBytes _ => T_bytes
  | VDecimal _ => T_Decimal
  | VDatetime _ => T_datetime
  | VDate _ => T_date
  | VTime _ => T_time
  | VUUID _ => T_UUID
  | VEnum _ => T_ProductStatusEnum
  | VList _ => T_list
  | VDict _ => T_dict
  | VModel c _ _ => T_model c
  end.

(** The keys of [_SERIALIZERS]. *)
Definition SERIALIZERS_keys : list pytype :=
  [T_datetime; T_date; T_time; T_Decimal; T_UUID; T_bytes].

(** A sequence of assignments [self.<name> = value]. *)
Fixpoint assign_all (self : instance) (assignments : list (string * pyval))
  : result instance :=
  match assignments with
  | [] => Ok self
  | (name, value) :: rest => let* self' := setattr self name value in assign_all self' rest
  end.

(** The field [name] was not given, or was given as [None]. *)
Definition left_null (kwargs : dict) (name : string) : bool :=
  match Dict.get kwargs name with
  | None | Some VNone => true
  | Some _ => false
  end.

(** The data of a value, without the record of which fields of a nested
    model were set: what the equality of model instances compares. *)
Fixpoint data_of (v : pyval) : pyval :=
  match v with
  | VList l => VList (map data_of l)
  | VDict d => VDict (map (fun kv => (fst kv, data_of (snd kv))) d)
  | VModel c d _ => VModel c (map (fun kv => (fst kv, data_of (snd kv))) d) ∅
  | _ => v
  end.

Definition data_of_dict (d : dict) : dict :=
  map (fun kv => (fst kv, data_of (snd kv))) d.

Section Satisfaction.

Context {lax : Coercions}.

(** A value given for a field satisfies the declaration: it is [None], or
    it has the type of the field and meets its constraints; for a field
    that holds a model, it is an instance of that model or a mapping the
    model accepts. *)
Definition satisfies (f : FieldInfo) (v : pyval) : Prop :=
  match v with
  | VNone => True
  | _ =>
      match f_type f, v with
      | TInt, VInt _ => True
      | TStr, VStr s =>
          length_error f (String.length s) string_too_short string_too_long = None
          /\ pattern_error f s = None
      | TDecimalOrFloat, VDecimal d => gt_error f (NDecimal d) = None
      | TDecimalOrFloat, VFloat x => gt_error f (NFloat x) = None
      | TProductStatusEnum, VEnum e =>
          length_error f (String.length (enum_value e)) too_short too_long = None
      | TDatetime, VDatetime _ => True
      | TModel c, VModel c0 _ _ => c0 = c
      | TModel c, VDict d => exists self, construct c d = Ok self
      | _, _ => False
      end
  end.

(** A value of the type of the field that breaks one of its constraints,
    with the kind of error this is. *)
Definition violates (f : FieldInfo) (v : pyval) (e : error_type) : Prop :=
  match f_type f, v with
  | TStr, VStr s =>
      length_error f (String.length s) string_too_short string_too_long = Some e
      \/ (length_error f (String.length s) string_too_short string_too_long = None
          /\ pattern_error f s = Some e)
  | TDecimalOrFloat, VDecimal d => gt_error f (NDecimal d) = Some e
  | TDecimalOrFloat, VFloat x => gt_error f (NFloat x) = Some e
  | TProductStatusEnum, VEnum m =>
      length_error f (String.length (enum_value m)) too_short too_long = Some e
  | _, _ => False
  end.

(** The keyword arguments are valid for the class: what is given for a
    field satisfies it, and every required field is given and not [None]. *)
Definition valid_kwargs (cls : model_class) (kwargs : dict) : Prop :=
  (forall f v, In f (model_fields cls) -> Dict.get kwargs (f_name f) = Some v ->
               satisfies f v)
  /\ (forall cols name, _required_columns cls = Some cols -> In name cols ->
                        left_null kwargs name = false).

(** The library's parsers read back what the serialisers wrote for this
    value: the decimal string of a [Decimal], the ISO string of a
    [datetime]. *)
Definition reads_back (v : pyval) : Prop :=
  match v with
  | VDecimal d => lax_number (VStr (Decimal_str d)) = Some (NDecimal d)
  | VDatetime d => lax_datetime (VStr (Iso.datetime_isoformat d)) = Some d
  | _ => True
  end.

(** An instance as construction leaves it: built by the class from some
    keyword arguments, any instance given for a nested model being itself
    built by its class. *)
Definition constructed (self : instance) : Prop :=
  (exists kwargs, construct (i_class self) kwargs = Ok self)
  /\ (forall name c d fs, getattr self name = Some (VModel c d fs) ->
        exists kwargs, construct c kwargs = Ok (mkInstance c d fs)).

End Satisfaction.

(** The value a field ends up with: its default when it is not given, the
    validated value when it is. *)
Definition field_value {lax : Coercions}
    (nested : model_class -> dict -> validation instance)
    (kwargs : dict) (f : FieldInfo) : pyval :=
  match Dict.get kwargs (f_name f) with
  | None => f_default f
  | Some v =>
      match validate_field nested f v with
      | Valid v' => v'
      | Invalid _ => f_default f
      end
  end.

(** The names among [names] that the keyword arguments give. *)
Definition given (kwargs : dict) (names : list string) : list string :=
  filter (fun n => is_Some (Dict.get kwargs n)) names.

(** The columns the check finds null. *)
Definition missing_columns (self : instance) (cols : list string) : list string :=
  List.filter (fun f => is_None (getattr self f)) cols.

(** The instance the fields make when all of them validate. *)
Definition built {lax : Coercions} (cls : model_class) (kwargs : dict) : instance :=
  mkInstance cls
    (map (fun f => (f_name f, field_value (validate_model 1) kwargs f)) (model_fields cls))
    (list_to_set (given kwargs (field_names cls))).

(** Every field that is given validates. *)
Definition fields_validate {lax : Coercions} (cls : model_class) (kwargs : dict) : Prop :=
  forall f v, In f (model_fields cls) -> Dict.get kwargs (f_name f) = Some v ->
              exists v', validate_field (validate_model 1) f v = Valid v'.

(** The set [dump] excludes. *)
Definition exclude_set (self : instance) : gset string :=
  list_to_set (filter (fun f => f ∉ i_fields_set self) (field_names (i_class self))).

(** A product as a caller makes it. *)
Definition a_product : dict :=
  [("name", VStr "Test"); ("sku", VStr "AB-123");
   ("price", VDecimal (mkDecimal false 1099 (-2)))].

(** A product row as the backend returns it, with its category expanded. *)
Definition a_full_product : dict :=
  [("id", VInt 7); ("name", VStr "Test"); ("sku", VStr "AB-123");
   ("price", VDecimal (mkDecimal false 1099 (-2)));
   ("status", VEnum ACTIVE);
   ("created_at",
    VDatetime (mkDatetime (mkDate 2024 1 2) (mkTime 3 4 5 1500 (Some 7200000000%Z))));
   ("categories", VDict [("id", VInt 1); ("name", VStr "Tools")])].

(** The ranges of the components of a [date], a [time] and a [datetime],
    as the standard library enforces them; an offset is less than a day. *)
Definition date_in_range (d : date) : Prop :=
  (1 <= year d <= 9999 /\ 1 <= month d <= 12 /\ 1 <= day d <= 31)%N.

Definition time_in_range (t : time) : Prop :=
  (hour t < 24 /\ minute t < 60 /\ second t < 60 /\ microsecond t < 1000000)%N
  /\ match utcoffset t with
     | Some o => (-86400000000 < o < 86400000000)%Z
     | None => True
     end.

Definition datetime_in_range (d : datetime) : Prop :=
  date_in_range (dt_date d) /\ time_in_range (dt_time d).

(** ** The conversions that read a dumped value back *)

Module Parse.

Definition digit (c : ascii) : option N :=
  let n := N_of_ascii c in
  if ((48 <=? n) && (n <=? 57))%N then Some (n - 48)%N else None.

Definition is_digit (c : ascii) : bool :=
  match digit c with Some _ => true | None => false end.

(** The number a string of digits writes, after the digits of [acc]. *)
Fixpoint digits_from (acc : N) (s : string) : option N :=
  match s with
  | EmptyString => Some acc
  | String c s' =>
      match digit c with
      | Some d => digits_from (acc * 10 + d) s'
      | None => None
      end
  end.

(** The number a non-empty string of digits writes. *)
Definition digits (s : string) : option N :=
  if Text.is_empty s then None else digits_from 0 s.

(** [s.partition(c)]: the text before the first [c], and the text after it
    when there is one. *)
Fixpoint partition (c : ascii) (s : string) : string * option string :=
  match s with
  | EmptyString => (EmptyString, None)
  | String c' s' =>
      if Ascii.eqb c c' then (EmptyString, Some s')
      else let '(before, after) := partition c s' in (String c' before, after)
  end.

(** The rest of [s] after the character [c] at its head. *)
Definition expect (c : ascii) (s : string) : option string :=
  match s with
  | String c' s' => if Ascii.eqb c c' then Some s' else None
  | EmptyString => None
  end.

Definition signed_digits (s : string) : option Z :=
  match expect "-" s with
  | Some s' => n ← digits s'; Some (- Z.of_N n)%Z
  | None =>
      match expect "+" s with
      | Some s' => n ← digits s'; Some (Z.of_N n)
      | None => n ← digits s; Some (Z.of_N n)
      end
  end.

(** A decimal string [[-]ddd[.ddd][E(+|-)ddd]] as a [Decimal]. *)
Definition decimal (s : string) : option Decimal :=
  let '(sign, body) :=
    match expect "-" s with
    | Some s' => (true, s')
    | None => (false, s)
    end in
  let '(mantissa, exponent) := partition "E" body in
  let '(intpart, fracpart) := partition "." mantissa in
  let frac := match fracpart with Some fp => fp | None => EmptyString end in
  _ ← digits intpart;
  coefficient ← digits_from 0 (intpart ++ frac)%string;
  e ← match exponent with Some e => signed_digits e | None => Some 0%Z end;
  Some (mkDecimal sign coefficient (e - Z.of_nat (String.length frac))).

(** Exactly [n] digits at the head of [s], and the rest. *)
Definition fixed (n : nat) (s : string) : option (N * string) :=
  if (String.length s <? n)%nat then None
  else v ← digits (Text.take n s); Some (v, Text.drop n s).

(** An optional fraction [.ffffff]. *)
Definition fraction (s : string) : option (N * string) :=
  match expect "." s with
  | Some s' => fixed 6 s'
  | None => Some (0%N, s)
  end.

(** [HH:MM:SS[.ffffff]] at the head of [s]. *)
Definition clock (s : string) : option (N * N * N * N * string) :=
  '(hh, s) ← fixed 2 s;
  s ← expect ":" s;
  '(mm, s) ← fixed 2 s;
  s ← expect ":" s;
  '(ss, s) ← fixed 2 s;
  '(us, s) ← fraction s;
  Some (hh, mm, ss, us, s).

(** An offset [(+|-)HH:MM[:SS[.ffffff]]], or nothing, up to the end. *)
Definition offset (s : string) : option (option Z) :=
  if Text.is_empty s then Some None
  else
    '(sign, s) ← match expect "+" s with
                 | Some s' => Some (1%Z, s')
                 | None => s' ← expect "-" s; Some ((-1)%Z, s')
                 end;
    '(hh, s) ← fixed 2 s;
    s ← expect ":" s;
    '(mm, s) ← fixed 2 s;
    if Text.is_empty s
    then Some (Some (sign * Z.of_N (hh * 3600000000 + mm * 60000000))%Z)
    else
      s ← expect ":" s;
      '(ss, s) ← fixed 2 s;
      '(us, s) ← fraction s;
      if Text.is_empty s
      then Some (Some (sign * Z.of_N (hh * 3600000000 + mm * 60000000
                                      + (ss * 1000000 + us)))%Z)
      else None.

(** [YYYY-MM-DDTHH:MM:SS[.ffffff][offset]] as a [datetime]. *)
Definition iso_datetime (s : string) : option datetime :=
  '(y, s) ← fixed 4 s;
  s ← expect "-" s;
  '(m, s) ← fixed 2 s;
  s ← expect "-" s;
  '(d, s) ← fixed 2 s;
  s ← expect "T" s;
  '(hh, mm, ss, us, s) ← clock s;
  off ← offset s;
  Some (mkDatetime (mkDate y m d) (mkTime hh mm ss us off)).

(** The member of [ProductStatusEnum] with this value. *)
Definition status (s : string) : option ProductStatusEnum :=
  if String.eqb s "draft" then Some DRAFT
  else if String.eqb s "active" then Some ACTIVE
  else if String.eqb s "archived" then Some ARCHIVED
  else None.

End Parse.

(** Conversions that read JSON-safe values back: a decimal string as a
    [Decimal], an ISO string as a [datetime], the value of an enumeration
    member as the member. *)
Definition json_coercions : Coercions :=
  {| lax_int := fun _ => None;
     lax_str := fun _ => None;
     lax_number := fun v =>
       match v with VStr s => option_map NDecimal (Parse.decimal s) | _ => None end;
     lax_enum := fun v =>
       match v with VStr s => Parse.status s | _ => None end;
     lax_datetime := fun v =>
       match v with VStr s => Parse.iso_datetime s | _ => None end |}.

(** A character other than [c]. *)
Definition is_not (c : ascii) (x : ascii) : bool := negb (Ascii.eqb c x).

(** A list or a mapping. *)
Definition is_list_or_dict (v : pyval) : bool :=
  match v with VList _ | VDict _ => true | _ => false end.

(** The strings [^[A-Z]{2,3}-[0-9]{3,4}$] describes: two or three capital
    letters, a hyphen, three or four digits. *)
Definition sku_shape (s : string) : Prop :=
  exists letters digits,
    s = (letters ++ "-" ++ digits)%string
    /\ (2 <= String.length letters <= 3)%nat
    /\ Text.all_chars (Regex.in_range "A" "Z") letters = true
    /\ (3 <= String.length digits <= 4)%nat
    /\ Text.all_chars (Regex.in_range "0" "9") digits = true.

(** The number [c * 10 ^ e] a [Decimal] stands for is greater than one
    (the negative power is moved to the other side). *)
Definition Decimal_exceeds_one (d : Decimal) : Prop :=
  (10 ^ Z.max (- d_exp d) 0
   < (if d_sign d then - Z.of_N (d_int d) else Z.of_N (d_int d)) * 10 ^ Z.max (d_exp d) 0)%Z.

(** The decoding of base64, to read a dumped [bytes] back: the place of a
    character in the alphabet, the byte of a number, and four characters
    at a time. *)
Fixpoint index_of (c : ascii) (s : string) : N :=
  match s with
  | EmptyString => 0
  | String x s' => if Ascii.eqb x c then 0 else 1 + index_of c s'
  end.

Definition unsextet (c : ascii) : N := index_of c Base64.alphabet.

Definition byte_of (n : N) : Byte.byte :=
  match Byte.of_N (n mod 256) with Some b => b | None => Byte.x00 end.

Fixpoint b64decode (s : string) : list Byte.byte :=
  match s with
  | String c1 (String c2 (String c3 (String c4 rest))) =>
      let hi := (unsextet c1 * 64 + unsextet c2)%N in
      if Ascii.eqb c3 "=" then [byte_of (hi / 16)]
      else
        let mid := (hi * 64 + unsextet c3)%N in
        if Ascii.eqb c4 "=" then [byte_of (mid / 1024); byte_of (mid / 4)]
        else
          let n := (mid * 64 + unsextet c4)%N in
          byte_of (n / 65536) :: byte_of (n / 256) :: byte_of n :: b64decode rest
  | _ => []
  end.

(** * Sanity checks: the definitions on concrete inputs *)

Example date_isoformat_ex :
  Iso.date_isoformat (mkDate 2024 1 2) = "2024-01-02".
Proof. reflexivity. Qed.

Example datetime_isoformat_ex :
  Iso.datetime_isoformat
    (mkDatetime (mkDate 2024 1 2) (mkTime 3 4 5 0 None)) = "2024-01-02T03:04:05".
Proof. reflexivity. Qed.

Example datetime_isoformat_tz_ex :
  Iso.datetime_isoformat
    (mkDatetime (mkDate 987 12 31) (mkTime 23 59 59 1500 (Some (-19800000000)%Z)))
  = "0987-12-31T23:59:59.001500-05:30".
Proof. vm_compute. reflexivity. Qed.

Example Decimal_str_ex1 : Decimal_str (mkDecimal false 1099 (-2)) = "10.99".
Proof. reflexivity. Qed.

Example Decimal_str_ex2 : Decimal_str (mkDecimal true 5 (-7)) = "-5E-7".
Proof. reflexivity. Qed.

Example Decimal_str_ex3 : Decimal_str (mkDecimal false 123 (-5)) = "0.00123".
Proof. reflexivity. Qed.

Example Decimal_str_ex4 : Decimal_str (mkDecimal false 1234 3) = "1.234E+6".
Proof. reflexivity. Qed.

Example UUID_str_ex :
  UUID_str (mkUUID 24197857161011715162171839636988778104)
  = "12345678-1234-5678-1234-567812345678".
Proof. vm_compute. reflexivity. Qed.

Example b64encode_ex :
  Base64.b64encode [Byte.x61; Byte.x62] = "YWI=".
Proof. reflexivity. Qed.

Example sku_pattern_ex1 : Regex.fullmatch sku_pattern "AB-123" = true.
Proof. reflexivity. Qed.

Example sku_pattern_ex3 : Regex.fullmatch sku_pattern "AB-12" = false.
Proof. reflexivity. Qed.

Example sku_pattern_ex5 : Regex.fullmatch sku_pattern "AB-12345" = false.
Proof. reflexivity. Qed.

Example Decimal_gt_float_ex1 : Decimal_gt_float (mkDecimal false 1099 (-2)) 1.0 = true.
Proof. vm_compute. reflexivity. Qed.

Example Decimal_gt_float_ex3 : Decimal_gt_float (mkDecimal false 1000001 (-6)) 1.0 = true.
Proof. vm_compute. reflexivity. Qed.

Example Decimal_gt_float_ex5 : Decimal_gt_float (mkDecimal true 3 0) (-2.5) = false.
Proof. vm_compute. reflexivity. Qed.

Example construct_ex1 :
  dump <$> (match @construct exact_only Product
              [("name", VStr "Test"); ("sku", VStr "AB-123");
               ("price", VDecimal (mkDecimal false 1099 (-2)))] with
            | Ok self => Some self | Raise _ => None end)
  = Some [("name", VStr "Test"); ("sku", VStr "AB-123"); ("price", VStr "10.99")].
Proof. vm_compute. reflexivity. Qed.

Example construct_ex2 :
  @construct exact_only Product [("name", VStr "Test"); ("price", VFloat 2.5)]
  = Raise (ValidationError Product
             [([], value_error (Required_columns_cannot_be_None ["sku"]))]).
Proof. vm_compute. reflexivity. Qed.

Example construct_ex3 :
  @construct exact_only Product [("sku", VStr "AB-12"); ("price", VFloat 0.5)]
  = Raise (ValidationError Product
             [(["sku"], string_pattern_mismatch); (["price"], greater_than)]).
Proof. vm_compute. reflexivity. Qed.

Example sku_pattern_ex2 : Regex.fullmatch sku_pattern "ABC-1234" = true.
Proof. reflexivity. Qed.

Example sku_pattern_ex4 : Regex.fullmatch sku_pattern "ABCD-123" = false.
Proof. reflexivity. Qed.

Example sku_pattern_ex6 : Regex.fullmatch sku_pattern "ab-123" = false.
Proof. reflexivity. Qed.

Example Decimal_gt_float_ex2 : Decimal_gt_float (mkDecimal false 1 0) 1.0 = false.
Proof. vm_compute. reflexivity. Qed.

Example Decimal_gt_float_ex4 : Decimal_gt_float (mkDecimal false 5 (-1)) 0.25 = true.
Proof. vm_compute. reflexivity. Qed.

Example parse_decimal_ex1 : Parse.decimal "10.99" = Some (mkDecimal false 1099 (-2)).
Proof. vm_compute. reflexivity. Qed.

Example parse_decimal_ex2 : Parse.decimal "-5E-7" = Some (mkDecimal true 5 (-7)).
Proof. vm_compute. reflexivity. Qed.

Example parse_decimal_ex3 : Parse.decimal "0.00123" = Some (mkDecimal false 123 (-5)).
Proof. vm_compute. reflexivity. Qed.

Example parse_decimal_ex4 : Parse.decimal "1.234E+6" = Some (mkDecimal false 1234 3).
Proof. vm_compute. reflexivity. Qed.

Example parse_decimal_ex5 : Parse.decimal "1.5x" = None.
Proof. vm_compute. reflexivity. Qed.

Example parse_datetime_ex1 :
  Parse.iso_datetime "0987-12-31T23:59:59.001500-05:30"
  = Some (mkDatetime (mkDate 987 12 31) (mkTime 23 59 59 1500 (Some (-19800000000)%Z))).
Proof. vm_compute. reflexivity. Qed.

Example parse_datetime_ex2 :
  Parse.iso_datetime "2024-01-02T03:04:05"
  = Some (mkDatetime (mkDate 2024 1 2) (mkTime 3 4 5 0 None)).
Proof. vm_compute. reflexivity. Qed.

(** * Properties *)

(** ** Dictionaries *)

Lemma get_set_eq (d : dict) k v : Dict.get (Dict.set d k v) k = Some v.
Proof.
  induction d as [|[k' v'] d IH]; simpl.
  - by rewrite String.eqb_refl.
  - destruct (String.eqb k' k) eqn:E; simpl; rewrite E; [done | exact IH].
Qed.

Lemma get_set_ne (d : dict) k k' v :
  k <> k' -> Dict.get (Dict.set d k v) k' = Dict.get d k'.
Proof.
  intros Hne. induction d as [|[k0 v0] d IH]; simpl.
  - apply String.eqb_neq in Hne. by rewrite Hne.
  - destruct (String.eqb k0 k) eqn:E; simpl.
    + apply String.eqb_eq in E. subst k0.
      apply String.eqb_neq in Hne. by rewrite Hne.
    + by rewrite IH.
Qed.

Lemma keys_set_in (d : dict) k v :
  In k (Dict.keys d) -> Dict.keys (Dict.set d k v) = Dict.keys d.
Proof.
  induction d as [|[k0 v0] d IH]; simpl; [done|].
  intros [-> | Hin].
  - by rewrite String.eqb_refl.
  - destruct (String.eqb k0 k); simpl; [done | by rewrite IH].
Qed.

Lemma set_fresh (d : dict) k v :
  ~ In k (Dict.keys d) -> Dict.set d k v = d ++ [(k, v)].
Proof.
  induction d as [|[k0 v0] d IH]; simpl; [done|].
  intros Hn. destruct (String.eqb k0 k) eqn:E.
  - apply String.eqb_eq in E. tauto.
  - rewrite IH; [done | tauto].
Qed.

Lemma of_items_app (acc pairs : dict) :
  List.NoDup (Dict.keys (acc ++ pairs)) ->
  fold_left (fun d kv => Dict.set d (fst kv) (snd kv)) pairs acc = acc ++ pairs.
Proof.
  revert acc. induction pairs as [|[k v] pairs IH]; intros acc Hnd; simpl.
  - by rewrite app_nil_r.
  - assert (Hfresh : ~ In k (Dict.keys acc)).
    { unfold Dict.keys in *. rewrite map_app in Hnd. simpl in Hnd.
      apply List.NoDup_remove_2 in Hnd. intros Hin. apply Hnd.
      apply in_or_app. by left. }
    rewrite set_fresh by done.
    rewrite IH; rewrite <- app_assoc; simpl; done.
Qed.

(** [dict(d.items())] is [d], the keys of a dictionary being distinct. *)
Lemma of_items_items (d : dict) :
  List.NoDup (Dict.keys d) -> Dict.of_items (Dict.items d) = d.
Proof. intros Hnd. unfold Dict.of_items, Dict.items. by rewrite of_items_app. Qed.

Lemma get_map_fields {A} (name : A -> string) (value : A -> pyval) (l : list A) a :
  List.NoDup (map name l) -> In a l ->
  Dict.get (map (fun x => (name x, value x)) l) (name a) = Some (value a).
Proof.
  induction l as [|x l IH]; simpl; [done|].
  intros Hnd [-> | Hin].
  - by rewrite String.eqb_refl.
  - inversion Hnd as [|? ? Hx Hnd']; subst.
    destruct (String.eqb (name x) (name a)) eqn:E.
    + apply String.eqb_eq in E. exfalso. apply Hx. rewrite E. by apply in_map.
    + by apply IH.
Qed.

Lemma get_not_key (d : dict) k : ~ In k (Dict.keys d) -> Dict.get d k = None.
Proof.
  induction d as [|[k0 v0] d IH]; simpl; [done|].
  intros Hn. destruct (String.eqb k0 k) eqn:E.
  - apply String.eqb_eq in E. tauto.
  - apply IH. tauto.
Qed.

Lemma get_is_key (d : dict) k v : Dict.get d k = Some v -> In k (Dict.keys d).
Proof.
  induction d as [|[k0 v0] d IH]; simpl; [done|].
  destruct (String.eqb k0 k) eqn:E.
  - apply String.eqb_eq in E. by left.
  - intros H. right. by apply IH.
Qed.

Lemma key_has_value (d : dict) k : In k (Dict.keys d) -> exists v, Dict.get d k = Some v.
Proof.
  induction d as [|[k0 v0] d IH]; simpl; [done|].
  intros Hin. destruct (String.eqb k0 k) eqn:E; [by eexists|].
  destruct Hin as [-> | Hin]; [by rewrite String.eqb_refl in E | by apply IH].
Qed.

(** ** The declarations *)

Lemma field_names_NoDup cls : List.NoDup (field_names cls).
Proof.
  destruct cls; unfold field_names; simpl;
    repeat (constructor; [simpl; intuition discriminate|]); constructor.
Qed.

(** The required columns of a class are fields of the class. *)
Lemma required_columns_declared cls cols name :
  _required_columns cls = Some cols -> In name cols -> In name (field_names cls).
Proof.
  destruct cls; simpl; intros [= <-]; unfold field_names; simpl; intuition.
Qed.

(** The required columns are text fields. *)
Lemma required_columns_are_str cls cols f :
  _required_columns cls = Some cols -> In f (model_fields cls) -> In (f_name f) cols ->
  f_type f = TStr.
Proof.
  destruct cls; simpl; intros [= <-] Hf Hn; simpl in Hn;
    repeat (destruct Hf as [<- | Hf]; [simpl in Hn; intuition discriminate|]);
    destruct Hf.
Qed.

Lemma field_defaults_None cls f : In f (model_fields cls) -> f_default f = VNone.
Proof.
  destruct cls; simpl; intros Hf;
    repeat (destruct Hf as [<- | Hf]; [reflexivity|]); destruct Hf.
Qed.

Lemma in_field_names cls f : In f (model_fields cls) -> In (f_name f) (field_names cls).
Proof. intros Hf. unfold field_names. by apply in_map. Qed.

(** ** Validation of the fields *)

Section FieldFacts.

Context {lax : Coercions}.
Variable nested : model_class -> dict -> validation instance.

Lemma validate_field_None f : validate_field nested f VNone = Valid VNone.
Proof. reflexivity. Qed.

Lemma VNumber_not_None x : VNumber x <> VNone.
Proof. by destruct x. Qed.

(** A validator never turns a value into [None]. *)
Lemma validate_field_not_None f v v' :
  v <> VNone -> validate_field nested f v = Valid v' -> v' <> VNone.
Proof.
  intros Hv. unfold validate_field, fail.
  destruct (f_type f); destruct v; try congruence;
    repeat match goal with
      | |- context [match ?x with _ => _ end] => destruct x eqn:?
      end;
    intros [= <-]; try discriminate; try apply VNumber_not_None.
Qed.

(** A value that breaks a constraint of its field is refused, with the
    error of that constraint. *)
Lemma validate_field_violates f v e :
  violates f v e -> validate_field nested f v = Invalid [([], e)].
Proof.
  unfold violates, validate_field, fail.
  destruct (f_type f); destruct v; simpl; try tauto.
  - intros [-> | [-> ->]]; reflexivity.
  - intros ->. reflexivity.
  - intros ->. reflexivity.
  - intros ->. reflexivity.
Qed.

(** When every field that is given validates, the fields validate: each
    holds its validated value or its default, and the fields recorded as
    set are the ones that were given. *)
Lemma validate_fields_valid fields kwargs :
  (forall f v, In f fields -> Dict.get kwargs (f_name f) = Some v ->
               exists v', validate_field nested f v = Valid v') ->
  validate_fields nested fields kwargs
  = (map (fun f => (f_name f, field_value nested kwargs f)) fields,
     list_to_set (given kwargs (map f_name fields)), []).
Proof.
  induction fields as [|f fields IH]; intros Hall; [reflexivity|].
  simpl. rewrite IH by (intros; eapply Hall; [by right | done]).
  destruct (Dict.get kwargs (f_name f)) as [v|] eqn:E.
  - destruct (Hall f v) as [v' Hv']; [by left | done |].
    rewrite Hv'.
    assert (field_value nested kwargs f = v') as ->
      by (unfold field_value; by rewrite E, Hv').
    unfold given. rewrite filter_cons_True by (by rewrite E). reflexivity.
  - assert (field_value nested kwargs f = f_default f) as ->
      by (unfold field_value; by rewrite E).
    unfold given. rewrite filter_cons_False by (rewrite E; by intros [? ?]).
    reflexivity.
Qed.

(** The errors of a field that fails are in the error of the model, under
    the name of the field. *)
Lemma validate_fields_error fields kwargs f v es e :
  In f fields -> Dict.get kwargs (f_name f) = Some v ->
  validate_field nested f v = Invalid es -> In e es ->
  In (f_name f :: fst e, snd e) (snd (validate_fields nested fields kwargs)).
Proof.
  intros Hf Hget Hval He. induction fields as [|f0 fields IH]; [done|].
  simpl. destruct (validate_fields nested fields kwargs) as [[vals fs] errs] eqn:E.
  destruct Hf as [-> | Hf].
  - rewrite Hget, Hval. simpl. apply in_or_app. left.
    by apply (in_map (fun e => (f_name f :: fst e, snd e))).
  - specialize (IH Hf). simpl in IH.
    destruct (Dict.get kwargs (f_name f0)) as [v0|]; [|done].
    destruct (validate_field nested f0 v0); [done|].
    simpl. apply in_or_app. by right.
Qed.

Hypothesis nested_nonempty : forall c d es, nested c d = Invalid es -> es <> [].

Lemma validate_field_nonempty f v es :
  validate_field nested f v = Invalid es -> es <> [].
Proof.
  unfold validate_field, fail.
  destruct v; try discriminate; destruct (f_type f);
    repeat match goal with
      | |- context [match ?x with _ => _ end] => destruct x eqn:?
      end;
    try discriminate; intros [= <-]; try discriminate; eauto.
Qed.

(** When the fields validate without error, every field that is given
    validated. *)
Lemma validate_fields_nil_inv fields kwargs vals fs :
  validate_fields nested fields kwargs = (vals, fs, []) ->
  forall f v, In f fields -> Dict.get kwargs (f_name f) = Some v ->
              exists v', validate_field nested f v = Valid v'.
Proof.
  revert vals fs. induction fields as [|f0 fields IH]; intros vals fs Hvf f v Hf Hget; [done|].
  simpl in Hvf.
  destruct (validate_fields nested fields kwargs) as [[vals0 fs0] errs0] eqn:E.
  assert (errs0 = []) as ->.
  { destruct (Dict.get kwargs (f_name f0)) as [v0|]; [|congruence].
    destruct (validate_field nested f0 v0); [congruence|].
    injection Hvf as _ _ Happ. by apply app_eq_nil in Happ as [_ ?]. }
  destruct Hf as [-> | Hf]; [|by eapply IH].
  rewrite Hget in Hvf.
  destruct (validate_field nested f v) as [v'|es] eqn:Hv; [by eexists|].
  injection Hvf as _ _ Happ. apply app_eq_nil in Happ as [Hes _].
  apply map_eq_nil in Hes. by apply validate_field_nonempty in Hv.
Qed.

End FieldFacts.

(** ** The required-column check *)

Lemma filter_nil_iff {A} (p : A -> bool) (l : list A) :
  List.filter p l = [] <-> forall x, In x l -> p x = false.
Proof.
  induction l as [|a l IH]; simpl; [tauto|].
  destruct (p a) eqn:E; split.
  - discriminate.
  - intros H. specialize (H a (or_introl eq_refl)). congruence.
  - intros H x [-> | Hx]; [done | by apply IH].
  - intros H. apply IH. intros x Hx. apply H. by right.
Qed.

Lemma validate_required_columns_Ok self :
  (forall cols name, _required_columns (i_class self) = Some cols -> In name cols ->
                     is_None (getattr self name) = false) ->
  validate_required_columns self = Ok self.
Proof.
  intros H. unfold validate_required_columns.
  destruct (_required_columns (i_class self)) as [cols|] eqn:E; [|done].
  assert (List.filter (fun f => is_None (getattr self f)) cols = []) as ->; [|done].
  apply filter_nil_iff. intros. by eapply H.
Qed.


Lemma validate_required_columns_inv self self' :
  validate_required_columns self = Ok self' ->
  self' = self
  /\ forall cols name, _required_columns (i_class self) = Some cols -> In name cols ->
                       is_None (getattr self name) = false.
Proof.
  unfold validate_required_columns.
  destruct (_required_columns (i_class self)) as [cols|] eqn:E.
  - destruct (List.filter _ cols) eqn:F; [|discriminate].
    intros [= <-]. split; [done|]. intros cols' name [= <-] Hin.
    by apply (proj1 (filter_nil_iff _ _) F).
  - intros [= <-]. split; [done|]. discriminate.
Qed.

(** The check raises nothing but its [ValueError]. *)
Lemma validate_required_columns_raises self e :
  validate_required_columns self = Raise e ->
  exists cols, _required_columns (i_class self) = Some cols
    /\ missing_columns self cols <> []
    /\ e = ValueError (Required_columns_cannot_be_None (missing_columns self cols)).
Proof.
  unfold validate_required_columns, missing_columns.
  destruct (_required_columns (i_class self)) as [cols|]; [|discriminate].
  destruct (List.filter _ cols) eqn:F; [discriminate|].
  intros [= <-]. exists cols. by rewrite F.
Qed.

(** ** Construction *)

Section ModelFacts.

Context {lax : Coercions}.

Lemma validate_model_nonempty depth cls kwargs es :
  validate_model depth cls kwargs = Invalid es -> es <> [].
Proof.
  revert cls kwargs es. induction depth as [|depth IH]; intros cls kwargs es; simpl.
  - unfold fail. by intros [= <-].
  - destruct (validate_fields _ _ _) as [[vals fs] errs].
    destruct errs as [|e errs]; [|by intros [= <-]].
    destruct (validate_required_columns _) as [self|e] eqn:E; simpl; [discriminate|].
    apply validate_required_columns_raises in E as (cols & _ & _ & ->).
    unfold fail. by intros [= <-].
Qed.

Lemma validate_model_S depth cls kwargs :
  validate_model (S depth) cls kwargs
  = let '(values, fields_set, errors) :=
      validate_fields (validate_model depth) (model_fields cls) kwargs in
    match errors with
    | [] => after_validator (validate_required_columns (mkInstance cls values fields_set))
    | _ => Invalid errors
    end.
Proof. reflexivity. Qed.

Lemma construct_fields_validate cls kwargs :
  fields_validate cls kwargs ->
  construct cls kwargs
  = match validate_required_columns (built cls kwargs) with
    | Ok self => Ok self
    | Raise (ValueError m) => Raise (ValidationError cls [([], value_error m)])
    | Raise _ => Raise (ValidationError cls [])
    end.
Proof.
  intros Hall. unfold construct, nesting_depth. rewrite validate_model_S.
  rewrite validate_fields_valid by exact Hall.
  fold (field_names cls). fold (built cls kwargs).
  destruct (validate_required_columns (built cls kwargs)) as [self|[]]; reflexivity.
Qed.

Lemma construct_Ok_inv cls kwargs self :
  construct cls kwargs = Ok self ->
  fields_validate cls kwargs /\ self = built cls kwargs
  /\ validate_required_columns (built cls kwargs) = Ok (built cls kwargs).
Proof.
  intros Hc.
  assert (Hall : fields_validate cls kwargs).
  { unfold construct, nesting_depth in Hc. rewrite validate_model_S in Hc.
    destruct (validate_fields _ _ _) as [[vals fs] errs] eqn:E.
    destruct errs as [|e errs]; [|discriminate].
    intros f v Hf Hget.
    eapply (validate_fields_nil_inv (validate_model 1)); eauto.
    intros c d es. apply validate_model_nonempty. }
  split; [done|]. rewrite construct_fields_validate in Hc by done.
  destruct (validate_required_columns (built cls kwargs)) as [s|e] eqn:E.
  - apply validate_required_columns_inv in E as E'. destruct E' as [-> _].
    injection Hc as <-. done.
  - by destruct e.
Qed.

(** Construction raises nothing but [ValidationError]. *)
Lemma construct_raises cls kwargs e :
  construct cls kwargs = Raise e -> exists errors, e = ValidationError cls errors.
Proof.
  unfold construct. destruct (validate_model _ _ _); [discriminate|].
  intros [= <-]. by eexists.
Qed.

Lemma built_getattr cls kwargs f :
  In f (model_fields cls) ->
  getattr (built cls kwargs) (f_name f) = Some (field_value (validate_model 1) kwargs f).
Proof.
  intros Hf. unfold getattr, built. simpl.
  apply (get_map_fields f_name); [apply field_names_NoDup | done].
Qed.

Lemma built_keys cls kwargs : Dict.keys (i_dict (built cls kwargs)) = field_names cls.
Proof.
  unfold built, Dict.keys, field_names. simpl. rewrite map_map. reflexivity.
Qed.

Lemma in_field_names_inv cls name :
  In name (field_names cls) -> exists f, In f (model_fields cls) /\ f_name f = name.
Proof.
  unfold field_names. intros H. apply in_map_iff in H as (f & <- & Hf). eauto.
Qed.

(** A field is [None] after validation exactly when it was left null. *)
Lemma field_value_None cls kwargs f :
  In f (model_fields cls) -> fields_validate cls kwargs ->
  (field_value (validate_model 1) kwargs f = VNone <-> left_null kwargs (f_name f) = true).
Proof.
  intros Hf Hall. unfold field_value, left_null.
  destruct (Dict.get kwargs (f_name f)) as [v|] eqn:E.
  - destruct (Hall f v Hf E) as [v' Hv']. rewrite Hv'.
    assert (v = VNone \/ v <> VNone) as [-> | Hne]
      by (destruct v; (by left) || (by right)).
    + simpl in Hv'. injection Hv' as <-. done.
    + pose proof (validate_field_not_None _ _ _ _ Hne Hv').
      split; [done|]. by destruct v.
  - split; [done|]. intros _. by eapply field_defaults_None.
Qed.

End ModelFacts.

(** ** Dump *)

Lemma filter_all {A} (P : A -> Prop) `{!forall x, Decision (P x)} (l : list A) :
  (forall x, x ∈ l -> P x) -> filter P l = l.
Proof.
  induction l as [|a l IH]; intros Hall; [done|].
  rewrite filter_cons_True by (apply Hall; by left).
  f_equal. apply IH. intros x Hx. apply Hall. by right.
Qed.

Lemma filter_iff_in {A} (P Q : A -> Prop)
    `{!forall x, Decision (P x)} `{!forall x, Decision (Q x)} (l : list A) :
  (forall x, x ∈ l -> (P x <-> Q x)) -> filter P l = filter Q l.
Proof.
  induction l as [|a l IH]; intros Hall; [done|].
  assert (Ha : P a <-> Q a) by (apply Hall; by left).
  assert (Hl : filter P l = filter Q l) by (apply IH; intros x Hx; apply Hall; by right).
  destruct (decide (P a)) as [HP | HP].
  - rewrite !filter_cons_True by tauto. by f_equal.
  - rewrite !filter_cons_False by tauto. done.
Qed.

Lemma keys_map_values (g : pyval -> pyval) (d : dict) :
  Dict.keys (map (fun kv => (fst kv, g (snd kv))) d) = Dict.keys d.
Proof. unfold Dict.keys. rewrite map_map. reflexivity. Qed.

Lemma keys_filter (P : string -> Prop) `{!forall x, Decision (P x)} (d : dict) :
  Dict.keys (filter (fun kv : string * pyval => P (fst kv)) d) = filter P (Dict.keys d).
Proof.
  induction d as [|[k v] d IH]; [done|]. simpl.
  destruct (decide (P k)) as [HP | HP].
  - rewrite !filter_cons_True by done. simpl. by f_equal.
  - rewrite !filter_cons_False by done. done.
Qed.

Lemma dump_filter self :
  dump self
  = map (fun kv => (fst kv, serialize_field (snd kv)))
      (filter (fun kv : string * pyval => fst kv ∉ exclude_set self) (i_dict self)).
Proof.
  unfold dump, model_dump. fold (exclude_set self).
  destruct (decide (exclude_set self = ∅)) as [E | E]; [|done].
  rewrite E. f_equal. symmetry. apply filter_all. intros x _. set_solver.
Qed.

(** The keys of [dump] are the fields recorded as set, in the order of
    declaration. *)
Lemma dump_keys self :
  Dict.keys (i_dict self) = field_names (i_class self) ->
  Dict.keys (dump self)
  = filter (fun n => n ∈ i_fields_set self) (field_names (i_class self)).
Proof.
  intros Hk. rewrite dump_filter, keys_map_values.
  pose proof (keys_filter (fun k => k ∉ exclude_set self) (i_dict self)) as Hkf.
  simpl in Hkf. rewrite Hkf, Hk. clear Hkf.
  apply filter_iff_in. intros n Hn. unfold exclude_set.
  rewrite elem_of_list_to_set, list_elem_of_filter.
  split.
  - intros H. destruct (decide (n ∈ i_fields_set self)); [done|]. exfalso. by apply H.
  - intros H [Hnot _]. done.
Qed.

(** ** Assignment *)

Lemma setattr_field self name value :
  In name (field_names (i_class self)) ->
  setattr self name value
  = Ok (mkInstance (i_class self) (Dict.set (i_dict self) name value)
          ({[name]} ∪ i_fields_set self)).
Proof.
  intros Hin. unfold setattr. rewrite bool_decide_eq_true_2; [done|].
  by apply list_elem_of_In.
Qed.

Lemma assign_all_fields self assignments :
  Dict.keys (i_dict self) = field_names (i_class self) ->
  (forall name value, In (name, value) assignments -> In name (field_names (i_class self))) ->
  exists self', assign_all self assignments = Ok self'
    /\ i_class self' = i_class self
    /\ Dict.keys (i_dict self') = field_names (i_class self)
    /\ forall n, n ∈ i_fields_set self' <-> n ∈ map fst assignments \/ n ∈ i_fields_set self.
Proof.
  revert self. induction assignments as [|[name value] rest IH]; intros self Hk Hall.
  - exists self. simpl. repeat split; try done.
    + by right.
    + intros [H | H]; [by apply elem_of_nil in H | done].
  - simpl. rewrite setattr_field by (eapply Hall; by left). simpl.
    edestruct (IH (mkInstance (i_class self) (Dict.set (i_dict self) name value)
                     ({[name]} ∪ i_fields_set self))) as (self' & Ha & Hc & Hk' & Hfs).
    + simpl. rewrite keys_set_in; [done|]. rewrite Hk. eapply Hall. by left.
    + simpl. intros n v Hin. eapply Hall. by right.
    + exists self'. simpl in *. split; [done|]. split; [done|]. split; [done|].
      intros n. rewrite Hfs, elem_of_union, elem_of_singleton, elem_of_cons. tauto.
Qed.

(** ** Classes that hold no model *)

(** The models that are held by a field hold only integers and text. *)
Lemma nested_fields_plain cls f c f' :
  In f (model_fields cls) -> f_type f = TModel c -> In f' (model_fields c) ->
  f_type f' = TInt \/ f_type f' = TStr.
Proof.
  intros Hf Ht Hf'. destruct cls; simpl in Hf;
    repeat (destruct Hf as [<- | Hf]; [simpl in Ht; try discriminate Ht|]);
    try destruct Hf.
  injection Ht as <-. simpl in Hf'.
  repeat (destruct Hf' as [<- | Hf']; [simpl; tauto|]). destruct Hf'.
Qed.

Section Plain.

Context {lax : Coercions}.

(** A field that holds no model does not call the nested validator. *)
Lemma validate_field_plain nested1 nested2 f v :
  f_type f = TInt \/ f_type f = TStr ->
  validate_field nested1 f v = validate_field nested2 f v.
Proof.
  intros [Ht | Ht]; unfold validate_field; rewrite Ht; reflexivity.
Qed.

Lemma validate_fields_plain nested1 nested2 fields kwargs :
  (forall f, In f fields -> f_type f = TInt \/ f_type f = TStr) ->
  validate_fields nested1 fields kwargs = validate_fields nested2 fields kwargs.
Proof.
  induction fields as [|f fields IH]; intros Hplain; [reflexivity|].
  simpl. rewrite IH by (intros; apply Hplain; by right).
  destruct (validate_fields nested2 fields kwargs) as [[vals fs] errs].
  destruct (Dict.get kwargs (f_name f)) as [v|]; [|reflexivity].
  by rewrite (validate_field_plain nested1 nested2 f) by (apply Hplain; by left).
Qed.

(** For such a class the bound on the nesting does not matter. *)
Lemma construct_plain c kwargs self :
  (forall f, In f (model_fields c) -> f_type f = TInt \/ f_type f = TStr) ->
  construct c kwargs = Ok self <-> validate_model 1 c kwargs = Valid self.
Proof.
  intros Hplain. unfold construct, nesting_depth. rewrite !validate_model_S.
  rewrite (validate_fields_plain (validate_model 1) (validate_model 0)) by done.
  destruct (validate_fields _ _ _) as [[vals fs] errs].
  destruct errs; [|split; discriminate].
  destruct (after_validator _); split; congruence.
Qed.

End Plain.

(** ** Valid keyword arguments *)

Section ValidArguments.

Context {lax : Coercions}.

Lemma satisfies_validates cls f v :
  In f (model_fields cls) -> satisfies f v ->
  exists v', validate_field (validate_model 1) f v = Valid v'.
Proof.
  intros Hf. unfold satisfies, validate_field.
  destruct v; destruct (f_type f) eqn:Ht; cbn -[validate_model]; intros Hs;
    try (exfalso; exact Hs); try (by eexists).
  - rewrite Hs. by eexists.
  - destruct Hs as [-> ->]. by eexists.
  - rewrite Hs. by eexists.
  - rewrite Hs. by eexists.
  - destruct Hs as [self Hc].
    apply construct_plain in Hc; [|intros f' Hf'; by eapply (nested_fields_plain cls f)].
    rewrite Hc. by eexists.
  - rewrite decide_True by done. by eexists.
Qed.

Lemma valid_kwargs_fields_validate cls kwargs :
  valid_kwargs cls kwargs -> fields_validate cls kwargs.
Proof.
  intros [Hsat _] f v Hf Hget. apply (satisfies_validates cls); [done|]. by eapply Hsat.
Qed.

Lemma left_null_false_is_None cls kwargs name :
  fields_validate cls kwargs -> In name (field_names cls) ->
  left_null kwargs name = false ->
  is_None (getattr (built cls kwargs) name) = false.
Proof.
  intros Hall Hin Hnull. apply in_field_names_inv in Hin as (f & Hf & <-).
  rewrite built_getattr by done.
  destruct (field_value (validate_model 1) kwargs f) eqn:E; try reflexivity.
  apply (field_value_None cls) in E; [congruence | done | done].
Qed.

Lemma left_null_true_is_None cls kwargs name :
  fields_validate cls kwargs -> In name (field_names cls) ->
  left_null kwargs name = true ->
  is_None (getattr (built cls kwargs) name) = true.
Proof.
  intros Hall Hin Hnull. apply in_field_names_inv in Hin as (f & Hf & <-).
  rewrite built_getattr by done.
  apply (field_value_None cls) in Hnull; [|done|done]. by rewrite Hnull.
Qed.

(** Valid keyword arguments construct the instance of their fields. *)
Lemma construct_valid_kwargs cls kwargs :
  valid_kwargs cls kwargs -> construct cls kwargs = Ok (built cls kwargs).
Proof.
  intros Hv. pose proof (valid_kwargs_fields_validate _ _ Hv) as Hall.
  rewrite construct_fields_validate by done.
  rewrite validate_required_columns_Ok; [done|].
  intros cols name Hreq Hin. simpl in Hreq.
  eapply left_null_false_is_None; [done | | by eapply (proj2 Hv)].
  by eapply required_columns_declared.
Qed.

Lemma given_iff_key kwargs n : is_Some (Dict.get kwargs n) <-> n ∈ Dict.keys kwargs.
Proof.
  rewrite list_elem_of_In. split.
  - intros [v Hv]. by eapply get_is_key.
  - intros Hin. apply key_has_value in Hin as [v Hv]. by eexists.
Qed.

Lemma built_dump_keys cls kwargs :
  Dict.keys (dump (built cls kwargs))
  = filter (fun n => n ∈ Dict.keys kwargs) (field_names cls).
Proof.
  rewrite dump_keys by apply built_keys. simpl.
  apply filter_iff_in. intros n Hn.
  rewrite elem_of_list_to_set. unfold given. rewrite list_elem_of_filter.
  rewrite given_iff_key. tauto.
Qed.

End ValidArguments.

(** C1. For every class and keyword arguments in which every value given
    for a field satisfies its declaration and every required field is given
    a value other than [None], construction succeeds, and the keys of
    [dump()] are exactly the fields that were given, in declaration order;
    after any later assignments to fields, they are exactly the fields that
    were given or assigned. Fields left at their default are not dumped. *)
Theorem dump_returns_the_explicitly_set_fields
    {lax : Coercions} (cls : model_class) (kwargs : dict)
    (assignments : list (string * pyval)) :
  valid_kwargs cls kwargs ->
  (forall name value, In (name, value) assignments -> In name (field_names cls)) ->
  exists self self',
    construct cls kwargs = Ok self
    /\ Dict.keys (dump self)
       = filter (fun n => n ∈ Dict.keys kwargs) (field_names cls)
    /\ assign_all self assignments = Ok self'
    /\ Dict.keys (dump self')
       = filter (fun n => n ∈ Dict.keys kwargs \/ n ∈ map fst assignments)
           (field_names cls).
Proof.
  intros Hv Hassign.
  destruct (assign_all_fields (built cls kwargs) assignments)
    as (self' & Ha & Hc & Hk & Hfs); [apply built_keys | exact Hassign |].
  exists (built cls kwargs), self'.
  split; [by apply construct_valid_kwargs|].
  split; [apply built_dump_keys|].
  split; [exact Ha|].
  rewrite dump_keys by (by rewrite Hc). rewrite Hc. simpl.
  apply filter_iff_in. intros n Hn. rewrite Hfs. simpl.
  rewrite elem_of_list_to_set. unfold given. rewrite list_elem_of_filter.
  rewrite given_iff_key. tauto.
Qed.

Ltac valid_kwargs_by_computation :=
  split;
  [ let f := fresh "f" in
    let v := fresh "v" in
    let Hf := fresh "Hf" in
    let Hget := fresh "Hget" in
    intros f v Hf Hget; simpl in Hf;
    repeat (destruct Hf as [<- | Hf];
            [ simpl in Hget; try discriminate Hget;
              injection Hget as <-; vm_compute; repeat split; eauto |]);
    destruct Hf
  | let Hin := fresh "Hin" in
    intros ? ? [= <-] Hin; simpl in Hin;
    repeat (destruct Hin as [<- | Hin]; [reflexivity|]); destruct Hin ].

Lemma a_product_valid : valid_kwargs (lax := json_coercions) Product a_product.
Proof. valid_kwargs_by_computation. Qed.

Lemma dump_returns_the_explicitly_set_fields_witness :
  valid_kwargs (lax := json_coercions) Product a_product
  /\ exists self self',
       construct (lax := json_coercions) Product a_product = Ok self
       /\ Dict.keys (dump self)
          = filter (fun n => n ∈ Dict.keys a_product) (field_names Product)
       /\ assign_all self [("status", VEnum ACTIVE)] = Ok self'
       /\ Dict.keys (dump self')
          = filter (fun n => n ∈ Dict.keys a_product
                             \/ n ∈ map fst [("status", VEnum ACTIVE)])
              (field_names Product).
Proof.
  split; [exact a_product_valid|].
  apply (dump_returns_the_explicitly_set_fields Product a_product
           [("status", VEnum ACTIVE)] a_product_valid).
  intros name value [[= <- <-] | []]. unfold field_names. simpl. tauto.
Defined.

(** ** C2: the required columns *)

Section RequiredColumns.

Context {lax : Coercions}.

Lemma missing_columns_built cls cols kwargs :
  _required_columns cls = Some cols -> fields_validate cls kwargs ->
  missing_columns (built cls kwargs) cols = List.filter (left_null kwargs) cols.
Proof.
  intros Hreq Hall. unfold missing_columns. apply List.filter_ext_in.
  intros name Hin.
  pose proof (required_columns_declared _ _ _ Hreq Hin) as Hfield.
  destruct (left_null kwargs name) eqn:E.
  - by eapply left_null_true_is_None.
  - by eapply left_null_false_is_None.
Qed.

End RequiredColumns.



(** ** Load *)

Section LoadFacts.

Context {lax : Coercions}.

Lemma comprehension_map {A B C} (f : B -> result C) (g : A -> B) (l : list A) :
  comprehension f (map g l) = comprehension (fun a => f (g a)) l.
Proof. induction l as [|a l IH]; simpl; [done | by rewrite IH]. Qed.

(** A comprehension returns a list exactly when its body returns on every
    element; the results are in the order of the elements. *)
Lemma comprehension_Ok {A B} (f : A -> result B) (l : list A) (bs : list B) :
  comprehension f l = Ok bs <-> Forall2 (fun a b => f a = Ok b) l bs.
Proof.
  revert bs. induction l as [|a l IH]; intros bs; simpl.
  - split.
    + intros [= <-]. constructor.
    + intros H. by inversion H.
  - split.
    + destruct (f a) as [b|e] eqn:E; simpl; [|discriminate].
      destruct (comprehension f l) as [bs'|e] eqn:E'; simpl; [|discriminate].
      intros [= <-]. constructor; [done | by apply IH].
    + intros H. inversion H as [|? b ? bs' Hb Hbs]; subst.
      rewrite Hb. simpl. apply IH in Hbs. rewrite Hbs. reflexivity.
Qed.

(** The first element on which the body raises decides the exception. *)
Lemma comprehension_Raise {A B} (f : A -> result B) (before after : list A) a e :
  List.Forall (fun x => exists b, f x = Ok b) before -> f a = Raise e ->
  comprehension f (before ++ a :: after) = Raise e.
Proof.
  intros Hbefore Ha. induction Hbefore as [|x before [b Hb] _ IH]; simpl.
  - by rewrite Ha.
  - by rewrite Hb, IH.
Qed.

Lemma comprehension_fails {A B} (f : A -> result B) (l : list A) a e :
  In a l -> f a = Raise e -> exists a' e', In a' l /\ f a' = Raise e'
                                          /\ comprehension f l = Raise e'.
Proof.
  induction l as [|x l IH]; [done|]. intros Hin Ha. simpl.
  destruct (f x) as [b|e0] eqn:E; simpl.
  - destruct Hin as [-> | Hin]; [congruence|].
    destruct (IH Hin Ha) as (a' & e' & Hin' & Ha' & ->).
    exists a', e'. simpl. auto.
  - exists x, e0. auto.
Qed.

(** [load] on a list of mappings, wrapped in a response or bare. *)
Lemma load_rows cls (rows : list dict) x :
  x = Response (VList (map VDict rows)) \/ x = Data (VList (map VDict rows)) ->
  load cls x
  = match comprehension (construct cls) rows with
    | Ok selfs => Ok (Instances selfs)
    | Raise e => Raise e
    end.
Proof.
  intros [-> | ->]; unfold load; rewrite comprehension_map; simpl;
    by destruct (comprehension _ rows).
Qed.

Lemma load_rows_Ok cls rows x selfs :
  x = Response (VList (map VDict rows)) \/ x = Data (VList (map VDict rows)) ->
  load cls x = Ok (Instances selfs)
  <-> Forall2 (fun row self => construct cls row = Ok self) rows selfs.
Proof.
  intros Hx. rewrite (load_rows cls rows x Hx), <- comprehension_Ok.
  destruct (comprehension (construct cls) rows); split; congruence.
Qed.

Lemma load_rows_result cls rows x r :
  x = Response (VList (map VDict rows)) \/ x = Data (VList (map VDict rows)) ->
  load cls x = Ok r ->
  exists selfs, r = Instances selfs /\ length selfs = length rows.
Proof.
  intros Hx. rewrite (load_rows cls rows x Hx).
  destruct (comprehension (construct cls) rows) as [selfs|] eqn:E; [|discriminate].
  intros [= <-]. exists selfs. split; [done|].
  apply comprehension_Ok in E. symmetry. by eapply Forall2_length.
Qed.

Lemma load_rows_fails cls rows x row e :
  x = Response (VList (map VDict rows)) \/ x = Data (VList (map VDict rows)) ->
  In row rows -> construct cls row = Raise e ->
  exists errors, load cls x = Raise (ValidationError cls errors).
Proof.
  intros Hx Hin Hrow. rewrite (load_rows cls rows x Hx).
  destruct (comprehension_fails _ _ _ _ Hin Hrow) as (row' & e' & _ & Hrow' & ->).
  apply construct_raises in Hrow' as [errors ->]. by eexists.
Qed.

Lemma load_rows_first_failure cls before row after x e :
  x = Response (VList (map VDict (before ++ row :: after)))
  \/ x = Data (VList (map VDict (before ++ row :: after))) ->
  List.Forall (fun r => exists self, construct cls r = Ok self) before ->
  construct cls row = Raise e ->
  load cls x = Raise e.
Proof.
  intros Hx Hbefore Hrow. rewrite (load_rows cls _ x Hx).
  by rewrite (comprehension_Raise _ before after row e).
Qed.

End LoadFacts.

(** C4. [load] on a response whose [data] is a list of [N] row mappings
    returns a list exactly when every row constructs; the list then holds
    the [N] instances of the rows, in the order of the rows. If a row fails
    to construct, the whole load raises a [ValidationError], that of the
    first row that fails, and returns nothing. *)
Theorem load_of_a_response_with_rows
    {lax : Coercions} (cls : model_class) (rows : list dict) :
  let response := Response (VList (map VDict rows)) in
  (forall selfs,
      load cls response = Ok (Instances selfs)
      <-> Forall2 (fun row self => construct cls row = Ok self) rows selfs)
  /\ (forall r, load cls response = Ok r ->
        exists selfs, r = Instances selfs /\ length selfs = length rows)
  /\ (forall row e, In row rows -> construct cls row = Raise e ->
        exists errors, load cls response = Raise (ValidationError cls errors))
  /\ (forall before row after e,
        rows = before ++ row :: after ->
        List.Forall (fun r => exists self, construct cls r = Ok self) before ->
        construct cls row = Raise e ->
        load cls response = Raise e).
Proof.
  intros response. repeat split.
  - by apply load_rows_Ok; left.
  - by apply load_rows_Ok; left.
  - intros r. by apply load_rows_result; left.
  - intros row e. by apply load_rows_fails; left.
  - intros before row after e -> Hbefore Hrow.
    eapply load_rows_first_failure; [by left | done | done].
Qed.

(** C5. [load] on a response whose [data] is a single mapping constructs
    one instance from it and returns that instance, not a list; when the
    construction raises, so does the load. *)
Theorem load_of_a_response_with_one_row
    {lax : Coercions} (cls : model_class) (row : dict) :
  load cls (Response (VDict row))
  = match construct cls row with
    | Ok self => Ok (Instance self)
    | Raise e => Raise e
    end
  /\ (forall self, construct cls row = Ok self ->
        load cls (Response (VDict row)) = Ok (Instance self))
  /\ (forall l, load cls (Response (VDict row)) <> Ok (Instances l)).
Proof.
  assert (Hload : load cls (Response (VDict row))
                  = match construct cls row with
                    | Ok self => Ok (Instance self)
                    | Raise e => Raise e
                    end).
  { unfold load. simpl. by destruct (construct cls row). }
  split; [exact Hload|]. split.
  - intros self Hc. by rewrite Hload, Hc.
  - intros l. rewrite Hload. by destruct (construct cls row).
Qed.

(** C9. [load] also takes a bare list, a value with no [data] attribute:
    on a list of [N] mappings it returns a list exactly when every mapping
    constructs, holding the [N] instances in order; on the empty list it
    returns the empty list, whatever the class and the conversions. *)
Theorem load_of_a_bare_list
    {lax : Coercions} (cls : model_class) (rows : list dict) :
  (forall selfs,
      load cls (Data (VList (map VDict rows))) = Ok (Instances selfs)
      <-> Forall2 (fun row self => construct cls row = Ok self) rows selfs)
  /\ (forall r, load cls (Data (VList (map VDict rows))) = Ok r ->
        exists selfs, r = Instances selfs /\ length selfs = length rows)
  /\ load cls (Data (VList [])) = Ok (Instances []).
Proof.
  repeat split.
  - by apply load_rows_Ok; right.
  - by apply load_rows_Ok; right.
  - intros r. by apply load_rows_result; right.
Qed.

(** ** Iteration *)

Lemma dump_keys_NoDup self :
  List.NoDup (Dict.keys (i_dict self)) -> List.NoDup (Dict.keys (dump self)).
Proof.
  intros Hnd. rewrite dump_filter, keys_map_values.
  pose proof (keys_filter (fun k => k ∉ exclude_set self) (i_dict self)) as Hkf.
  simpl in Hkf. rewrite Hkf.
  apply NoDup_ListNoDup, NoDup_filter, NoDup_ListNoDup, Hnd.
Qed.

(** C8. Iterating an instance yields the items of [dump()], in order, so
    that [dict(instance)] is [instance.dump()] (the keys of the [__dict__]
    of an instance being distinct, as those of any dictionary). *)
Theorem iterating_yields_the_items_of_dump (self : instance) :
  List.NoDup (Dict.keys (i_dict self)) ->
  __iter__ self = Dict.items (dump self)
  /\ Dict.of_items (__iter__ self) = dump self.
Proof.
  intros Hnd. split; [reflexivity|].
  unfold __iter__. apply of_items_items. by apply dump_keys_NoDup.
Qed.

(** ** Values of the dump *)

Lemma get_map_filter (P : string -> Prop) `{!forall x, Decision (P x)}
    (g : pyval -> pyval) (d : dict) n :
  Dict.get (map (fun kv => (fst kv, g (snd kv)))
              (filter (fun kv : string * pyval => P (fst kv)) d)) n
  = if decide (P n) then g <$> Dict.get d n else None.
Proof.
  induction d as [|[k v] d IH]; simpl.
  - by destruct (decide (P n)).
  - destruct (decide (P k)) as [Hk | Hk].
    + rewrite filter_cons_True by done. simpl.
      destruct (String.eqb k n) eqn:E; [|exact IH].
      apply String.eqb_eq in E. subst k. by rewrite decide_True.
    + rewrite filter_cons_False by done.
      destruct (String.eqb k n) eqn:E; [|exact IH].
      apply String.eqb_eq in E. subst k. rewrite IH. by destruct (decide (P n)).
Qed.

(** [dump()[name]]: a field recorded as set is dumped through the field
    serialiser. *)
Lemma dump_get self name :
  In name (field_names (i_class self)) -> name ∈ i_fields_set self ->
  Dict.get (dump self) name = serialize_field <$> getattr self name.
Proof.
  intros Hin Hset. rewrite dump_filter.
  pose proof (get_map_filter (fun k => k ∉ exclude_set self) serialize_field
                (i_dict self) name) as Hg.
  simpl in Hg. rewrite Hg. rewrite decide_True; [reflexivity|].
  unfold exclude_set. rewrite elem_of_list_to_set, list_elem_of_filter. tauto.
Qed.

(** C10. An assignment to a field of an instance is not validated: whatever
    the value, it raises nothing, the field then holds the value as it is,
    and the other fields are untouched. So a [Product] can be given a
    [price] that construction refuses, and a required field can be set to
    [None]. *)
Theorem assignment_is_not_validated {lax : Coercions} :
  (forall self name value,
      In name (field_names (i_class self)) ->
      exists self',
        setattr self name value = Ok self'
        /\ i_class self' = i_class self
        /\ getattr self' name = Some value
        /\ (forall other, other <> name -> getattr self' other = getattr self other))
  /\ (forall self s1 s2,
        construct Product a_product = Ok self ->
        setattr self "price" (VFloat 0.5) = Ok s1 ->
        setattr self "name" VNone = Ok s2 ->
        getattr s1 "price" = Some (VFloat 0.5)
        /\ getattr s2 "name" = Some VNone
        /\ _required_columns (i_class s2) = Some ["name"; "sku"])
  /\ (exists self s1 s2,
        construct Product a_product = Ok self
        /\ setattr self "price" (VFloat 0.5) = Ok s1
        /\ setattr self "name" VNone = Ok s2)
  /\ (exists errors,
        construct Product (Dict.set a_product "price" (VFloat 0.5))
        = Raise (ValidationError Product errors))
  /\ (exists errors,
        construct Product (Dict.set a_product "name" VNone)
        = Raise (ValidationError Product errors)).
Proof.
  assert (Hgen : forall self name value,
             In name (field_names (i_class self)) ->
             exists self',
               setattr self name value = Ok self'
               /\ i_class self' = i_class self
               /\ getattr self' name = Some value
               /\ (forall other, other <> name ->
                                 getattr self' other = getattr self other)).
  { intros self name value Hin. eexists. split; [by apply setattr_field|].
    split; [done|]. unfold getattr. simpl. split; [apply get_set_eq|].
    intros other Hne. apply get_set_ne. congruence. }
  split; [exact Hgen|]. split; [|split; [|split]].
  - intros self s1 s2 Hc H1 H2.
    apply construct_Ok_inv in Hc as (_ & -> & _).
    destruct (Hgen (built Product a_product) "price" (VFloat 0.5))
      as (s1' & H1' & _ & Hp & _); [unfold field_names; simpl; tauto|].
    destruct (Hgen (built Product a_product) "name" VNone)
      as (s2' & H2' & Hcls & Hn & _); [unfold field_names; simpl; tauto|].
    rewrite H1 in H1'. rewrite H2 in H2'.
    injection H1' as <-. injection H2' as <-.
    split; [done|]. split; [done|]. by rewrite Hcls.
  - exists (built Product a_product). do 2 eexists.
    split; [apply construct_valid_kwargs; valid_kwargs_by_computation|].
    split; apply setattr_field; unfold field_names; simpl; tauto.
  - eexists. vm_compute. reflexivity.
  - eexists. vm_compute. reflexivity.
Qed.

Lemma iterating_yields_the_items_of_dump_witness :
  List.NoDup (Dict.keys (i_dict (built (lax := json_coercions) Product a_product)))
  /\ __iter__ (built (lax := json_coercions) Product a_product)
     = [("name", VStr "Test"); ("sku", VStr "AB-123"); ("price", VStr "10.99")]
  /\ Dict.of_items (__iter__ (built (lax := json_coercions) Product a_product))
     = dump (built (lax := json_coercions) Product a_product).
Proof.
  assert (Hnd : List.NoDup
                  (Dict.keys (i_dict (built (lax := json_coercions) Product a_product)))).
  { rewrite built_keys. apply field_names_NoDup. }
  split; [exact Hnd|].
  destruct (iterating_yields_the_items_of_dump _ Hnd) as [Hiter Hdict].
  split; [|exact Hdict].
  rewrite Hiter. vm_compute. reflexivity.
Defined.

(** ** C7: the serialiser table *)



(** ** C6: constraint violations *)

Section Violations.

Context {lax : Coercions}.

(** A field that fails makes the construction fail, with the errors of the
    field in the [ValidationError], under its name. *)
Lemma construct_field_error cls kwargs f v es e :
  In f (model_fields cls) -> Dict.get kwargs (f_name f) = Some v ->
  validate_field (validate_model 1) f v = Invalid es -> In e es ->
  exists errors,
    construct cls kwargs = Raise (ValidationError cls errors)
    /\ In (f_name f :: fst e, snd e) errors.
Proof.
  intros Hf Hget Hval He.
  pose proof (validate_fields_error (validate_model 1) _ _ _ _ _ _ Hf Hget Hval He) as Hin.
  unfold construct, nesting_depth. rewrite validate_model_S.
  destruct (validate_fields _ _ _) as [[vals fs] errs]. simpl in Hin.
  destruct errs as [|e0 errs]; [done|].
  eexists. split; [reflexivity | exact Hin].
Qed.

Lemma construct_violation cls kwargs f v e :
  In f (model_fields cls) -> Dict.get kwargs (f_name f) = Some v ->
  violates f v e ->
  exists errors,
    construct cls kwargs = Raise (ValidationError cls errors)
    /\ In ([f_name f], e) errors.
Proof.
  intros Hf Hget Hv.
  apply (validate_field_violates (validate_model 1)) in Hv.
  by apply (construct_field_error cls kwargs f v [([], e)] ([], e)); [..|left].
Qed.

End Violations.

(** C6. A value of the type of its field that breaks a declared constraint
    (length, pattern, bound) makes the construction fail with a
    [ValidationError] that has a line for that field. In particular a
    [Product] with [sku="AB-12"] fails with a pattern mismatch on [sku],
    and a [Product] with [price=0.5] fails the bound on [price], whatever
    else is given. *)
Theorem constraint_violations_are_rejected {lax : Coercions} :
  (forall cls kwargs f v e,
      In f (model_fields cls) -> Dict.get kwargs (f_name f) = Some v ->
      violates f v e ->
      exists errors,
        construct cls kwargs = Raise (ValidationError cls errors)
        /\ In ([f_name f], e) errors)
  /\ (forall kwargs,
        Dict.get kwargs "sku" = Some (VStr "AB-12") ->
        exists errors,
          construct Product kwargs = Raise (ValidationError Product errors)
          /\ In (["sku"], string_pattern_mismatch) errors)
  /\ (forall kwargs,
        Dict.get kwargs "price" = Some (VFloat 0.5) ->
        exists errors,
          construct Product kwargs = Raise (ValidationError Product errors)
          /\ In (["price"], greater_than) errors)
  /\ construct Product [("name", VStr "Test"); ("sku", VStr "AB-12")]
     = Raise (ValidationError Product [(["sku"], string_pattern_mismatch)])
  /\ construct Product [("name", VStr "Test"); ("sku", VStr "AB-123");
                        ("price", VFloat 0.5)]
     = Raise (ValidationError Product [(["price"], greater_than)]).
Proof.
  split; [intros; by eapply construct_violation|].
  split; [|split; [|split; vm_compute; reflexivity]].
  - intros kwargs Hget.
    apply (construct_violation Product kwargs
             (pattern sku_pattern (max_length 20 (Field "sku" TStr))) (VStr "AB-12")).
    + simpl. tauto.
    + exact Hget.
    + right. split; reflexivity.
  - intros kwargs Hget.
    apply (construct_violation Product kwargs
             (gt 1.0 (Field "price" TDecimalOrFloat)) (VFloat 0.5)).
    + simpl. tauto.
    + exact Hget.
    + reflexivity.
Qed.

(** ** C3: dump, then load *)

Section RoundTrip.

Context {lax : Coercions}.

Lemma validate_model_Valid_inv depth cls kwargs self :
  validate_model (S depth) cls kwargs = Valid self ->
  (forall f v, In f (model_fields cls) -> Dict.get kwargs (f_name f) = Some v ->
               exists v', validate_field (validate_model depth) f v = Valid v')
  /\ self = mkInstance cls
              (map (fun f => (f_name f, field_value (validate_model depth) kwargs f))
                 (model_fields cls))
              (list_to_set (given kwargs (field_names cls)))
  /\ validate_required_columns self = Ok self.
Proof.
  rewrite validate_model_S. intros Hv.
  assert (Hall : forall f v, In f (model_fields cls) ->
                   Dict.get kwargs (f_name f) = Some v ->
                   exists v', validate_field (validate_model depth) f v = Valid v').
  { destruct (validate_fields _ _ _) as [[vals fs] errs] eqn:E.
    destruct errs as [|e errs]; [|discriminate].
    intros f v Hf Hget.
    eapply (validate_fields_nil_inv (validate_model depth)); eauto.
    intros c d es. apply validate_model_nonempty. }
  split; [exact Hall|].
  rewrite validate_fields_valid in Hv by exact Hall. fold (field_names cls) in Hv.
  destruct (validate_required_columns _) as [s|e] eqn:E; simpl in Hv.
  - apply validate_required_columns_inv in E as E'. destruct E' as [-> _].
    injection Hv as <-. done.
  - apply validate_required_columns_raises in E as (? & _ & _ & ->). discriminate.
Qed.

Lemma validate_model_Valid_intro depth cls kwargs :
  (forall f v, In f (model_fields cls) -> Dict.get kwargs (f_name f) = Some v ->
               exists v', validate_field (validate_model depth) f v = Valid v') ->
  let self := mkInstance cls
                (map (fun f => (f_name f, field_value (validate_model depth) kwargs f))
                   (model_fields cls))
                (list_to_set (given kwargs (field_names cls))) in
  validate_required_columns self = Ok self ->
  validate_model (S depth) cls kwargs = Valid self.
Proof.
  intros Hall self Hreq. rewrite validate_model_S.
  rewrite validate_fields_valid by exact Hall. fold (field_names cls). fold self.
  by rewrite Hreq.
Qed.

Lemma validate_model_class depth cls kwargs self :
  validate_model depth cls kwargs = Valid self -> i_class self = cls.
Proof.
  destruct depth as [|depth]; [discriminate|].
  intros H. apply validate_model_Valid_inv in H as (_ & -> & _). reflexivity.
Qed.

(** What a field holds after validation satisfies the declaration, and is
    not a mapping: a mapping given for a nested model has become an
    instance. *)
Lemma validate_field_stored depth f v0 v :
  validate_field (validate_model depth) f v0 = Valid v ->
  satisfies f v /\ (forall d, v <> VDict d).
Proof.
  intros H. unfold validate_field, fail in H.
  destruct v0; [injection H as <-; by split | ..].
  all: destruct (f_type f) eqn:Ht; simpl in H.
  all: repeat match type of H with
         | context [match ?x with _ => _ end] => destruct x eqn:?
         end; try discriminate H; injection H as <-.
  all: try match goal with n : number |- _ => destruct n end.
  all: unfold satisfies; simpl; rewrite Ht; split; try done.
  all: try (split; done).
  all: try (eapply validate_model_class; eassumption).
Qed.

Lemma field_value_stored depth cls kwargs f :
  (forall f v, In f (model_fields cls) -> Dict.get kwargs (f_name f) = Some v ->
               exists v', validate_field (validate_model depth) f v = Valid v') ->
  In f (model_fields cls) ->
  satisfies f (field_value (validate_model depth) kwargs f)
  /\ (forall d, field_value (validate_model depth) kwargs f <> VDict d).
Proof.
  intros Hall Hf. unfold field_value.
  destruct (Dict.get kwargs (f_name f)) as [v|] eqn:E.
  - destruct (Hall f v Hf E) as [v' Hv']. rewrite Hv'.
    by eapply validate_field_stored.
  - rewrite (field_defaults_None cls) by done. by split.
Qed.

Lemma data_of_None v : data_of v = VNone -> v = VNone.
Proof. by destruct v. Qed.

Lemma to_python_model c d fs :
  to_python (VModel c d fs) = VDict (map (fun kv => (fst kv, serialize_field (snd kv))) d).
Proof.
  simpl. f_equal. apply map_ext. intros [k v]. simpl. f_equal.
  unfold serialize_field, serialize_fields. by destruct (_SERIALIZERS v).
Qed.

(** A field that holds no model reads its own dump back, when the parsers
    read the dumped value back. *)
Lemma scalar_field_round_trip nested f v :
  (forall c, f_type f <> TModel c) -> satisfies f v -> reads_back v ->
  validate_field nested f (serialize_field v) = Valid v.
Proof.
  intros Hscalar Hs Hr. unfold satisfies in Hs. unfold validate_field.
  destruct v; try done; destruct (f_type f) eqn:Ht; simpl in *; try done;
    try (by rewrite ?Hr, ?Hs);
    try (by exfalso; eapply Hscalar).
  - destruct Hs as [-> ->]. done.
  - change (serialize_field (VDecimal d)) with (VStr (Decimal_str d)).
    by rewrite Hr, Hs.
  - change (serialize_field (VDatetime d)) with (VStr (Iso.datetime_isoformat d)).
    by rewrite Hr.
Qed.

(** Validation of a dump. The keyword arguments hold the serialised value
    of every field in [given_fields] and nothing for the others, which are
    at their default; each serialised value validates to the data it was
    made from. Then the model validates, to the same data, with the same
    fields recorded as set. *)
Lemma revalidate depth cls (val : FieldInfo -> pyval) (given_fields : gset string)
    (kwargs : dict) :
  (forall f, In f (model_fields cls) ->
     Dict.get kwargs (f_name f)
     = if decide (f_name f ∈ given_fields) then Some (serialize_field (val f)) else None) ->
  (forall f, In f (model_fields cls) -> f_name f ∈ given_fields ->
     exists v', validate_field (validate_model depth) f (serialize_field (val f)) = Valid v'
                /\ data_of v' = data_of (val f)) ->
  (forall f, In f (model_fields cls) -> f_name f ∉ given_fields -> val f = f_default f) ->
  (forall cols f, _required_columns cls = Some cols -> In f (model_fields cls) ->
                  In (f_name f) cols -> val f <> VNone) ->
  exists self',
    validate_model (S depth) cls kwargs = Valid self'
    /\ i_class self' = cls
    /\ i_fields_set self'
       = list_to_set (filter (fun n => n ∈ given_fields) (field_names cls))
    /\ data_of_dict (i_dict self')
       = data_of_dict (map (fun f => (f_name f, val f)) (model_fields cls)).
Proof.
  intros Hget Hval Hdefault Hrequired.
  assert (Hall : forall f v, In f (model_fields cls) ->
                   Dict.get kwargs (f_name f) = Some v ->
                   exists v', validate_field (validate_model depth) f v = Valid v').
  { intros f v Hf Hv. rewrite Hget in Hv by done.
    destruct (decide (f_name f ∈ given_fields)) as [Hin|]; [|discriminate].
    injection Hv as <-. destruct (Hval f Hf Hin) as (v' & Hv' & _). by eexists. }
  assert (Hdata : forall f, In f (model_fields cls) ->
                    data_of (field_value (validate_model depth) kwargs f) = data_of (val f)).
  { intros f Hf. unfold field_value. rewrite Hget by done.
    destruct (decide (f_name f ∈ given_fields)) as [Hin|Hout].
    - destruct (Hval f Hf Hin) as (v' & -> & Hd). exact Hd.
    - by rewrite Hdefault. }
  exists (mkInstance cls
            (map (fun f => (f_name f, field_value (validate_model depth) kwargs f))
               (model_fields cls))
            (list_to_set (given kwargs (field_names cls)))).
  split; [|split; [reflexivity|split]].
  - apply validate_model_Valid_intro; [exact Hall|].
    apply validate_required_columns_Ok. simpl. intros cols name Hreq Hin.
    pose proof (required_columns_declared _ _ _ Hreq Hin) as Hfield.
    apply in_field_names_inv in Hfield as (f & Hf & <-).
    unfold getattr. simpl.
    rewrite (get_map_fields f_name) by (apply field_names_NoDup || done).
    destruct (field_value (validate_model depth) kwargs f) eqn:E; try reflexivity.
    exfalso. apply (Hrequired cols f Hreq Hf Hin).
    apply data_of_None. rewrite <- Hdata by done. by rewrite E.
  - simpl. f_equal. unfold given. apply filter_iff_in. intros n Hn.
    apply list_elem_of_In, in_field_names_inv in Hn as (f & Hf & <-).
    rewrite Hget by done. destruct (decide (f_name f ∈ given_fields)).
    + split; [done | by eexists].
    + split; [by intros [? ?] | done].
  - simpl. unfold data_of_dict. rewrite !map_map. apply map_ext_in.
    intros f Hf. simpl. f_equal. by apply Hdata.
Qed.

Lemma plain_reads_back f v :
  f_type f = TInt \/ f_type f = TStr -> satisfies f v -> reads_back v.
Proof.
  intros [Ht | Ht] Hs; unfold satisfies in Hs; rewrite Ht in Hs; by destruct v.
Qed.

(** An instance whose class holds only integers and text validates again
    from the dictionary of its fields, to the same data. *)
Lemma plain_instance_round_trip c kwargs d fs :
  (forall f, In f (model_fields c) -> f_type f = TInt \/ f_type f = TStr) ->
  validate_model 1 c kwargs = Valid (mkInstance c d fs) ->
  exists self',
    validate_model 1 c (map (fun kv => (fst kv, serialize_field (snd kv))) d) = Valid self'
    /\ i_class self' = c
    /\ data_of_dict (i_dict self') = data_of_dict d.
Proof.
  intros Hplain Hv. apply validate_model_Valid_inv in Hv as (Hall & Hself & Hreq).
  injection Hself as -> ->.
  set (val := field_value (validate_model 0) kwargs) in *.
  destruct (revalidate 0 c val (list_to_set (field_names c))
              (map (fun kv => (fst kv, serialize_field (snd kv)))
                 (map (fun f => (f_name f, val f)) (model_fields c))))
    as (self' & Hv' & Hc & _ & Hd).
  - intros f Hf. rewrite map_map. simpl.
    rewrite (get_map_fields f_name (fun f => serialize_field (val f)))
      by (apply field_names_NoDup || done).
    rewrite decide_True; [done|].
    apply elem_of_list_to_set, list_elem_of_In. by apply in_field_names.
  - intros f Hf _. exists (val f). split; [|done].
    destruct (field_value_stored 0 c kwargs f Hall Hf) as [Hs _].
    apply scalar_field_round_trip; [| exact Hs | by eapply plain_reads_back; eauto].
    intros c' Hc'. destruct (Hplain f Hf); congruence.
  - intros f Hf Hout. exfalso. apply Hout.
    apply elem_of_list_to_set, list_elem_of_In. by apply in_field_names.
  - intros cols f Hcols Hf Hin Hnone.
    apply validate_required_columns_inv in Hreq as [_ Hreq].
    specialize (Hreq cols (f_name f) Hcols Hin).
    unfold getattr in Hreq. cbn [i_dict] in Hreq.
    rewrite (get_map_fields f_name) in Hreq by (apply field_names_NoDup || done).
    change (is_None (Some (val f)) = false) in Hreq.
    rewrite Hnone in Hreq. discriminate.
  - exists self'. done.
Qed.

(** A field reads its own dump back, to the same data. *)
Lemma field_round_trip cls f v :
  In f (model_fields cls) -> satisfies f v -> (forall d, v <> VDict d) ->
  reads_back v ->
  (forall c d fs, v = VModel c d fs ->
     exists kwargs, construct c kwargs = Ok (mkInstance c d fs)) ->
  exists v', validate_field (validate_model 1) f (serialize_field v) = Valid v'
             /\ data_of v' = data_of v.
Proof.
  intros Hf Hs Hnd Hr Hnested.
  destruct (f_type f) as [| | | | |c] eqn:Ht.
  1-5: exists v; split; [|done];
       apply scalar_field_round_trip; [congruence | done | done].
  unfold satisfies in Hs. rewrite Ht in Hs.
  destruct v; try done; try (by exists VNone).
  - by destruct (Hnd d).
  - subst c0. destruct (Hnested c d fs eq_refl) as [kwargs Hk].
    assert (Hplain : forall f', In f' (model_fields c) ->
                                f_type f' = TInt \/ f_type f' = TStr)
      by (intros f' Hf'; by eapply (nested_fields_plain cls f c f')).
    apply construct_plain in Hk; [|exact Hplain].
    destruct (plain_instance_round_trip c kwargs d fs) as (self' & Hv' & Hc & Hd);
      [exact Hplain | done |].
    exists (VInstance self'). split.
    + change (serialize_field (VModel c d fs)) with (to_python (VModel c d fs)).
      rewrite to_python_model. unfold validate_field. rewrite Ht. by rewrite Hv'.
    + unfold VInstance. simpl. rewrite Hc. f_equal. exact Hd.
Qed.

Lemma dump_get_field self name :
  In name (field_names (i_class self)) ->
  Dict.get (dump self) name
  = if decide (name ∈ i_fields_set self)
    then serialize_field <$> getattr self name else None.
Proof.
  intros Hin. destruct (decide (name ∈ i_fields_set self)) as [Hset | Hout].
  - by apply dump_get.
  - rewrite dump_filter.
    pose proof (get_map_filter (fun k => k ∉ exclude_set self) serialize_field
                  (i_dict self) name) as Hg.
    simpl in Hg. rewrite Hg. rewrite decide_False; [done|].
    intros Hnot. apply Hnot. unfold exclude_set.
    rewrite elem_of_list_to_set, list_elem_of_filter. split; [done|].
    by apply list_elem_of_In.
Qed.

End RoundTrip.

(** Constructing from the dump of a constructed instance gives the
    instance back: same class, same fields recorded as set, same data. *)
Lemma construct_dump {lax : Coercions} (self : instance) :
  constructed self ->
  (forall name v, getattr self name = Some v -> reads_back v) ->
  exists self',
    construct (i_class self) (dump self) = Ok self'
    /\ i_class self' = i_class self
    /\ i_fields_set self' = i_fields_set self
    /\ data_of_dict (i_dict self') = data_of_dict (i_dict self).
Proof.
  intros [[kwargs Hc] Hnested] Hr.
  remember (i_class self) as cls eqn:Ecls.
  apply construct_Ok_inv in Hc as (Hall & -> & Hreq). clear Ecls.
  set (val := field_value (validate_model 1) kwargs).
  destruct (revalidate 1 cls val (i_fields_set (built cls kwargs))
              (dump (built cls kwargs)))
    as (self' & Hv' & Hcls & Hfs & Hd).
  - intros f Hf. rewrite dump_get_field by (by apply in_field_names).
    by rewrite built_getattr.
  - intros f Hf _.
    destruct (field_value_stored 1 cls kwargs f Hall Hf) as [Hs Hnd].
    apply (field_round_trip cls); [done | done | done | |].
    + apply (Hr (f_name f)). by apply built_getattr.
    + intros c d fs Hm. apply (Hnested (f_name f)).
      rewrite built_getattr by done. by rewrite <- Hm.
  - intros f Hf Hout. unfold val, field_value.
    destruct (Dict.get kwargs (f_name f)) as [v|] eqn:E; [|done].
    exfalso. apply Hout. simpl. apply elem_of_list_to_set. unfold given.
    apply list_elem_of_filter. split; [by rewrite E|].
    by apply list_elem_of_In, in_field_names.
  - intros cols f Hcols Hf Hin Hnone.
    apply validate_required_columns_inv in Hreq as [_ Hreq].
    specialize (Hreq cols (f_name f) Hcols Hin).
    rewrite built_getattr in Hreq by done.
    change (is_None (Some (val f)) = false) in Hreq.
    rewrite Hnone in Hreq. discriminate.
  - exists self'. split; [|split; [done|split]].
    + unfold construct, nesting_depth. by rewrite Hv'.
    + rewrite Hfs. simpl. f_equal. unfold given at 2. apply filter_iff_in.
      intros n Hn. rewrite elem_of_list_to_set. unfold given.
      rewrite list_elem_of_filter. tauto.
    + rewrite Hd. reflexivity.
Qed.


Lemma get_In (d : dict) k v : Dict.get d k = Some v -> In (k, v) d.
Proof.
  induction d as [|[k0 v0] d IH]; simpl; [done|].
  destruct (String.eqb k0 k) eqn:E.
  - apply String.eqb_eq in E. intros [= <-]. left. by rewrite E.
  - intros H. right. by apply IH.
Qed.

Lemma a_full_product_valid :
  valid_kwargs (lax := json_coercions) Product a_full_product.
Proof. valid_kwargs_by_computation. Qed.


Example dump_ex :
  dump (built (lax := json_coercions) Product a_full_product)
  = [("id", VInt 7); ("name", VStr "Test"); ("sku", VStr "AB-123");
     ("price", VStr "10.99"); ("status", VEnum ACTIVE);
     ("created_at", VStr "2024-01-02T03:04:05.001500+02:00");
     ("categories",
      VDict [("id", VInt 1); ("name", VStr "Tools"); ("nickname", VNone)])].
Proof. vm_compute. reflexivity. Qed.

Example round_trip_ex :
  match load (lax := json_coercions) Product
          (Data (VDict (dump (built (lax := json_coercions) Product a_full_product)))) with
  | Ok (Instance self') => Some (data_of_dict (i_dict self'))
  | _ => None
  end
  = Some (data_of_dict (i_dict (built (lax := json_coercions) Product a_full_product))).
Proof. vm_compute. reflexivity. Qed.

(** * The parsers of [json_coercions] read the serialisers back *)

(** ** Text *)

Lemma append_cons x (a b : string) : (String x a ++ b = String x (a ++ b))%string.
Proof. reflexivity. Qed.

Lemma append_empty_l (b : string) : ("" ++ b = b)%string.
Proof. reflexivity. Qed.

Lemma append_assoc (a b c : string) : ((a ++ b) ++ c = a ++ (b ++ c))%string.
Proof.
  induction a as [|x a IH]; [done|]. rewrite !append_cons. by f_equal.
Qed.

Lemma append_empty_r (a : string) : (a ++ "" = a)%string.
Proof. induction a as [|x a IH]; [done|]. rewrite append_cons. by f_equal. Qed.

Lemma length_append (a b : string) :
  String.length (a ++ b) = String.length a + String.length b.
Proof.
  induction a as [|x a IH]; [done|]. rewrite append_cons. simpl. by rewrite IH.
Qed.

Lemma take_append (a b : string) : Text.take (String.length a) (a ++ b) = a.
Proof.
  induction a as [|x a IH]; [by destruct b|]. rewrite append_cons. simpl. by f_equal.
Qed.

Lemma drop_append (a b : string) : Text.drop (String.length a) (a ++ b) = b.
Proof.
  induction a as [|x a IH]; [by destruct b|]. rewrite append_cons. simpl. exact IH.
Qed.

Lemma take_drop (k : nat) (s : string) : (Text.take k s ++ Text.drop k s = s)%string.
Proof.
  revert s. induction k as [|k IH]; intros [|c s]; simpl; try done.
  rewrite append_cons. by f_equal.
Qed.

Lemma length_drop (k : nat) (s : string) :
  String.length (Text.drop k s) = String.length s - k.
Proof. revert s. induction k as [|k IH]; intros [|c s]; simpl; try done. Qed.

Lemma length_replicate_char k c : String.length (Text.replicate_char k c) = k.
Proof. induction k as [|k IH]; simpl; [done | by rewrite IH]. Qed.

Lemma length_fixed_width w n : String.length (Text.fixed_width w n) = w.
Proof.
  revert n. induction w as [|w IH]; intros n; simpl; [done|].
  rewrite length_append, IH. simpl. lia.
Qed.

Lemma all_chars_append p a b :
  Text.all_chars p (a ++ b) = Text.all_chars p a && Text.all_chars p b.
Proof.
  induction a as [|x a IH]; [done|]. rewrite append_cons. simpl.
  by rewrite IH, andb_assoc.
Qed.

Lemma all_chars_impl (p q : ascii -> bool) s :
  (forall c, p c = true -> q c = true) ->
  Text.all_chars p s = true -> Text.all_chars q s = true.
Proof.
  intros Hpq. induction s as [|c s IH]; simpl; [done|].
  rewrite !andb_true_iff. intros [Hc Hs]. auto.
Qed.

Lemma all_chars_take p k s :
  Text.all_chars p s = true -> Text.all_chars p (Text.take k s) = true.
Proof.
  revert s. induction k as [|k IH]; intros [|c s]; simpl; try done.
  rewrite !andb_true_iff. intros [Hc Hs]. auto.
Qed.

Lemma all_chars_drop p k s :
  Text.all_chars p s = true -> Text.all_chars p (Text.drop k s) = true.
Proof.
  revert s. induction k as [|k IH]; intros [|c s]; simpl; try done.
  rewrite !andb_true_iff. intros [Hc Hs]. auto.
Qed.

Lemma all_chars_replicate p k c :
  p c = true -> Text.all_chars p (Text.replicate_char k c) = true.
Proof. intros Hc. induction k as [|k IH]; simpl; [done | by rewrite Hc, IH]. Qed.

(** ** Digits *)

Lemma digit_digit_char d : (d < 10)%N -> Parse.digit (Text.digit_char d) = Some d.
Proof.
  intros Hd. unfold Parse.digit, Text.digit_char.
  rewrite N_ascii_embedding by lia.
  assert ((48 <=? 48 + d)%N = true) as -> by (apply N.leb_le; lia).
  assert ((48 + d <=? 57)%N = true) as -> by (apply N.leb_le; lia).
  simpl. f_equal. lia.
Qed.

Lemma digits_from_append acc a b :
  Parse.digits_from acc (a ++ b)
  = match Parse.digits_from acc a with
    | Some acc' => Parse.digits_from acc' b
    | None => None
    end.
Proof.
  revert acc. induction a as [|c a IH]; intros acc; [done|].
  rewrite append_cons. simpl. destruct (Parse.digit c); [apply IH | done].
Qed.

(** The digits of a fixed width write the number modulo the width. *)
Lemma digits_from_fixed_width w n acc :
  Parse.digits_from acc (Text.fixed_width w n)
  = Some (acc * 10 ^ N.of_nat w + n mod 10 ^ N.of_nat w)%N.
Proof.
  revert n acc. induction w as [|w IH]; intros n acc.
  - simpl. rewrite N.mod_1_r. f_equal. lia.
  - cbn [Text.fixed_width]. rewrite digits_from_append, IH. cbn [Parse.digits_from].
    rewrite digit_digit_char by (apply N.mod_lt; lia).
    f_equal. rewrite Nat2N.inj_succ, N.pow_succ_r'.
    rewrite (N.Div0.mod_mul_r n 10). ring.
Qed.

Lemma is_digit_digit_char d : (d < 10)%N -> Parse.is_digit (Text.digit_char d) = true.
Proof. intros Hd. unfold Parse.is_digit. by rewrite digit_digit_char. Qed.

Lemma all_digits_fixed_width w n :
  Text.all_chars Parse.is_digit (Text.fixed_width w n) = true.
Proof.
  revert n. induction w as [|w IH]; intros n; simpl; [done|].
  rewrite all_chars_append, IH. simpl.
  rewrite is_digit_digit_char by (apply N.mod_lt; lia). done.
Qed.

Lemma strip_zeros_not_empty s : Text.is_empty (Text.strip_zeros s) = false.
Proof.
  induction s as [|c s IH]; simpl; [done|].
  destruct (Ascii.eqb c "0" && negb (Text.is_empty s)); done.
Qed.

Lemma all_digits_strip_zeros s :
  Text.all_chars Parse.is_digit s = true ->
  Text.all_chars Parse.is_digit (Text.strip_zeros s) = true.
Proof.
  induction s as [|c s IH]; simpl; [done|].
  rewrite andb_true_iff. intros [Hc Hs].
  destruct (Ascii.eqb c "0" && negb (Text.is_empty s)); [by apply IH|].
  simpl. by rewrite Hc, Hs.
Qed.

Lemma digits_from_strip_zeros s :
  Parse.digits_from 0 (Text.strip_zeros s) = Parse.digits_from 0 s.
Proof.
  induction s as [|c s IH]; simpl; [done|].
  destruct (Ascii.eqb c "0") eqn:E; simpl; [|done].
  apply Ascii.eqb_eq in E. subst c.
  destruct (Text.is_empty s); simpl; [done | exact IH].
Qed.

Lemma lt_pow10_size n : (n < 10 ^ N.size n)%N.
Proof.
  eapply N.lt_le_trans; [apply N.size_gt|].
  apply N.pow_le_mono_l. lia.
Qed.

(** Reading the digits of a number gives the number. *)
Lemma digits_from_of_N n : Parse.digits_from 0 (Text.of_N n) = Some n.
Proof.
  unfold Text.of_N. rewrite digits_from_strip_zeros, digits_from_fixed_width.
  rewrite N2Nat.id, N.mod_small by apply lt_pow10_size. f_equal.
Qed.

Lemma digits_of_N n : Parse.digits (Text.of_N n) = Some n.
Proof.
  unfold Parse.digits. unfold Text.of_N at 1. rewrite strip_zeros_not_empty.
  apply digits_from_of_N.
Qed.

Lemma all_digits_of_N n : Text.all_chars Parse.is_digit (Text.of_N n) = true.
Proof. apply all_digits_strip_zeros, all_digits_fixed_width. Qed.

Lemma of_N_not_empty n : Text.is_empty (Text.of_N n) = false.
Proof. apply strip_zeros_not_empty. Qed.

(** ** Separators *)

Lemma digit_is_not c x :
  Parse.is_digit c = false -> Parse.is_digit x = true -> is_not c x = true.
Proof.
  intros Hc Hx. unfold is_not. destruct (Ascii.eqb c x) eqn:E; [|done].
  apply Ascii.eqb_eq in E. congruence.
Qed.

Lemma all_digits_is_not c s :
  Parse.is_digit c = false -> Text.all_chars Parse.is_digit s = true ->
  Text.all_chars (is_not c) s = true.
Proof. intros Hc. apply all_chars_impl. intros x. by apply digit_is_not. Qed.

Lemma partition_none c s :
  Text.all_chars (is_not c) s = true -> Parse.partition c s = (s, None).
Proof.
  induction s as [|x s IH]; simpl; [done|].
  rewrite andb_true_iff. intros [Hx Hs]. unfold is_not in Hx.
  destruct (Ascii.eqb c x); [done|]. by rewrite IH.
Qed.

Lemma partition_some c a b :
  Text.all_chars (is_not c) a = true ->
  Parse.partition c (a ++ String c b) = (a, Some b).
Proof.
  induction a as [|x a IH].
  - intros _. rewrite append_empty_l. simpl. by rewrite Ascii.eqb_refl.
  - cbn [Text.all_chars]. rewrite andb_true_iff. intros [Hx Ha]. unfold is_not in Hx.
    rewrite append_cons. cbn [Parse.partition].
    destruct (Ascii.eqb c x); [done|]. by rewrite IH.
Qed.

Lemma expect_none c s r :
  Text.is_empty s = false -> Text.all_chars (is_not c) s = true ->
  Parse.expect c (s ++ r) = None.
Proof.
  destruct s as [|x s]; [done|]. intros _. cbn [Text.all_chars].
  rewrite andb_true_iff. intros [Hx _]. unfold is_not in Hx.
  rewrite append_cons. cbn [Parse.expect]. by destruct (Ascii.eqb c x).
Qed.

Lemma expect_some c r : Parse.expect c (String c r) = Some r.
Proof. simpl. by rewrite Ascii.eqb_refl. Qed.

Lemma digits_from_total s acc :
  Text.all_chars Parse.is_digit s = true ->
  exists n, Parse.digits_from acc s = Some n.
Proof.
  revert acc. induction s as [|c s IH]; intros acc; simpl; [by eexists|].
  rewrite andb_true_iff. intros [Hc Hs]. unfold Parse.is_digit in Hc.
  destruct (Parse.digit c); [by apply IH | done].
Qed.

Lemma digits_from_zeros k s :
  Parse.digits_from 0 (Text.replicate_char k "0" ++ s) = Parse.digits_from 0 s.
Proof.
  induction k as [|k IH]; [done|].
  change (Text.replicate_char (S k) "0")
    with (String "0"%char (Text.replicate_char k "0")).
  rewrite append_cons. exact IH.
Qed.

(** ** Decimal strings *)

Lemma signed_digits_signed z : Parse.signed_digits (Text.signed z) = Some z.
Proof.
  unfold Parse.signed_digits, Text.signed. destruct z as [|p|p].
  - reflexivity.
  - change ("+" ++ Text.of_N (Z.to_N (Z.pos p)))%string
      with (String "+" (Text.of_N (Z.to_N (Z.pos p)))).
    cbn [Parse.expect]. change (Ascii.eqb "-" "+") with false.
    rewrite Ascii.eqb_refl. rewrite digits_of_N. simpl. f_equal.
  - change ("-" ++ Text.of_N (N.pos p))%string with (String "-" (Text.of_N (N.pos p))).
    rewrite expect_some, digits_of_N. reflexivity.
Qed.

(** The parse of a decimal string from its parts: an integer part, a
    fraction when there is one, an exponent when there is one. *)
Lemma decimal_of_parts (sign : bool) (ip fp : string) (fraction : bool) (e : option Z) :
  Text.is_empty ip = false ->
  Text.all_chars Parse.is_digit ip = true ->
  Text.all_chars Parse.is_digit fp = true ->
  (fraction = false -> fp = EmptyString) ->
  Parse.decimal
    ((if sign then "-" else "")
       ++ ip ++ (if fraction then String "." fp else "")
       ++ match e with Some z => String "E" (Text.signed z) | None => "" end)%string
  = c ← Parse.digits_from 0 (ip ++ fp)%string;
    Some (mkDecimal sign c
            (match e with Some z => z | None => 0 end - Z.of_nat (String.length fp))).
Proof.
  intros Hne Hip Hfp Hnofrac.
  set (frac := if fraction then String "." fp else EmptyString).
  set (expo := match e with Some z => String "E" (Text.signed z) | None => EmptyString end).
  assert (Hsign :
    match Parse.expect "-" ((if sign then "-" else "") ++ ip ++ frac ++ expo)%string with
    | Some s' => (true, s')
    | None => (false, ((if sign then "-" else "") ++ ip ++ frac ++ expo)%string)
    end = (sign, (ip ++ frac ++ expo)%string)).
  { destruct sign.
    - change ("-" ++ ip ++ frac ++ expo)%string with (String "-" (ip ++ frac ++ expo)).
      by rewrite expect_some.
    - rewrite append_empty_l. rewrite expect_none; [done | done |].
      by apply all_digits_is_not. }
  assert (Hmantissa : Text.all_chars (is_not "E") (ip ++ frac) = true).
  { rewrite all_chars_append, (all_digits_is_not "E" ip) by done.
    unfold frac. destruct fraction; [|done]. simpl.
    by rewrite (all_digits_is_not "E" fp). }
  assert (HE : Parse.partition "E" (ip ++ frac ++ expo)
               = ((ip ++ frac)%string, option_map Text.signed e)).
  { rewrite <- append_assoc. unfold expo. destruct e as [z|].
    - by rewrite partition_some.
    - rewrite append_empty_r. by rewrite partition_none. }
  assert (Hdot : Parse.partition "." (ip ++ frac)
                 = (ip, if fraction then Some fp else None)).
  { unfold frac. destruct fraction.
    - rewrite partition_some; [done|]. by apply all_digits_is_not.
    - rewrite append_empty_r. rewrite partition_none; [done|].
      by apply all_digits_is_not. }
  unfold Parse.decimal. rewrite Hsign, HE, Hdot.
  assert (Hfrac : match (if fraction then Some fp else None) with
                  | Some fp0 => fp0
                  | None => EmptyString
                  end = fp).
  { destruct fraction; [done|]. symmetry. by apply Hnofrac. }
  rewrite Hfrac.
  destruct (digits_from_total ip 0 Hip) as [n Hn].
  unfold Parse.digits at 1. rewrite Hne, Hn. simpl.
  destruct (Parse.digits_from 0 (ip ++ fp)) as [c|]; [|done]. simpl.
  destruct e as [z|]; simpl; [|done]. by rewrite signed_digits_signed.
Qed.

Lemma is_empty_length s : Text.is_empty s = false -> 1 <= String.length s.
Proof. destruct s; simpl; [done | lia]. Qed.

Lemma take_not_empty k s :
  0 < k -> Text.is_empty s = false -> Text.is_empty (Text.take k s) = false.
Proof. destruct k; [lia|]. by destruct s. Qed.

(** [Decimal(str(d))] is [d]. *)
Lemma decimal_Decimal_str d : Parse.decimal (Decimal_str d) = Some d.
Proof.
  destruct d as [sign n exp]. unfold Decimal_str. cbn [d_sign d_int d_exp]. cbv zeta.
  pose proof (of_N_not_empty n) as Hne.
  pose proof (all_digits_of_N n) as Hdigits.
  pose proof (digits_from_of_N n) as Hn.
  pose proof (is_empty_length _ Hne) as Hlen.
  set (int := Text.of_N n) in *.
  set (len := Z.of_nat (String.length int)) in *.
  assert (Hlen1 : (1 <= len)%Z) by (unfold len; lia).
  destruct ((exp <=? 0)%Z && (-6 <? exp + len)%Z) eqn:C1; cbv iota.
  - apply andb_true_iff in C1 as [C1a C1b].
    apply Z.leb_le in C1a. rewrite Z.eqb_refl.
    destruct (exp + len <=? 0)%Z eqn:C2.
    + apply Z.leb_le in C2.
      etransitivity;
        [apply (decimal_of_parts sign "0"
                  (Text.replicate_char (Z.to_nat (- (exp + len))) "0" ++ int)
                  true None)|]; try done.
      * rewrite all_chars_append, Hdigits, all_chars_replicate; done.
      * change ("0" ++ Text.replicate_char (Z.to_nat (- (exp + len))) "0" ++ int)%string
          with (Text.replicate_char (S (Z.to_nat (- (exp + len)))) "0" ++ int)%string.
        rewrite digits_from_zeros, Hn. simpl. f_equal. f_equal.
        rewrite length_append, length_replicate_char. unfold len. lia.
    + apply Z.leb_gt in C2.
      destruct (len <=? exp + len)%Z eqn:C3.
      * apply Z.leb_le in C3. assert (exp = 0%Z) as -> by lia.
        replace (Z.to_nat (0 + len - len)) with 0 by lia.
        cbn [Text.replicate_char]. rewrite append_empty_r.
        etransitivity; [apply (decimal_of_parts sign int "" false None)|]; try done.
        rewrite append_empty_r, Hn. reflexivity.
      * apply Z.leb_gt in C3.
        etransitivity;
          [apply (decimal_of_parts sign (Text.take (Z.to_nat (exp + len)) int)
                    (Text.drop (Z.to_nat (exp + len)) int) true None)|]; try done.
        -- apply take_not_empty; [lia | done].
        -- by apply all_chars_take.
        -- by apply all_chars_drop.
        -- rewrite take_drop, Hn, length_drop. simpl. f_equal. f_equal.
           unfold len. lia.
  - apply andb_false_iff in C1.
    change (1 <=? 0)%Z with false. cbv iota.
    destruct (len <=? 1)%Z eqn:C3.
    + apply Z.leb_le in C3. assert (Hl : len = 1%Z) by lia. rewrite Hl.
      change (Z.to_nat (1 - 1)) with 0. cbn [Text.replicate_char].
      rewrite append_empty_r.
      destruct (exp + 1 =? 1)%Z eqn:C4.
      * apply Z.eqb_eq in C4. assert (exp = 0%Z) as -> by lia.
        etransitivity; [apply (decimal_of_parts sign int "" false None)|]; try done.
        rewrite append_empty_r, Hn. reflexivity.
      * etransitivity;
          [apply (decimal_of_parts sign int "" false (Some (exp + 1 - 1)%Z))|]; try done.
        rewrite append_empty_r, Hn. simpl. f_equal. f_equal. lia.
    + apply Z.leb_gt in C3.
      destruct (exp + len =? 1)%Z eqn:C4.
      * apply Z.eqb_eq in C4.
        etransitivity;
          [apply (decimal_of_parts sign (Text.take (Z.to_nat 1) int)
                    (Text.drop (Z.to_nat 1) int) true None)|]; try done.
        -- apply take_not_empty; [lia | done].
        -- by apply all_chars_take.
        -- by apply all_chars_drop.
        -- rewrite take_drop, Hn, length_drop. simpl. f_equal. f_equal.
           unfold len in *. lia.
      * apply Z.eqb_neq in C4.
        etransitivity;
          [apply (decimal_of_parts sign (Text.take (Z.to_nat 1) int)
                    (Text.drop (Z.to_nat 1) int) true (Some (exp + len - 1)%Z))|];
          try done.
        -- apply take_not_empty; [lia | done].
        -- by apply all_chars_take.
        -- by apply all_chars_drop.
        -- rewrite take_drop, Hn, length_drop. simpl. f_equal. f_equal.
           unfold len in *. lia.
Qed.

(** ** ISO strings *)

Lemma zfill_small w n : (n < 10 ^ N.of_nat w)%N -> Text.zfill w n = Text.fixed_width w n.
Proof. intros Hn. unfold Text.zfill. apply N.ltb_lt in Hn. by rewrite Hn. Qed.

(** A zero-filled number of [w] digits is read back by [fixed w]. *)
Lemma fixed_zfill w n rest :
  0 < w -> (n < 10 ^ N.of_nat w)%N ->
  Parse.fixed w (Text.zfill w n ++ rest) = Some (n, rest).
Proof.
  intros Hw Hn. rewrite zfill_small by done. unfold Parse.fixed.
  assert ((String.length (Text.fixed_width w n ++ rest) <? w)%nat = false) as ->.
  { apply Nat.ltb_ge. rewrite length_append, length_fixed_width. lia. }
  pose proof (take_append (Text.fixed_width w n) rest) as Htake.
  pose proof (drop_append (Text.fixed_width w n) rest) as Hdrop.
  rewrite length_fixed_width in Htake, Hdrop. rewrite Htake, Hdrop.
  unfold Parse.digits.
  assert (Text.is_empty (Text.fixed_width w n) = false) as ->.
  { pose proof (length_fixed_width w n) as Hl.
    destruct (Text.fixed_width w n); [simpl in Hl; lia | done]. }
  rewrite digits_from_fixed_width, N.mod_small by done. reflexivity.
Qed.

Lemma fixed_zfill_end w n :
  0 < w -> (n < 10 ^ N.of_nat w)%N ->
  Parse.fixed w (Text.zfill w n) = Some (n, EmptyString).
Proof.
  intros Hw Hn. rewrite <- (append_empty_r (Text.zfill w n)). by apply fixed_zfill.
Qed.

Ltac normalise_text :=
  rewrite ?append_assoc; rewrite ?append_cons, ?append_empty_l.

Lemma clock_format_time t rest :
  time_in_range t -> Parse.expect "." rest = None ->
  Parse.clock (Iso.format_time t ++ rest)
  = Some (hour t, minute t, second t, microsecond t, rest).
Proof.
  intros [(Hh & Hm & Hs & Hus) _] Hrest. unfold Iso.format_time. cbv zeta.
  unfold Parse.clock.
  destruct (microsecond t =? 0)%N eqn:E; normalise_text.
  - apply N.eqb_eq in E. rewrite E.
    rewrite fixed_zfill by (simpl; lia). simpl.
    rewrite fixed_zfill by (simpl; lia). simpl.
    rewrite fixed_zfill by (simpl; lia). simpl.
    unfold Parse.fraction. rewrite Hrest. reflexivity.
  - rewrite fixed_zfill by (simpl; lia). simpl.
    rewrite fixed_zfill by (simpl; lia). simpl.
    rewrite fixed_zfill by (simpl; lia). simpl.
    unfold Parse.fraction. rewrite expect_some.
    rewrite fixed_zfill by (simpl; lia). reflexivity.
Qed.

Lemma format_offset_no_dot off : Parse.expect "." (Iso.format_offset off) = None.
Proof.
  destruct off as [o|]; [|done]. unfold Iso.format_offset. cbv zeta.
  destruct (o <? 0)%Z;
    repeat match goal with
      | |- context [if ?b then _ else _] => destruct b
      end;
    normalise_text; reflexivity.
Qed.

Lemma offset_format_offset off :
  match off with
  | Some o => (-86400000000 < o < 86400000000)%Z
  | None => True
  end ->
  Parse.offset (Iso.format_offset off) = Some off.
Proof.
  destruct off as [o|]; [|done]. intros Ho. unfold Iso.format_offset. cbv zeta.
  set (a := Z.to_N (Z.abs o)).
  set (hh := (a / 3600000000)%N). set (r := (a mod 3600000000)%N).
  set (mm := (r / 60000000)%N). set (ss := (r mod 60000000)%N).
  set (sec := (ss / 1000000)%N). set (us := (ss mod 1000000)%N).
  assert (Ha : (a < 86400000000)%N) by (unfold a; lia).
  assert (Hhh : (hh < 24)%N) by (apply N.Div0.div_lt_upper_bound; lia).
  assert (Hr : (r < 3600000000)%N) by (apply N.mod_lt; lia).
  assert (Hmm : (mm < 60)%N) by (apply N.Div0.div_lt_upper_bound; lia).
  assert (Hss : (ss < 60000000)%N) by (apply N.mod_lt; lia).
  assert (Hsec : (sec < 60)%N) by (apply N.Div0.div_lt_upper_bound; lia).
  assert (Hus : (us < 1000000)%N) by (apply N.mod_lt; lia).
  assert (Ea : (a = 3600000000 * hh + r)%N) by apply N.div_mod'.
  assert (Er : (r = 60000000 * mm + ss)%N) by apply N.div_mod'.
  assert (Es : (ss = 1000000 * sec + us)%N) by apply N.div_mod'.
  assert (Hsign :
    forall rest,
      Parse.offset ((if (o <? 0)%Z then "-" else "+") ++ rest)
      = '(h, s) ← Parse.fixed 2 rest;
        s ← Parse.expect ":" s;
        '(m, s) ← Parse.fixed 2 s;
        if Text.is_empty s
        then Some (Some ((if (o <? 0)%Z then -1 else 1)
                         * Z.of_N (h * 3600000000 + m * 60000000))%Z)
        else
          s ← Parse.expect ":" s;
          '(x, s) ← Parse.fixed 2 s;
          '(u, s) ← Parse.fraction s;
          if Text.is_empty s
          then Some (Some ((if (o <? 0)%Z then -1 else 1)
                           * Z.of_N (h * 3600000000 + m * 60000000
                                     + (x * 1000000 + u)))%Z)
          else None).
  { intros rest. destruct (o <? 0)%Z; normalise_text; reflexivity. }
  destruct (ss =? 0)%N eqn:E0.
  - apply N.eqb_eq in E0. normalise_text. rewrite Hsign.
    rewrite fixed_zfill by (simpl; lia). simpl.
    rewrite fixed_zfill_end by (simpl; lia). simpl.
    f_equal. f_equal. destruct (o <? 0)%Z eqn:Eo.
    + apply Z.ltb_lt in Eo. lia.
    + apply Z.ltb_ge in Eo. lia.
  - apply N.eqb_neq in E0.
    destruct (us =? 0)%N eqn:E1.
    + apply N.eqb_eq in E1. normalise_text. rewrite Hsign.
      rewrite fixed_zfill by (simpl; lia). simpl.
      rewrite fixed_zfill by (simpl; lia). simpl.
      rewrite fixed_zfill_end by (simpl; lia). simpl.
      f_equal. f_equal. destruct (o <? 0)%Z eqn:Eo.
      * apply Z.ltb_lt in Eo. lia.
      * apply Z.ltb_ge in Eo. lia.
    + normalise_text. rewrite Hsign.
      rewrite fixed_zfill by (simpl; lia). simpl.
      rewrite fixed_zfill by (simpl; lia). simpl.
      rewrite fixed_zfill by (simpl; lia). simpl.
      unfold Parse.fraction. rewrite expect_some.
      rewrite fixed_zfill_end by (simpl; lia). simpl.
      f_equal. f_equal. destruct (o <? 0)%Z eqn:Eo.
      * apply Z.ltb_lt in Eo. lia.
      * apply Z.ltb_ge in Eo. lia.
Qed.

(** [datetime.fromisoformat(d.isoformat())] is [d]. *)
Lemma iso_datetime_isoformat d :
  datetime_in_range d -> Parse.iso_datetime (Iso.datetime_isoformat d) = Some d.
Proof.
  intros [(Hy & Hm & Hd) Ht]. destruct d as [[y m dd] t]. simpl in *.
  unfold Iso.datetime_isoformat, Iso.date_isoformat. cbn [dt_date dt_time year month day].
  unfold Parse.iso_datetime. normalise_text.
  rewrite fixed_zfill by (simpl; lia). simpl.
  rewrite fixed_zfill by (simpl; lia). simpl.
  rewrite fixed_zfill by (simpl; lia). simpl.
  rewrite clock_format_time by (done || apply format_offset_no_dot). simpl.
  rewrite offset_format_offset by apply Ht. simpl. by destruct t.
Qed.

(** ** The round trip under [json_coercions] *)

Lemma json_reads_back v :
  (forall d, v = VDatetime d -> datetime_in_range d) ->
  reads_back (lax := json_coercions) v.
Proof.
  intros Hrange. destruct v; try done; simpl.
  - by rewrite decimal_Decimal_str.
  - by rewrite iso_datetime_isoformat by (by apply Hrange).
Qed.

(** With the parsers of [json_coercions], every constructed instance whose
    timestamps are in range comes back from the load of its dump. *)
Corollary json_round_trip (self : instance) :
  constructed (lax := json_coercions) self ->
  (forall name d, getattr self name = Some (VDatetime d) -> datetime_in_range d) ->
  exists self',
    load (lax := json_coercions) (i_class self) (Data (VDict (dump self)))
    = Ok (Instance self')
    /\ i_class self' = i_class self
    /\ i_fields_set self' = i_fields_set self
    /\ data_of_dict (i_dict self') = data_of_dict (i_dict self).
Proof.
  intros Hc Hrange.
  destruct (construct_dump (lax := json_coercions) self Hc)
    as (self' & Hc' & Hrest).
  - intros name v Hget. apply json_reads_back. intros d ->. by eapply Hrange.
  - exists self'. split; [|done]. unfold load. cbn [call]. by rewrite Hc'.
Qed.

(** * Further properties of the module *)

(** ** Payloads that cannot be unpacked *)


Section Unpacking.

Context {lax : Coercions}.

Lemma call_not_dict cls v :
  (forall d, v <> VDict d) -> call cls v = Raise TypeError.
Proof. intros Hv. destruct v; try reflexivity. by destruct (Hv d). Qed.

End Unpacking.

(** X1. [load] unpacks its payload into keyword arguments, so a payload
    that is neither a list nor a mapping (a response whose [data] is
    [None], say) raises [TypeError], not [ValidationError]; and so does a
    list whose first entry that does not construct is not a mapping. *)
Theorem load_of_what_cannot_be_unpacked
    {lax : Coercions} (cls : model_class) (v : pyval)
    (before : list dict) (after : list pyval) :
  is_list_or_dict v = false ->
  List.Forall (fun row => exists self, construct cls row = Ok self) before ->
  load cls (Response v) = Raise TypeError
  /\ load cls (Data v) = Raise TypeError
  /\ load cls (Response (VList (map VDict before ++ v :: after))) = Raise TypeError
  /\ load cls (Data (VList (map VDict before ++ v :: after))) = Raise TypeError.
Proof.
  intros Hv Hbefore.
  assert (Hcall : call cls v = Raise TypeError).
  { apply call_not_dict. intros d ->. discriminate. }
  assert (Hlist : comprehension (call cls) (map VDict before ++ v :: after)
                  = Raise TypeError).
  { apply comprehension_Raise; [|exact Hcall].
    apply List.Forall_forall. intros x Hx. apply in_map_iff in Hx as (row & <- & Hrow).
    rewrite List.Forall_forall in Hbefore. apply Hbefore in Hrow as [self Hself].
    exists self. exact Hself. }
  repeat split.
  - unfold load. destruct v; try discriminate; by rewrite ?Hcall.
  - unfold load. destruct v; try discriminate; by rewrite ?Hcall.
  - unfold load. by rewrite Hlist.
  - unfold load. by rewrite Hlist.
Qed.

Lemma load_of_what_cannot_be_unpacked_witness :
  is_list_or_dict VNone = false
  /\ List.Forall (fun row => exists self,
                    construct (lax := json_coercions) Product row = Ok self)
       [a_product]
  /\ load (lax := json_coercions) Product (Response VNone) = Raise TypeError
  /\ load (lax := json_coercions) Product
       (Response (VList [VDict a_product; VNone; VInt 3])) = Raise TypeError.
Proof.
  assert (Hrows : List.Forall (fun row => exists self,
                     construct (lax := json_coercions) Product row = Ok self)
                    [a_product]).
  { constructor; [|constructor]. eexists. apply construct_valid_kwargs, a_product_valid. }
  split; [reflexivity|]. split; [exact Hrows|].
  destruct (load_of_what_cannot_be_unpacked (lax := json_coercions) Product VNone
              [a_product] [VInt 3] eq_refl Hrows) as (H1 & _ & H3 & _).
  split; [exact H1 | exact H3].
Defined.

(** ** What construction reads, and what its errors say *)

Section Reading.

Context {lax : Coercions}.

Lemma validate_fields_ext nested fields (kw1 kw2 : dict) :
  (forall f, In f fields -> Dict.get kw1 (f_name f) = Dict.get kw2 (f_name f)) ->
  validate_fields nested fields kw1 = validate_fields nested fields kw2.
Proof.
  induction fields as [|f rest IH]; intros Hget; [reflexivity|].
  simpl. rewrite IH by (intros g Hg; apply Hget; by right).
  by rewrite (Hget f (or_introl eq_refl)).
Qed.

Lemma validate_model_ext depth cls (kw1 kw2 : dict) :
  (forall name, In name (field_names cls) -> Dict.get kw1 name = Dict.get kw2 name) ->
  validate_model depth cls kw1 = validate_model depth cls kw2.
Proof.
  intros Hget. destruct depth as [|depth]; [reflexivity|].
  rewrite !validate_model_S.
  rewrite (validate_fields_ext _ _ kw1 kw2); [reflexivity|].
  intros f Hf. apply Hget. by apply in_field_names.
Qed.

Lemma construct_ext cls (kw1 kw2 : dict) :
  (forall name, In name (field_names cls) -> Dict.get kw1 name = Dict.get kw2 name) ->
  construct cls kw1 = construct cls kw2.
Proof. intros Hget. unfold construct. by rewrite (validate_model_ext _ _ kw1 kw2). Qed.

Lemma get_app_fresh (d extra : dict) name :
  ~ In name (Dict.keys extra) -> Dict.get (d ++ extra) name = Dict.get d name.
Proof.
  intros Hfresh. induction d as [|[k v] d IH]; simpl.
  - by apply get_not_key.
  - unfold Dict.get in *. simpl. destruct (String.eqb k name); [reflexivity|exact IH].
Qed.

(** Where the lines of the errors of the fields come from. *)
Lemma validate_fields_error_inv nested fields kwargs e :
  In e (snd (validate_fields nested fields kwargs)) ->
  exists f v es e',
    In f fields /\ Dict.get kwargs (f_name f) = Some v
    /\ validate_field nested f v = Invalid es /\ In e' es
    /\ e = (f_name f :: fst e', snd e').
Proof.
  induction fields as [|f rest IH]; simpl; [intros []|].
  destruct (validate_fields nested rest kwargs) as [[values fs] errors] eqn:Hrest.
  simpl in IH.
  assert (Hold : In e errors ->
    exists f0 v es e',
      (f = f0 \/ In f0 rest) /\ Dict.get kwargs (f_name f0) = Some v
      /\ validate_field nested f0 v = Invalid es /\ In e' es
      /\ e = (f_name f0 :: fst e', snd e')).
  { intros He. destruct (IH He) as (f0 & v & es & e' & Hf0 & Hrest').
    exists f0, v, es, e'. split; [by right|exact Hrest']. }
  destruct (Dict.get kwargs (f_name f)) as [v|] eqn:Hget; simpl; [|exact Hold].
  destruct (validate_field nested f v) as [v'|es] eqn:Hv; simpl; [exact Hold|].
  intros He. apply in_app_or in He as [He|He]; [|by apply Hold].
  apply in_map_iff in He as (e' & <- & He').
  exists f, v, es, e'. repeat split; auto.
Qed.

Lemma validate_model_plain depth c kwargs :
  (forall f, In f (model_fields c) -> f_type f = TInt \/ f_type f = TStr) ->
  validate_model (S depth) c kwargs = validate_model 1 c kwargs.
Proof.
  intros Hplain. rewrite !validate_model_S.
  by rewrite (validate_fields_plain (validate_model depth) (validate_model 0) _ _ Hplain).
Qed.

Lemma Category_plain f :
  In f (model_fields Category) -> f_type f = TInt \/ f_type f = TStr.
Proof. simpl. intros [<-|[<-|[<-|[]]]]; simpl; auto. Qed.

Lemma construct_Category d :
  construct Category d
  = match validate_model 1 Category d with
    | Valid self => Ok self
    | Invalid errors => Raise (ValidationError Category errors)
    end.
Proof.
  unfold construct, nesting_depth.
  by rewrite (validate_model_plain 1 Category d Category_plain).
Qed.

End Reading.

(** X2. The constructor reads its keyword arguments only at the names of
    the fields of the class: two sets of arguments that agree there give
    the same instance or the same error. In particular arguments that name
    no field are ignored, not refused and not stored. *)
Theorem construction_reads_only_the_fields
    {lax : Coercions} (cls : model_class) (kwargs kwargs' extra : dict) :
  (forall name, In name (field_names cls) ->
                Dict.get kwargs name = Dict.get kwargs' name) ->
  (forall name, In name (Dict.keys extra) -> ~ In name (field_names cls)) ->
  construct cls kwargs = construct cls kwargs'
  /\ construct cls (kwargs ++ extra) = construct cls kwargs
  /\ (forall self, construct cls (kwargs ++ extra) = Ok self ->
        Dict.keys (i_dict self) = field_names cls
        /\ forall name, In name (Dict.keys (dump self)) -> In name (field_names cls)).
Proof.
  intros Hagree Hextra.
  assert (Happ : construct cls (kwargs ++ extra) = construct cls kwargs).
  { apply construct_ext. intros name Hname. apply get_app_fresh.
    intros Hin. by apply (Hextra name). }
  split; [by apply construct_ext|]. split; [exact Happ|].
  intros self Hself. rewrite Happ in Hself.
  apply construct_Ok_inv in Hself as (_ & -> & _).
  split; [apply built_keys|].
  intros name. rewrite built_dump_keys, <- list_elem_of_In, list_elem_of_filter.
  intros [_ Hname]. by apply list_elem_of_In.
Qed.

Lemma construction_reads_only_the_fields_witness :
  (forall name, In name (field_names Product) ->
     Dict.get a_product name
     = Dict.get [("price", VDecimal (mkDecimal false 1099 (-2)));
                 ("sku", VStr "AB-123"); ("name", VStr "Test")] name)
  /\ (forall name, In name (Dict.keys [("colour", VStr "red")]) ->
        ~ In name (field_names Product))
  /\ construct (lax := json_coercions) Product
       (a_product ++ [("colour", VStr "red")])
     = construct (lax := json_coercions) Product a_product.
Proof.
  assert (H1 : forall name, In name (field_names Product) ->
     Dict.get a_product name
     = Dict.get [("price", VDecimal (mkDecimal false 1099 (-2)));
                 ("sku", VStr "AB-123"); ("name", VStr "Test")] name).
  { intros name Hname. simpl in Hname.
    repeat (destruct Hname as [<-|Hname]; [reflexivity|]). destruct Hname. }
  assert (H2 : forall name, In name (Dict.keys [("colour", VStr "red")]) ->
                            ~ In name (field_names Product)).
  { intros name [<-|[]] Hin. simpl in Hin.
    repeat (destruct Hin as [Hin|Hin]; [discriminate|]). destruct Hin. }
  split; [exact H1|]. split; [exact H2|].
  exact (proj1 (proj2 (construction_reads_only_the_fields (lax := json_coercions)
                         Product a_product _ [("colour", VStr "red")] H1 H2))).
Defined.

(** X3. What the lines of a [ValidationError] say. Every line is either
    under the name of a field that was given a value other than [None]
    which the validator of that field refused, or it is the line of the
    required-columns check, at no location; that line comes alone, and
    only when every field that was given has validated. A field that was
    not given never contributes a line. *)
Theorem validation_error_lines
    {lax : Coercions} (cls : model_class) (kwargs : dict)
    (errors : list error_detail) :
  construct cls kwargs = Raise (ValidationError cls errors) ->
  errors <> []
  /\ forall loc e, In (loc, e) errors ->
       (exists f v es loc',
          In f (model_fields cls)
          /\ Dict.get kwargs (f_name f) = Some v /\ v <> VNone
          /\ validate_field (validate_model 1) f v = Invalid es
          /\ In (loc', e) es
          /\ loc = f_name f :: loc')
       \/ (exists cols,
             _required_columns cls = Some cols
             /\ fields_validate cls kwargs
             /\ List.filter (left_null kwargs) cols <> []
             /\ loc = []
             /\ e = value_error
                      (Required_columns_cannot_be_None
                         (List.filter (left_null kwargs) cols))
             /\ errors = [(loc, e)]).
Proof.
  intros Hraise.
  assert (Hne : errors <> []).
  { unfold construct in Hraise.
    destruct (validate_model nesting_depth cls kwargs) as [self|es] eqn:Hv;
      [discriminate|].
    injection Hraise as <-. by apply validate_model_nonempty in Hv. }
  split; [exact Hne|]. intros loc e Hin.
  pose proof Hraise as Hconstruct.
  unfold construct, nesting_depth in Hraise. rewrite validate_model_S in Hraise.
  destruct (validate_fields (validate_model 1) (model_fields cls) kwargs)
    as [[values fs] ferrors] eqn:Hfields.
  destruct ferrors as [|fe ferrors].
  - right.
    assert (Hfv : fields_validate cls kwargs).
    { intros f v Hf Hget.
      eapply (validate_fields_nil_inv (validate_model 1)); eauto.
      intros c d es. apply validate_model_nonempty. }
    rewrite (construct_fields_validate _ _ Hfv) in Hconstruct.
    destruct (validate_required_columns (built cls kwargs)) as [self|ex] eqn:Hreq;
      [discriminate|].
    apply validate_required_columns_raises in Hreq as (cols & Hcols & Hmiss & ->).
    change (i_class (built cls kwargs)) with cls in Hcols.
    rewrite (missing_columns_built _ _ _ Hcols Hfv) in Hmiss, Hconstruct.
    injection Hconstruct as <-. destruct Hin as [Hin|[]]. injection Hin as <- <-.
    exists cols. repeat split; auto.
  - left. injection Hraise as <-.
    destruct (validate_fields_error_inv (validate_model 1) (model_fields cls) kwargs
                (loc, e)) as (f & v & es & e' & Hf & Hget & Hv & He' & Heq).
    { by rewrite Hfields. }
    injection Heq as -> ->.
    exists f, v, es, (fst e'). repeat split; auto.
    + intros ->. by rewrite validate_field_None in Hv.
    + by destruct e'.
Qed.

Lemma validation_error_lines_witness :
  construct (lax := json_coercions) Product
    [("name", VStr "Test"); ("sku", VStr "AB-12"); ("price", VFloat 0.5)]
  = Raise (ValidationError Product
             [(["sku"], string_pattern_mismatch); (["price"], greater_than)])
  /\ [(["sku"], string_pattern_mismatch); (["price"], greater_than)] <> [].
Proof.
  assert (H : construct (lax := json_coercions) Product
                [("name", VStr "Test"); ("sku", VStr "AB-12"); ("price", VFloat 0.5)]
              = Raise (ValidationError Product
                         [(["sku"], string_pattern_mismatch); (["price"], greater_than)])).
  { vm_compute. reflexivity. }
  split; [exact H|].
  exact (proj1 (validation_error_lines (lax := json_coercions) Product _ _ H)).
Defined.

(** The instance a product holds for a mapping given as its category. *)
Lemma nested_category_instance {lax : Coercions} (kwargs d : dict) (self : instance) :
  Dict.get kwargs "categories" = Some (VDict d) ->
  construct Product kwargs = Ok self ->
  exists c, construct Category d = Ok c
            /\ getattr self "categories" = Some (VInstance c).
Proof.
  intros Hget Hself.
  set (f := Field "categories" (TModel Category)).
  assert (Hf : In f (model_fields Product)) by (simpl; tauto).
  assert (Hfield : validate_field (validate_model 1) f (VDict d)
                   = match validate_model 1 Category d with
                     | Valid c => Valid (VInstance c)
                     | Invalid errors => Invalid errors
                     end) by reflexivity.
  apply construct_Ok_inv in Hself as (Hfv & -> & _).
  destruct (Hfv f (VDict d) Hf Hget) as [v' Hv'].
  rewrite Hfield in Hv'.
  destruct (validate_model 1 Category d) as [c|es] eqn:Hc; [|discriminate].
  exists c. split.
  - rewrite construct_Category. by rewrite Hc.
  - change "categories" with (f_name f). rewrite (built_getattr _ _ _ Hf).
    unfold field_value. change (f_name f) with "categories". rewrite Hget.
    by rewrite Hfield.
Qed.

(** X4. A mapping given for [categories] is validated as [Category] itself
    validates it: when [Category] refuses it, [Product] is refused with
    every line of that error, each under ["categories"]; and a product
    that is constructed holds the very instance [Category] makes of the
    mapping. *)
Theorem a_category_given_as_a_mapping
    {lax : Coercions} (kwargs d : dict) :
  Dict.get kwargs "categories" = Some (VDict d) ->
  (forall errs,
      construct Category d = Raise (ValidationError Category errs) ->
      exists errors,
        construct Product kwargs = Raise (ValidationError Product errors)
        /\ forall loc e, In (loc, e) errs -> In ("categories" :: loc, e) errors)
  /\ (forall self,
        construct Product kwargs = Ok self ->
        exists c, construct Category d = Ok c
                  /\ getattr self "categories" = Some (VInstance c)).
Proof.
  intros Hget.
  set (f := Field "categories" (TModel Category)).
  assert (Hf : In f (model_fields Product)) by (simpl; tauto).
  assert (Hfield : validate_field (validate_model 1) f (VDict d)
                   = match validate_model 1 Category d with
                     | Valid c => Valid (VInstance c)
                     | Invalid errors => Invalid errors
                     end) by reflexivity.
  split.
  - intros errs Hraise. rewrite construct_Category in Hraise.
    destruct (validate_model 1 Category d) as [c|es] eqn:Hc; [discriminate|].
    injection Hraise as ->.
    pose proof (validate_model_nonempty _ _ _ _ Hc) as Hne.
    destruct errs as [|e0 errs0]; [done|].
    destruct (construct_field_error Product kwargs f (VDict d) _ e0 Hf Hget Hfield
                (or_introl eq_refl)) as (errors & Herrors & _).
    exists errors. split; [exact Herrors|].
    intros loc e Hin.
    destruct (construct_field_error Product kwargs f (VDict d) _ (loc, e) Hf Hget Hfield
                Hin) as (errors' & Herrors' & Hin').
    rewrite Herrors in Herrors'. injection Herrors' as <-. exact Hin'.
  - intros self Hself. by apply (nested_category_instance kwargs).
Qed.

Lemma a_category_given_as_a_mapping_witness :
  Dict.get [("name", VStr "Test"); ("sku", VStr "AB-123");
            ("categories", VDict [("nickname", VStr "abc")])] "categories"
  = Some (VDict [("nickname", VStr "abc")])
  /\ construct (lax := json_coercions) Category [("nickname", VStr "abc")]
     = Raise (ValidationError Category [(["nickname"], string_too_short)])
  /\ exists errors,
       construct (lax := json_coercions) Product
         [("name", VStr "Test"); ("sku", VStr "AB-123");
          ("categories", VDict [("nickname", VStr "abc")])]
       = Raise (ValidationError Product errors)
       /\ In (["categories"; "nickname"], string_too_short) errors.
Proof.
  assert (Hc : construct (lax := json_coercions) Category [("nickname", VStr "abc")]
               = Raise (ValidationError Category [(["nickname"], string_too_short)])).
  { vm_compute. reflexivity. }
  split; [reflexivity|]. split; [exact Hc|].
  destruct (proj1 (a_category_given_as_a_mapping (lax := json_coercions)
                     [("name", VStr "Test"); ("sku", VStr "AB-123");
                      ("categories", VDict [("nickname", VStr "abc")])]
                     [("nickname", VStr "abc")] eq_refl) _ Hc)
    as (errors & Herrors & Hin).
  exists errors. split; [exact Herrors|].
  apply (Hin ["nickname"] string_too_short). left. reflexivity.
Defined.

(** ** What [dump] holds *)

Section Dumped.

Context {lax : Coercions}.

(** A value of the exact type of its field that meets the constraints is
    stored as it is. *)
Lemma validate_field_exact nested f v :
  satisfies f v -> (forall d, v <> VDict d) -> validate_field nested f v = Valid v.
Proof.
  intros Hsat Hnd. unfold satisfies in Hsat. unfold validate_field.
  destruct v; try reflexivity; destruct (f_type f) eqn:Ht; try (by destruct Hsat);
    simpl in *;
    try reflexivity;
    try (by rewrite Hsat);
    try (match type of Hsat with _ /\ _ => destruct Hsat as [Hl Hp] end;
         by rewrite Hl, Hp);
    try (by destruct (Hnd d));
    try (subst; by rewrite decide_True).
Qed.

Lemma serialize_field_type v :
  ~ In (type_of (serialize_field v)) SERIALIZERS_keys
  /\ forall c, type_of (serialize_field v) <> T_model c.
Proof.
  destruct v; simpl; (split; [intros H; repeat (destruct H as [H|H]; [discriminate|]);
                              destruct H | intros c'; discriminate]).
Qed.

Lemma In_dump self name v :
  In (name, v) (dump self) ->
  exists v0, In (name, v0) (i_dict self) /\ v = serialize_field v0.
Proof.
  rewrite dump_filter. intros Hin. apply in_map_iff in Hin as ([k v0] & Heq & Hin).
  simpl in Heq. injection Heq as -> <-.
  apply list_elem_of_In, list_elem_of_filter in Hin as [_ Hin].
  exists v0. split; [by apply list_elem_of_In|reflexivity].
Qed.

End Dumped.

(** X5. What [dump] holds for each field of an instance that was
    constructed. A field that was not given is absent. A field that was
    given is present, with the serialised form of the value validation
    stored for it: so a field given explicitly as [None] is dumped as
    [None] (it is not omitted), and a field given a value of its own type
    is dumped as the serialised form of that very value. *)
Theorem dump_of_each_field
    {lax : Coercions} (cls : model_class) (kwargs : dict) (self : instance)
    (f : FieldInfo) :
  construct cls kwargs = Ok self ->
  In f (model_fields cls) ->
  (Dict.get kwargs (f_name f) = None -> Dict.get (dump self) (f_name f) = None)
  /\ (Dict.get kwargs (f_name f) = Some VNone ->
      Dict.get (dump self) (f_name f) = Some VNone)
  /\ (forall v, Dict.get kwargs (f_name f) = Some v ->
        exists v', validate_field (validate_model 1) f v = Valid v'
                   /\ getattr self (f_name f) = Some v'
                   /\ Dict.get (dump self) (f_name f) = Some (serialize_field v'))
  /\ (forall v, Dict.get kwargs (f_name f) = Some v ->
        satisfies f v -> (forall d, v <> VDict d) ->
        Dict.get (dump self) (f_name f) = Some (serialize_field v)).
Proof.
  intros Hself Hf.
  apply construct_Ok_inv in Hself as (Hfv & -> & _).
  pose proof (in_field_names _ _ Hf) as Hname.
  assert (Hdump : Dict.get (dump (built cls kwargs)) (f_name f)
                  = if decide (f_name f ∈ Dict.keys kwargs)
                    then Some (serialize_field (field_value (validate_model 1) kwargs f))
                    else None).
  { rewrite (dump_get_field (built cls kwargs) _ Hname). simpl i_fields_set.
    rewrite (built_getattr _ _ _ Hf). simpl.
    destruct (decide (f_name f ∈ Dict.keys kwargs)) as [Hk|Hk].
    - rewrite decide_True; [reflexivity|]. apply elem_of_list_to_set.
      unfold given. apply list_elem_of_filter. split; [by apply given_iff_key|].
      by apply list_elem_of_In.
    - rewrite decide_False; [reflexivity|]. rewrite elem_of_list_to_set.
      unfold given. rewrite list_elem_of_filter. intros [Hg _].
      by apply given_iff_key in Hg. }
  assert (Hgiven : forall v, Dict.get kwargs (f_name f) = Some v ->
            exists v', validate_field (validate_model 1) f v = Valid v'
                       /\ getattr (built cls kwargs) (f_name f) = Some v'
                       /\ Dict.get (dump (built cls kwargs)) (f_name f)
                          = Some (serialize_field v')).
  { intros v Hget. destruct (Hfv f v Hf Hget) as [v' Hv']. exists v'.
    assert (Hval : field_value (validate_model 1) kwargs f = v').
    { unfold field_value. by rewrite Hget, Hv'. }
    split; [exact Hv'|]. split.
    - by rewrite (built_getattr _ _ _ Hf), Hval.
    - rewrite Hdump, Hval. rewrite decide_True; [reflexivity|].
      apply given_iff_key. by rewrite Hget. }
  split; [|split; [|split]].
  - intros Hget. rewrite Hdump. rewrite decide_False; [reflexivity|].
    intros Hk. apply given_iff_key in Hk. rewrite Hget in Hk. by destruct Hk.
  - intros Hget. destruct (Hgiven _ Hget) as (v' & Hv' & _ & Hd).
    rewrite validate_field_None in Hv'. injection Hv' as <-. exact Hd.
  - exact Hgiven.
  - intros v Hget Hsat Hnd. destruct (Hgiven _ Hget) as (v' & Hv' & _ & Hd).
    rewrite (validate_field_exact _ _ _ Hsat Hnd) in Hv'. injection Hv' as <-. exact Hd.
Qed.

Lemma dump_of_each_field_witness :
  let kwargs := [("name", VStr "Test"); ("sku", VStr "AB-123"); ("price", VNone)] in
  let self := built (lax := json_coercions) Product kwargs in
  construct (lax := json_coercions) Product kwargs = Ok self
  /\ In (gt 1.0 (Field "price" TDecimalOrFloat)) (model_fields Product)
  /\ Dict.get (dump self) "price" = Some VNone
  /\ dump self = [("name", VStr "Test"); ("sku", VStr "AB-123"); ("price", VNone)].
Proof.
  assert (Hc : construct (lax := json_coercions) Product
                 [("name", VStr "Test"); ("sku", VStr "AB-123"); ("price", VNone)]
               = Ok (built (lax := json_coercions) Product
                       [("name", VStr "Test"); ("sku", VStr "AB-123"); ("price", VNone)])).
  { vm_compute. reflexivity. }
  assert (Hf : In (gt 1.0 (Field "price" TDecimalOrFloat)) (model_fields Product)).
  { simpl. tauto. }
  split; [exact Hc|]. split; [exact Hf|]. split.
  - exact (proj1 (proj2 (dump_of_each_field (lax := json_coercions) Product _ _ _ Hc Hf))
             eq_refl).
  - vm_compute. reflexivity.
Defined.

(** X6. Whatever the instance holds (also after assignments that were not
    validated), no value of [dump] has one of the six types of
    [_SERIALIZERS], and none is a model instance: each value went through
    [serialize_fields], and a nested model became a dictionary. *)
Theorem dump_holds_no_serialised_type (self : instance) :
  List.Forall
    (fun kv => ~ In (type_of (snd kv)) SERIALIZERS_keys
               /\ forall c, type_of (snd kv) <> T_model c)
    (dump self).
Proof.
  apply List.Forall_forall. intros [name v] Hin. simpl.
  destruct (In_dump self name v Hin) as (v0 & _ & ->).
  apply serialize_field_type.
Qed.

Lemma dump_get_any self name :
  Dict.get (dump self) name
  = if decide (name ∉ exclude_set self)
    then serialize_field <$> Dict.get (i_dict self) name else None.
Proof.
  rewrite dump_filter.
  exact (get_map_filter (fun n => n ∉ exclude_set self) serialize_field (i_dict self) name).
Qed.

Lemma get_map_values (g : pyval -> pyval) (d : dict) n :
  Dict.get (map (fun kv => (fst kv, g (snd kv))) d) n = g <$> Dict.get d n.
Proof.
  induction d as [|[k v] d IH]; [reflexivity|].
  simpl. destruct (String.eqb k n); [reflexivity|exact IH].
Qed.

Lemma elem_of_exclude_set self name :
  name ∈ exclude_set self
  <-> (name ∉ i_fields_set self) /\ In name (field_names (i_class self)).
Proof.
  unfold exclude_set. rewrite elem_of_list_to_set, list_elem_of_filter.
  by rewrite list_elem_of_In.
Qed.

(** X7. [dump] leaves out the unset fields of the instance itself only. A
    product constructed with a mapping for [categories] dumps that
    category in full, with every field of [Category], the ones that were
    not given as well (they are [None]); the category's own [dump] has
    only the fields that were given. *)
Theorem a_nested_model_is_dumped_in_full
    {lax : Coercions} (kwargs d : dict) (self : instance) :
  construct Product kwargs = Ok self ->
  Dict.get kwargs "categories" = Some (VDict d) ->
  exists c,
    construct Category d = Ok c
    /\ Dict.get (dump self) "categories" = Some (VDict (model_dump c None))
    /\ Dict.keys (model_dump c None) = field_names Category
    /\ Dict.keys (dump c) = filter (fun n => n ∈ Dict.keys d) (field_names Category)
    /\ forall name, In name (field_names Category) -> ~ In name (Dict.keys d) ->
         Dict.get (model_dump c None) name = Some VNone
         /\ Dict.get (dump c) name = None.
Proof.
  intros Hself Hget.
  destruct (nested_category_instance kwargs d self Hget Hself) as (c & Hc & Hattr).
  exists c. split; [exact Hc|].
  assert (Hin : In "categories" (field_names (i_class self))).
  { apply construct_Ok_inv in Hself as (_ & -> & _). simpl. tauto. }
  assert (Hset : "categories" ∈ i_fields_set self).
  { apply construct_Ok_inv in Hself as (_ & -> & _). simpl.
    apply elem_of_list_to_set. unfold given. apply list_elem_of_filter.
    split; [by rewrite Hget|]. apply list_elem_of_In. simpl. tauto. }
  split.
  { rewrite (dump_get_field self _ Hin), decide_True by exact Hset.
    rewrite Hattr.
    assert (Hs : serialize_field (VInstance c)
                 = to_python (VModel (i_class c) (i_dict c) (i_fields_set c)))
      by reflexivity.
    rewrite to_python_model in Hs. simpl. by rewrite Hs. }
  apply construct_Ok_inv in Hc as (Hfv & -> & _).
  split; [|split].
  - unfold model_dump. rewrite keys_map_values. apply built_keys.
  - apply built_dump_keys.
  - intros name Hname Hfresh.
    destruct (in_field_names_inv _ _ Hname) as (f & Hf & <-).
    assert (Hnone : Dict.get d (f_name f) = None) by by apply get_not_key.
    split.
    + unfold model_dump. rewrite get_map_values.
      fold (getattr (built Category d) (f_name f)).
      rewrite (built_getattr _ _ _ Hf). unfold field_value. rewrite Hnone.
      by rewrite (field_defaults_None _ _ Hf).
    + rewrite (dump_get_field (built Category d) (f_name f) Hname).
      rewrite decide_False; [reflexivity|]. simpl.
      rewrite elem_of_list_to_set. unfold given. rewrite list_elem_of_filter.
      intros [Hg _]. rewrite Hnone in Hg. by destruct Hg.
Qed.

Lemma a_nested_model_is_dumped_in_full_witness :
  let self := built (lax := json_coercions) Product a_full_product in
  construct (lax := json_coercions) Product a_full_product = Ok self
  /\ Dict.get a_full_product "categories"
     = Some (VDict [("id", VInt 1); ("name", VStr "Tools")])
  /\ Dict.get (dump self) "categories"
     = Some (VDict [("id", VInt 1); ("name", VStr "Tools"); ("nickname", VNone)])
  /\ exists c,
       construct (lax := json_coercions) Category [("id", VInt 1); ("name", VStr "Tools")]
       = Ok c
       /\ Dict.get (dump self) "categories" = Some (VDict (model_dump c None))
       /\ Dict.keys (dump c) = ["id"; "name"].
Proof.
  assert (Hc : construct (lax := json_coercions) Product a_full_product
               = Ok (built (lax := json_coercions) Product a_full_product)).
  { apply construct_valid_kwargs, a_full_product_valid. }
  split; [exact Hc|]. split; [reflexivity|]. split; [vm_compute; reflexivity|].
  destruct (a_nested_model_is_dumped_in_full (lax := json_coercions)
              a_full_product [("id", VInt 1); ("name", VStr "Tools")] _ Hc eq_refl)
    as (c & Hcat & Hdump & _ & Hkeys & _).
  exists c. split; [exact Hcat|]. split; [exact Hdump|].
  rewrite Hkeys. vm_compute. reflexivity.
Defined.

(** ** Assignments *)

Lemma set_set_same (d : dict) a x y : Dict.set (Dict.set d a x) a y = Dict.set d a y.
Proof.
  induction d as [|[k v] d IH]; simpl.
  - by rewrite String.eqb_refl.
  - destruct (String.eqb k a) eqn:Hk; simpl; rewrite Hk; [reflexivity|by rewrite IH].
Qed.

Lemma set_set_comm (d : dict) a x b y :
  a <> b -> In a (Dict.keys d) ->
  Dict.set (Dict.set d a x) b y = Dict.set (Dict.set d b y) a x.
Proof.
  intros Hab. induction d as [|[k v] d IH]; simpl; [intros []|].
  intros Hin.
  destruct (String.eqb k a) eqn:Hka; destruct (String.eqb k b) eqn:Hkb; simpl;
    rewrite ?Hka, ?Hkb; try reflexivity.
  - apply String.eqb_eq in Hka, Hkb. congruence.
  - f_equal. apply IH. destruct Hin as [Hin|Hin]; [|exact Hin].
    apply String.eqb_neq in Hka. congruence.
Qed.

(** X8. What [dump] holds after [self.<name> = value] for a field: the
    field is present, with the serialised form of the value assigned
    (whatever it is, nothing is validated), and every other entry of the
    dump is what it was. *)
Theorem dump_after_an_assignment (self : instance) (name : string) (value : pyval) :
  In name (field_names (i_class self)) ->
  exists self',
    setattr self name value = Ok self'
    /\ Dict.get (dump self') name = Some (serialize_field value)
    /\ forall other, other <> name ->
         Dict.get (dump self') other = Dict.get (dump self) other.
Proof.
  intros Hname. eexists. split; [by apply setattr_field|]. split.
  - rewrite dump_get_any. simpl i_dict. rewrite get_set_eq.
    rewrite decide_True; [reflexivity|].
    rewrite elem_of_exclude_set. simpl. intros [Hout _]. apply Hout.
    apply elem_of_union_l. by apply elem_of_singleton.
  - intros other Hother. rewrite !dump_get_any. simpl i_dict.
    rewrite get_set_ne by congruence.
    assert (Hiff : other ∉ exclude_set
                     (mkInstance (i_class self) (Dict.set (i_dict self) name value)
                        ({[name]} ∪ i_fields_set self))
                   <-> other ∉ exclude_set self).
    { rewrite !elem_of_exclude_set. simpl.
      rewrite elem_of_union, elem_of_singleton. tauto. }
    destruct (decide (other ∉ exclude_set self)) as [Hin|Hin].
    + rewrite decide_True by (by apply Hiff). reflexivity.
    + rewrite decide_False by (by rewrite Hiff). reflexivity.
Qed.

Lemma dump_after_an_assignment_witness :
  In "price" (field_names (i_class (built (lax := json_coercions) Product a_product)))
  /\ exists self',
       setattr (built (lax := json_coercions) Product a_product) "price" (VFloat 0.5)
       = Ok self'
       /\ Dict.get (dump self') "price" = Some (VFloat 0.5)
       /\ Dict.get (dump self') "sku" = Some (VStr "AB-123").
Proof.
  assert (Hin : In "price"
                  (field_names (i_class (built (lax := json_coercions) Product a_product)))).
  { simpl. tauto. }
  split; [exact Hin|].
  destruct (dump_after_an_assignment _ "price" (VFloat 0.5) Hin)
    as (self' & Hset & Hprice & Hothers).
  exists self'. split; [exact Hset|]. split; [exact Hprice|].
  rewrite (Hothers "sku") by discriminate. vm_compute. reflexivity.
Defined.

(** X9. Assignments to the fields of an instance that has all its fields
    compose as expected: of two assignments to one field the last one
    wins, and assignments to two different fields give the same instance
    in either order (the fields keep their declaration order). *)
Theorem assignments_compose (self : instance) (a b : string) (x y : pyval) :
  Dict.keys (i_dict self) = field_names (i_class self) ->
  In a (field_names (i_class self)) ->
  In b (field_names (i_class self)) ->
  assign_all self [(a, x); (a, y)] = assign_all self [(a, y)]
  /\ (a <> b -> assign_all self [(a, x); (b, y)] = assign_all self [(b, y); (a, x)])
  /\ exists self', assign_all self [(a, x); (b, y)] = Ok self'
                   /\ Dict.keys (i_dict self') = Dict.keys (i_dict self).
Proof.
  intros Hkeys Ha Hb. simpl.
  rewrite !(setattr_field self) by assumption. simpl.
  rewrite !setattr_field by assumption. simpl.
  split; [|split].
  - rewrite set_set_same. do 2 f_equal.
    by rewrite (assoc_L (∪)), (idemp_L (∪)).
  - intros Hab. rewrite (set_set_comm _ a x b y Hab) by by rewrite Hkeys.
    do 2 f_equal.
    by rewrite !(assoc_L (∪)), (comm_L (∪) {[b]} {[a]}).
  - eexists. split; [reflexivity|]. simpl.
    rewrite !keys_set_in; [reflexivity| by rewrite Hkeys |].
    rewrite keys_set_in by by rewrite Hkeys. by rewrite Hkeys.
Qed.

Lemma assignments_compose_witness :
  let self := built (lax := json_coercions) Product a_product in
  Dict.keys (i_dict self) = field_names (i_class self)
  /\ In "status" (field_names (i_class self))
  /\ In "id" (field_names (i_class self))
  /\ assign_all self [("status", VEnum DRAFT); ("status", VEnum ACTIVE)]
     = assign_all self [("status", VEnum ACTIVE)]
  /\ assign_all self [("status", VEnum ACTIVE); ("id", VInt 3)]
     = assign_all self [("id", VInt 3); ("status", VEnum ACTIVE)].
Proof.
  assert (Hk : Dict.keys (i_dict (built (lax := json_coercions) Product a_product))
               = field_names (i_class (built (lax := json_coercions) Product a_product))).
  { apply built_keys. }
  assert (Hs : In "status"
                 (field_names (i_class (built (lax := json_coercions) Product a_product)))).
  { simpl. tauto. }
  assert (Hi : In "id"
                 (field_names (i_class (built (lax := json_coercions) Product a_product)))).
  { simpl. tauto. }
  split; [exact Hk|]. split; [exact Hs|]. split; [exact Hi|]. split.
  - exact (proj1 (assignments_compose _ "status" "status" (VEnum DRAFT) (VEnum ACTIVE)
                    Hk Hs Hs)).
  - apply (proj1 (proj2 (assignments_compose _ "status" "id" (VEnum ACTIVE) (VInt 3)
                           Hk Hs Hi))).
    discriminate.
Defined.

(** ** The constraints of the fields *)

Ltac crack H :=
  repeat match type of H with
  | (_ && _) = true =>
      let H1 := fresh "Hc" in
      apply andb_prop in H; destruct H as [H1 H]
  | (_ || _) = true => apply orb_prop in H; destruct H as [H|H]
  | match ?s with EmptyString => _ | String _ _ => _ end = true =>
      destruct s; [try discriminate H|try discriminate H]
  end.

Lemma sku_pattern_shape s : Regex.fullmatch sku_pattern s = true -> sku_shape s.
Proof.
  unfold Regex.fullmatch, sku_pattern, sku_shape. intros H.
  cbn -[Ascii.eqb Regex.in_range] in H.
  crack H;
    match goal with
    | E : Regex.is_empty ?r = true |- _ => destruct r; [clear E|discriminate E]
    end;
    repeat match goal with
           | E : Ascii.eqb _ _ = true |- _ => apply Ascii.eqb_eq in E; subst
           end;
    match goal with
    | |- exists l d, String ?a (String ?b (String "-"%char ?r)) = _ /\ _ =>
        exists (String a (String b "")), r
    | |- exists l d, String ?a (String ?b (String ?c (String "-"%char ?r))) = _ /\ _ =>
        exists (String a (String b (String c ""))), r
    end;
    (split; [reflexivity|]);
    cbn -[Regex.in_range];
    repeat match goal with
           | E : Regex.in_range _ _ _ = true |- _ => rewrite E; clear E
           end;
    repeat split; try lia.
Qed.

Lemma sku_shape_pattern s : sku_shape s -> Regex.fullmatch sku_pattern s = true.
Proof.
  intros (letters & digits & -> & Hl & Hu & Hd & Hn).
  destruct letters as [|a [|b [|c [|? ?]]]]; simpl in Hl; try lia;
    destruct digits as [|d1 [|d2 [|d3 [|d4 [|? ?]]]]]; simpl in Hd; try lia;
    cbn -[Regex.in_range] in Hu, Hn;
    repeat match goal with
           | E : _ && _ = true |- _ =>
               let E1 := fresh "Hc" in apply andb_prop in E; destruct E as [E1 E]
           end;
    unfold Regex.fullmatch, sku_pattern;
    rewrite ?append_cons, ?append_empty_l; cbn -[Regex.in_range];
    repeat match goal with
           | E : Regex.in_range _ _ _ = true |- _ => rewrite E; clear E
           end;
    reflexivity.
Qed.

Lemma sku_shape_length s : sku_shape s -> 6 <= String.length s <= 8.
Proof.
  intros (letters & digits & -> & Hl & _ & Hd & _).
  rewrite !length_append. simpl. lia.
Qed.

(** X10. The pattern of [Product.sku] accepts exactly the strings made of
    two or three capital letters, a hyphen, and three or four digits: the
    whole string must have this shape. Such a string has six to eight
    characters, so [max_length=20] refuses nothing the pattern accepts; a
    string longer than that is reported as too long, any other one as not
    matching. A product constructed with a string for [sku] holds that
    string, and it has the shape. *)
Theorem the_sku_of_a_product {lax : Coercions} :
  (forall s, Regex.fullmatch sku_pattern s = true <-> sku_shape s)
  /\ (forall s, sku_shape s -> 6 <= String.length s <= 8)
  /\ (forall nested s,
        validate_field nested (pattern sku_pattern (max_length 20 (Field "sku" TStr)))
          (VStr s)
        = if Regex.fullmatch sku_pattern s then Valid (VStr s)
          else fail (if (20 <? String.length s)%nat then string_too_long
                     else string_pattern_mismatch))
  /\ (forall kwargs s self,
        Dict.get kwargs "sku" = Some (VStr s) ->
        construct Product kwargs = Ok self ->
        sku_shape s /\ getattr self "sku" = Some (VStr s)).
Proof.
  assert (Hiff : forall s, Regex.fullmatch sku_pattern s = true <-> sku_shape s).
  { intros s. split; [apply sku_pattern_shape|apply sku_shape_pattern]. }
  assert (Hfield : forall nested s,
        validate_field nested (pattern sku_pattern (max_length 20 (Field "sku" TStr)))
          (VStr s)
        = if Regex.fullmatch sku_pattern s then Valid (VStr s)
          else fail (if (20 <? String.length s)%nat then string_too_long
                     else string_pattern_mismatch)).
  { intros nested s. unfold validate_field, length_error, pattern_error. simpl.
    destruct (Regex.fullmatch sku_pattern s) eqn:Hm.
    - apply Hiff, sku_shape_length in Hm.
      destruct (Nat.ltb_spec 20 (String.length s)); [lia|reflexivity].
    - by destruct (20 <? String.length s)%nat. }
  split; [exact Hiff|]. split; [apply sku_shape_length|]. split; [exact Hfield|].
  intros kwargs s self Hget Hself.
  set (f := pattern sku_pattern (max_length 20 (Field "sku" TStr))).
  assert (Hf : In f (model_fields Product)) by (simpl; tauto).
  apply construct_Ok_inv in Hself as (Hfv & -> & _).
  destruct (Hfv f (VStr s) Hf Hget) as [v' Hv'].
  unfold f in Hv'. rewrite Hfield in Hv'.
  destruct (Regex.fullmatch sku_pattern s) eqn:Hm; [|discriminate].
  split; [by apply Hiff|].
  change "sku" with (f_name f). rewrite (built_getattr _ _ _ Hf).
  unfold field_value. change (f_name f) with "sku". rewrite Hget.
  unfold f. by rewrite Hfield, Hm.
Qed.

Lemma length_error_None f n short long :
  length_error f n short long = None
  <-> match f_min_length f with Some m => m <= n | None => True end
      /\ match f_max_length f with Some m => n <= m | None => True end.
Proof.
  unfold length_error.
  destruct (f_min_length f) as [lo|], (f_max_length f) as [hi|];
    repeat match goal with
           | |- context [(?a <? ?b)%nat] => destruct (Nat.ltb_spec a b)
           end; split; try discriminate; try tauto; try lia; intros [? ?]; lia.
Qed.

(** X11. The length constraints of [Category]. A category constructed with
    strings for [name] and [nickname] has a name of at most 100 characters
    and a nickname of 4 to 14; two such strings are accepted, and both are
    dumped as they are. A nickname of fewer than 4 characters is refused as
    too short, one of more than 14 as too long, each with a line under
    ["nickname"]. *)
Theorem the_lengths_of_a_category {lax : Coercions} (s t : string) :
  (forall kwargs self,
      Dict.get kwargs "name" = Some (VStr s) ->
      Dict.get kwargs "nickname" = Some (VStr t) ->
      construct Category kwargs = Ok self ->
      String.length s <= 100 /\ 4 <= String.length t <= 14)
  /\ (String.length s <= 100 -> 4 <= String.length t <= 14 ->
      exists self,
        construct Category [("name", VStr s); ("nickname", VStr t)] = Ok self
        /\ dump self = [("name", VStr s); ("nickname", VStr t)])
  /\ (forall kwargs,
        Dict.get kwargs "nickname" = Some (VStr t) ->
        String.length t < 4 ->
        exists errors,
          construct Category kwargs = Raise (ValidationError Category errors)
          /\ In (["nickname"], string_too_short) errors)
  /\ (forall kwargs,
        Dict.get kwargs "nickname" = Some (VStr t) ->
        14 < String.length t ->
        exists errors,
          construct Category kwargs = Raise (ValidationError Category errors)
          /\ In (["nickname"], string_too_long) errors).
Proof.
  set (fname := max_length 100 (Field "name" TStr)).
  set (fnick := min_length 4 (max_length 14 (Field "nickname" TStr))).
  assert (Hfname : In fname (model_fields Category)) by (simpl; tauto).
  assert (Hfnick : In fnick (model_fields Category)) by (simpl; tauto).
  split; [|split; [|split]].
  - intros kwargs self Hs Ht Hself.
    apply construct_Ok_inv in Hself as (Hfv & _ & _).
    destruct (Hfv fname (VStr s) Hfname Hs) as [v1 Hv1].
    destruct (Hfv fnick (VStr t) Hfnick Ht) as [v2 Hv2].
    unfold validate_field in Hv1, Hv2. simpl in Hv1, Hv2.
    destruct (length_error fname _ _ _) eqn:H1; [discriminate|].
    destruct (length_error fnick _ _ _) eqn:H2; [discriminate|].
    apply length_error_None in H1, H2. simpl in H1, H2. lia.
  - intros Hs Ht.
    assert (Hvalid : valid_kwargs Category [("name", VStr s); ("nickname", VStr t)]).
    { split.
      - intros f v Hf Hget. simpl in Hf.
        destruct Hf as [<-|[<-|[<-|[]]]]; simpl in Hget; try discriminate;
          injection Hget as <-; simpl; (split; [|reflexivity]);
          apply length_error_None; simpl; lia.
      - intros cols name Hcols Hname. injection Hcols as <-.
        destruct Hname as [<-|[]]. reflexivity. }
    exists (built Category [("name", VStr s); ("nickname", VStr t)]).
    split; [by apply construct_valid_kwargs|].
    rewrite dump_filter. unfold built, field_value. simpl.
    rewrite !(proj2 (length_error_None _ _ _ _)) by (simpl; lia).
    reflexivity.
  - intros kwargs Ht Hshort.
    apply (construct_violation Category kwargs fnick (VStr t) string_too_short Hfnick Ht).
    simpl. left. unfold length_error. simpl.
    by destruct (Nat.ltb_spec (String.length t) 4); [|lia].
  - intros kwargs Ht Hlong.
    apply (construct_violation Category kwargs fnick (VStr t) string_too_long Hfnick Ht).
    simpl. left. unfold length_error. simpl.
    destruct (Nat.ltb_spec (String.length t) 4); [lia|].
    by destruct (Nat.ltb_spec 14 (String.length t)); [|lia].
Qed.

Lemma Decimal_gt_one d : Decimal_gt_float d 1.0 = true <-> Decimal_exceeds_one d.
Proof.
  unfold Decimal_gt_float, Decimal_exceeds_one.
  change (Prim2SF 1.0) with (S754_finite false 4503599627370496 (-52)).
  cbv beta iota zeta.
  set (dz := (if d_sign d then - Z.of_N (d_int d) else Z.of_N (d_int d))%Z).
  set (a := (10 ^ Z.max (- d_exp d) 0)%Z).
  set (b := (10 ^ Z.max (d_exp d) 0)%Z).
  change (Z.max (-52) 0) with 0%Z. change (Z.max (- -52) 0) with 52%Z.
  change (2 ^ 0)%Z with 1%Z. change (2 ^ 52)%Z with 4503599627370496%Z.
  rewrite Z.ltb_lt. lia.
Qed.

(** X12. The bound of [Product.price] on a [Decimal] compares the exact
    values: a [Decimal] is accepted when the number it stands for is
    greater than one, however small the excess, and refused otherwise with
    a line under ["price"]; the [Decimal] a product is constructed with is
    stored as it is, with its exponent. A negative [Decimal] is never
    accepted. *)
Theorem the_price_of_a_product {lax : Coercions} (d : Decimal) :
  (forall kwargs self,
      Dict.get kwargs "price" = Some (VDecimal d) ->
      construct Product kwargs = Ok self ->
      Decimal_exceeds_one d /\ d_sign d = false
      /\ getattr self "price" = Some (VDecimal d))
  /\ (forall kwargs,
        Dict.get kwargs "price" = Some (VDecimal d) ->
        ~ Decimal_exceeds_one d ->
        exists errors,
          construct Product kwargs = Raise (ValidationError Product errors)
          /\ In (["price"], greater_than) errors)
  /\ (Decimal_exceeds_one d ->
      exists self,
        construct Product
          [("name", VStr "Test"); ("sku", VStr "AB-123"); ("price", VDecimal d)]
        = Ok self
        /\ Dict.get (dump self) "price" = Some (VStr (Decimal_str d))).
Proof.
  set (f := gt 1.0 (Field "price" TDecimalOrFloat)).
  assert (Hf : In f (model_fields Product)) by (simpl; tauto).
  assert (Hfield : forall nested,
            validate_field nested f (VDecimal d)
            = if Decimal_gt_float d 1.0 then Valid (VDecimal d) else fail greater_than).
  { intros nested. unfold validate_field, gt_error. simpl.
    by destruct (Decimal_gt_float d 1.0). }
  split; [|split].
  - intros kwargs self Hget Hself.
    apply construct_Ok_inv in Hself as (Hfv & -> & _).
    destruct (Hfv f (VDecimal d) Hf Hget) as [v' Hv'].
    rewrite Hfield in Hv'.
    destruct (Decimal_gt_float d 1.0) eqn:Hgt; [|discriminate].
    pose proof (proj1 (Decimal_gt_one d) Hgt) as Hex.
    split; [exact Hex|]. split.
    + unfold Decimal_exceeds_one in Hex. destruct (d_sign d); [|reflexivity].
      assert (0 < 10 ^ Z.max (- d_exp d) 0)%Z by (apply Z.pow_pos_nonneg; lia).
      assert (0 < 10 ^ Z.max (d_exp d) 0)%Z by (apply Z.pow_pos_nonneg; lia).
      nia.
    + change "price" with (f_name f). rewrite (built_getattr _ _ _ Hf).
      unfold field_value. change (f_name f) with "price". rewrite Hget.
      by rewrite Hfield.
  - intros kwargs Hget Hnot.
    apply (construct_violation Product kwargs f (VDecimal d) greater_than Hf Hget).
    assert (Hgt : Decimal_gt_float d 1.0 = false).
    { destruct (Decimal_gt_float d 1.0) eqn:Hgt; [|reflexivity].
      by apply Decimal_gt_one in Hgt. }
    unfold violates, gt_error, f. simpl. by rewrite Hgt.
  - intros Hex. apply Decimal_gt_one in Hex.
    assert (Hvalid : valid_kwargs Product
              [("name", VStr "Test"); ("sku", VStr "AB-123"); ("price", VDecimal d)]).
    { split.
      - intros g v Hg Hget. simpl in Hg.
        repeat (destruct Hg as [<-|Hg]; [simpl in Hget; try discriminate|]);
          try (by destruct Hg).
        + injection Hget as <-. by vm_compute.
        + injection Hget as <-. by vm_compute.
        + injection Hget as <-. simpl. unfold gt_error. simpl. by rewrite Hex.
      - intros cols name Hcols Hname. injection Hcols as <-.
        by destruct Hname as [<-|[<-|[]]]. }
    eexists. split; [by apply construct_valid_kwargs|].
    assert (Hin : In "price" (field_names Product)) by (simpl; tauto).
    rewrite (dump_get_field (built Product _) "price" Hin).
    rewrite decide_True by (by vm_compute).
    change "price" with (f_name f). rewrite (built_getattr _ _ _ Hf).
    change (f_name f) with "price".
    assert (Hv : field_value (validate_model 1)
                   [("name", VStr "Test"); ("sku", VStr "AB-123"); ("price", VDecimal d)] f
                 = VDecimal d).
    { unfold field_value.
      change (Dict.get _ (f_name f)) with (Some (VDecimal d)).
      cbv beta iota. by rewrite Hfield, Hex. }
    rewrite Hv. reflexivity.
Qed.

(** ** The dump of what was loaded from a dump *)

(** Induction on values, through the lists and dictionaries they hold. *)
Lemma pyval_nested_ind (P : pyval -> Prop) :
  (forall v, data_of v = v -> to_python v = v -> P v) ->
  (forall l, List.Forall P l -> P (VList l)) ->
  (forall d, List.Forall (fun kv => P (snd kv)) d -> P (VDict d)) ->
  (forall c d fs, List.Forall (fun kv => P (snd kv)) d -> P (VModel c d fs)) ->
  forall v, P v.
Proof.
  intros Hscalar Hlist Hdict Hmodel. fix IH 1. intros v.
  destruct v as [ | | | | | | | | | | | |l|d|c d fs]; try (by apply Hscalar).
  - apply Hlist. revert l. fix IHl 1. intros [|x l]; constructor; [apply IH|apply IHl].
  - apply Hdict. revert d. fix IHd 1.
    intros [|[k x] d]; constructor; [apply IH|apply IHd].
  - apply Hmodel. revert d. fix IHd 1.
    intros [|[k x] d]; constructor; [apply IH|apply IHd].
Qed.

Lemma serialize_field_unfold v :
  serialize_field v
  = match _SERIALIZERS v with Some s => VStr s | None => to_python v end.
Proof. unfold serialize_field, serialize_fields. by destruct (_SERIALIZERS v). Qed.

(** Serialisation does not look at which fields of a nested model were
    set. *)
Lemma serialize_data_of v :
  to_python (data_of v) = to_python v /\ _SERIALIZERS (data_of v) = _SERIALIZERS v.
Proof.
  induction v as [v Hd Hp|l IH|d IH|c d fs IH] using pyval_nested_ind.
  - by rewrite Hd.
  - split; [|reflexivity]. simpl. f_equal. rewrite map_map.
    apply map_ext_in. intros x Hx. rewrite List.Forall_forall in IH.
    by apply IH.
  - split; [|reflexivity]. simpl. f_equal. rewrite map_map.
    apply map_ext_in. intros [k x] Hx. rewrite List.Forall_forall in IH.
    simpl. f_equal. by apply (IH (k, x)).
  - split; [|reflexivity]. simpl. f_equal. rewrite map_map.
    apply map_ext_in. intros [k x] Hx. rewrite List.Forall_forall in IH.
    simpl. f_equal. destruct (IH (k, x) Hx) as [H1 H2]. simpl in H1, H2.
    by rewrite H1, H2.
Qed.

Lemma serialize_field_data_of v : serialize_field (data_of v) = serialize_field v.
Proof.
  rewrite !serialize_field_unfold.
  destruct (serialize_data_of v) as [H1 H2]. by rewrite H1, H2.
Qed.

Lemma filter_keys_map (P : string -> Prop) `{!forall x, Decision (P x)}
    (g : pyval -> pyval) (d : dict) :
  filter (fun kv : string * pyval => P (fst kv)) (map (fun kv => (fst kv, g (snd kv))) d)
  = map (fun kv => (fst kv, g (snd kv)))
      (filter (fun kv : string * pyval => P (fst kv)) d).
Proof.
  induction d as [|[k v] d IH]; [reflexivity|].
  simpl. rewrite !filter_cons. simpl.
  destruct (decide (P k)); simpl; by rewrite IH.
Qed.

(** [dump] depends on the class, on the fields that are set and on the data
    only. *)
Lemma dump_data_of self self' :
  i_class self' = i_class self ->
  i_fields_set self' = i_fields_set self ->
  data_of_dict (i_dict self') = data_of_dict (i_dict self) ->
  dump self' = dump self.
Proof.
  intros Hc Hfs Hd.
  assert (Hex : exclude_set self' = exclude_set self).
  { unfold exclude_set. by rewrite Hc, Hfs. }
  assert (Hdump : forall s,
            dump s
            = map (fun kv => (fst kv, serialize_field (snd kv)))
                (filter (fun kv : string * pyval => fst kv ∉ exclude_set s)
                   (data_of_dict (i_dict s)))).
  { intros s. rewrite dump_filter. unfold data_of_dict.
    pose proof (filter_keys_map (fun k => k ∉ exclude_set s) data_of (i_dict s)) as Hf.
    cbv beta in Hf. rewrite Hf, map_map. apply map_ext. intros [k v]. simpl.
    by rewrite serialize_field_data_of. }
  by rewrite (Hdump self'), (Hdump self), Hex, Hd.
Qed.

Lemma a_full_product_constructed :
  constructed (lax := json_coercions) (built (lax := json_coercions) Product a_full_product).
Proof.
  split.
  - exists a_full_product. apply construct_valid_kwargs, a_full_product_valid.
  - intros name c d fs Hget. apply get_In in Hget. vm_compute in Hget.
    repeat (destruct Hget as [Hget | Hget]; [try discriminate Hget|]);
      [|destruct Hget].
    injection Hget as _ <- <- <-.
    exists [("id", VInt 1); ("name", VStr "Tools")]. vm_compute. reflexivity.
Qed.


Lemma a_full_product_reads_back name v :
  getattr (built (lax := json_coercions) Product a_full_product) name = Some v ->
  reads_back (lax := json_coercions) v.
Proof.
  intros Hget. apply get_In in Hget. vm_compute in Hget.
  repeat (destruct Hget as [Hget | Hget];
          [injection Hget as _ <-; vm_compute; done|]).
  destruct Hget.
Qed.


(** X13. The dump is stable under a round trip: for an instance that was
    constructed and whose values the parsers read back, the load of its
    dump gives an instance whose own dump is the same dictionary, entry
    for entry and in the same order; and iterating over it yields the same
    pairs. *)
Theorem the_dump_of_a_loaded_dump {lax : Coercions} (self : instance) :
  constructed self ->
  (forall name v, getattr self name = Some v -> reads_back v) ->
  exists self',
    load (i_class self) (Data (VDict (dump self))) = Ok (Instance self')
    /\ dump self' = dump self
    /\ __iter__ self' = __iter__ self
    /\ load (i_class self) (Response (VDict (dump self'))) = Ok (Instance self').
Proof.
  intros Hc Hr.
  destruct (construct_dump self Hc Hr) as (self' & Hself' & Hcls & Hfs & Hd).
  pose proof (dump_data_of self self' Hcls Hfs Hd) as Hdump.
  exists self'. split; [|split; [|split]].
  - unfold load. cbn [call]. by rewrite Hself'.
  - exact Hdump.
  - unfold __iter__. by rewrite Hdump.
  - rewrite Hdump. unfold load. cbn [call]. by rewrite Hself'.
Qed.

Lemma the_dump_of_a_loaded_dump_witness :
  let self := built (lax := json_coercions) Product a_full_product in
  constructed (lax := json_coercions) self
  /\ (forall name v, getattr self name = Some v -> reads_back (lax := json_coercions) v)
  /\ exists self',
       load (lax := json_coercions) Product (Data (VDict (dump self))) = Ok (Instance self')
       /\ dump self' = dump self.
Proof.
  split; [exact a_full_product_constructed|].
  split; [exact a_full_product_reads_back|].
  destruct (the_dump_of_a_loaded_dump (lax := json_coercions) _
              a_full_product_constructed a_full_product_reads_back)
    as (self' & Hload & Hdump & _).
  exists self'. split; [exact Hload|exact Hdump].
Defined.



(** ** Nothing is lost in the strings *)

(** X15. The strings [serialize_fields] writes lose nothing: two [Decimal]s
    with the same string are the same [Decimal], sign, digits and exponent
    (so trailing zeros survive: [1.0] and [1.00] are written differently),
    and two [datetime]s with components in range and the same string are
    the same, down to the microsecond and the offset. *)
Theorem serialisation_is_lossless :
  (forall d1 d2, serialize_fields (VDecimal d1) = serialize_fields (VDecimal d2) ->
                 d1 = d2)
  /\ (forall d1 d2, datetime_in_range d1 -> datetime_in_range d2 ->
                    serialize_fields (VDatetime d1) = serialize_fields (VDatetime d2) ->
                    d1 = d2)
  /\ serialize_fields (VDecimal (mkDecimal false 10 (-1)))
     <> serialize_fields (VDecimal (mkDecimal false 100 (-2))).
Proof.
  assert (Hdec : forall d1 d2,
            serialize_fields (VDecimal d1) = serialize_fields (VDecimal d2) -> d1 = d2).
  { intros d1 d2 Heq. unfold serialize_fields in Heq. simpl in Heq.
    injection Heq as Heq.
    assert (Hp : Parse.decimal (Decimal_str d1) = Parse.decimal (Decimal_str d2))
      by (by rewrite Heq).
    rewrite !decimal_Decimal_str in Hp. by injection Hp. }
  split; [exact Hdec|]. split.
  - intros d1 d2 H1 H2 Heq. unfold serialize_fields in Heq. simpl in Heq.
    injection Heq as Heq.
    assert (Hp : Parse.iso_datetime (Iso.datetime_isoformat d1)
                 = Parse.iso_datetime (Iso.datetime_isoformat d2))
      by (by rewrite Heq).
    rewrite !iso_datetime_isoformat in Hp by assumption. by injection Hp.
  - intros Heq. apply Hdec in Heq. discriminate.
Qed.

(** ** The base class *)

(** X16. [SupabaseBaseModel] itself has no [_required_columns] and no
    fields, so the required-columns check passes on any of its instances:
    the class is constructed from any keyword arguments, its instance
    holds nothing and dumps to the empty dictionary, and a list of rows
    loads to as many such instances. The check only refuses instances of
    the classes that declare required columns. *)
Theorem the_base_class_checks_nothing {lax : Coercions} (kwargs : dict) :
  let empty := mkInstance SupabaseBaseModel [] ∅ in
  construct SupabaseBaseModel kwargs = Ok empty
  /\ dump empty = []
  /\ __iter__ empty = []
  /\ (forall self, i_class self = SupabaseBaseModel ->
                   validate_required_columns self = Ok self)
  /\ (forall rows,
        load SupabaseBaseModel (Response (VList (map VDict rows)))
        = Ok (Instances (map (fun _ => empty) rows)))
  /\ (forall self e, validate_required_columns self = Raise e ->
                     i_class self = Category \/ i_class self = Product).
Proof.
  intros empty.
  assert (Hc : forall kw, construct SupabaseBaseModel kw = Ok empty) by reflexivity.
  split; [apply Hc|]. split; [reflexivity|]. split; [reflexivity|].
  split; [|split].
  - intros self Hself. unfold validate_required_columns. by rewrite Hself.
  - intros rows. rewrite (load_rows SupabaseBaseModel rows) by (by left).
    assert (Hrows : comprehension (construct SupabaseBaseModel) rows
                    = Ok (map (fun _ => empty) rows)).
    { induction rows as [|row rows IH]; [reflexivity|].
      change (comprehension (construct SupabaseBaseModel) (row :: rows))
        with (let* b := construct SupabaseBaseModel row in
              let* bs := comprehension (construct SupabaseBaseModel) rows in
              Ok (b :: bs)).
      by rewrite Hc, IH. }
    by rewrite Hrows.
  - intros self e Hraise. unfold validate_required_columns in Hraise.
    destruct (i_class self); [discriminate|by left|by right].
Qed.

(** ** What is validated, and when *)

(** X17. Assignments are not validated, loads are: after an assignment of
    a value that breaks a constraint of the field (and that serialisation
    leaves as it is), the instance still dumps, but the load of that dump
    is refused, with a line under the name of the field. *)
Theorem an_invalid_assignment_breaks_the_round_trip
    {lax : Coercions} (self : instance) (f : FieldInfo) (v : pyval) (e : error_type) :
  In f (model_fields (i_class self)) ->
  violates f (serialize_field v) e ->
  exists self',
    setattr self (f_name f) v = Ok self'
    /\ Dict.get (dump self') (f_name f) = Some (serialize_field v)
    /\ exists errors,
         load (i_class self) (Data (VDict (dump self')))
         = Raise (ValidationError (i_class self) errors)
         /\ In ([f_name f], e) errors.
Proof.
  intros Hf Hviol.
  pose proof (in_field_names _ _ Hf) as Hname.
  eexists. split; [by apply setattr_field|].
  match goal with |- Dict.get (dump ?s) _ = _ /\ _ => set (self' := s) end.
  assert (Hget : Dict.get (dump self') (f_name f) = Some (serialize_field v)).
  { rewrite (dump_get self' (f_name f)).
    - unfold getattr, self'. simpl. by rewrite get_set_eq.
    - exact Hname.
    - unfold self'. simpl. apply elem_of_union_l. by apply elem_of_singleton. }
  split; [exact Hget|].
  destruct (construct_violation (i_class self) (dump self') f (serialize_field v) e
              Hf Hget Hviol) as (errors & Herrors & Hin).
  exists errors. split; [|exact Hin].
  unfold load. cbn [call]. by rewrite Herrors.
Qed.

Lemma an_invalid_assignment_breaks_the_round_trip_witness :
  let self := built (lax := json_coercions) Product a_product in
  let f := gt 1.0 (Field "price" TDecimalOrFloat) in
  In f (model_fields (i_class self))
  /\ violates f (serialize_field (VFloat 0.5)) greater_than
  /\ exists self',
       setattr self "price" (VFloat 0.5) = Ok self'
       /\ Dict.get (dump self') "price" = Some (VFloat 0.5)
       /\ exists errors,
            load (lax := json_coercions) Product (Data (VDict (dump self')))
            = Raise (ValidationError Product errors)
            /\ In (["price"], greater_than) errors.
Proof.
  assert (Hf : In (gt 1.0 (Field "price" TDecimalOrFloat))
                 (model_fields (i_class (built (lax := json_coercions) Product a_product)))).
  { simpl. tauto. }
  assert (Hv : violates (gt 1.0 (Field "price" TDecimalOrFloat))
                 (serialize_field (VFloat 0.5)) greater_than).
  { vm_compute. reflexivity. }
  split; [exact Hf|]. split; [exact Hv|].
  exact (an_invalid_assignment_breaks_the_round_trip (lax := json_coercions)
           (built (lax := json_coercions) Product a_product) _ (VFloat 0.5) greater_than
           Hf Hv).
Defined.

(** X18. An instance given for [categories] is not validated again: a
    product that is constructed holds that very instance, whatever the
    instance holds by now (a category whose name was later set to [None],
    say); an instance of another class is refused with a line under
    ["categories"]. *)
Theorem an_instance_given_for_categories
    {lax : Coercions} (c : model_class) (d : dict) (fs : gset string) :
  (forall kwargs self,
      Dict.get kwargs "categories" = Some (VModel c d fs) ->
      construct Product kwargs = Ok self ->
      c = Category /\ getattr self "categories" = Some (VModel c d fs))
  /\ (forall kwargs,
        Dict.get kwargs "categories" = Some (VModel c d fs) ->
        c <> Category ->
        exists errors,
          construct Product kwargs = Raise (ValidationError Product errors)
          /\ In (["categories"], model_type) errors)
  /\ (c = Category ->
      exists self,
        construct Product
          [("name", VStr "Test"); ("sku", VStr "AB-123"); ("categories", VModel c d fs)]
        = Ok self
        /\ Dict.get (dump self) "categories"
           = Some (VDict (model_dump (mkInstance c d fs) None))).
Proof.
  set (f := Field "categories" (TModel Category)).
  assert (Hf : In f (model_fields Product)) by (simpl; tauto).
  assert (Hfield : forall nested,
            validate_field nested f (VModel c d fs)
            = if decide (c = Category) then Valid (VModel c d fs) else fail model_type)
    by reflexivity.
  split; [|split].
  - intros kwargs self Hget Hself.
    apply construct_Ok_inv in Hself as (Hfv & -> & _).
    destruct (Hfv f _ Hf Hget) as [v' Hv']. rewrite Hfield in Hv'.
    destruct (decide (c = Category)) as [Hc|Hc]; [|discriminate].
    split; [exact Hc|].
    change "categories" with (f_name f). rewrite (built_getattr _ _ _ Hf).
    unfold field_value. change (f_name f) with "categories". rewrite Hget.
    by rewrite Hfield.
  - intros kwargs Hget Hc.
    destruct (construct_field_error Product kwargs f (VModel c d fs)
                [([], model_type)] ([], model_type) Hf Hget)
      as (errors & Herrors & Hin).
    + by rewrite Hfield, decide_False.
    + by left.
    + exists errors. split; [exact Herrors|exact Hin].
  - intros ->.
    assert (Hvalid : valid_kwargs Product
              [("name", VStr "Test"); ("sku", VStr "AB-123");
               ("categories", VModel Category d fs)]).
    { split.
      - intros g v Hg Hget. simpl in Hg.
        repeat (destruct Hg as [<-|Hg]; [simpl in Hget; try discriminate|]);
          try (by destruct Hg).
        + injection Hget as <-. by vm_compute.
        + injection Hget as <-. by vm_compute.
        + injection Hget as <-. reflexivity.
      - intros cols name Hcols Hname. injection Hcols as <-.
        by destruct Hname as [<-|[<-|[]]]. }
    eexists. split; [by apply construct_valid_kwargs|].
    assert (Hin : In "categories" (field_names Product)) by (simpl; tauto).
    rewrite (dump_get_field (built Product _) "categories" Hin).
    rewrite decide_True by (by vm_compute).
    change "categories" with (f_name f). rewrite (built_getattr _ _ _ Hf).
    change (f_name f) with "categories".
    assert (Hv : field_value (validate_model 1)
                   [("name", VStr "Test"); ("sku", VStr "AB-123");
                    ("categories", VModel Category d fs)] f
                 = VModel Category d fs) by reflexivity.
    rewrite Hv. simpl.
    assert (Hs : serialize_field (VModel Category d fs)
                 = to_python (VModel Category d fs)) by reflexivity.
    rewrite Hs, to_python_model. reflexivity.
Qed.

(** ** The base64 of bytes *)

Lemma below_64 (P : N -> Prop) :
  (forall k, (k < 64)%nat -> P (N.of_nat k)) -> forall n, (n < 64)%N -> P n.
Proof. intros H n Hn. rewrite <- (N2Nat.id n). apply H. lia. Qed.

Lemma unsextet_sextet n : unsextet (Base64.sextet n) = (n mod 64)%N.
Proof.
  unfold Base64.sextet.
  assert (Hlt : (n mod 64 < 64)%N) by (apply N.mod_lt; lia).
  revert Hlt. generalize (n mod 64)%N as m. apply below_64. intros k Hk.
  rewrite Nat2N.id.
  do 64 (destruct k as [|k]; [reflexivity|]). lia.
Qed.

Lemma sextet_not_pad n : Ascii.eqb (Base64.sextet n) "=" = false.
Proof.
  unfold Base64.sextet.
  assert (Hlt : (n mod 64 < 64)%N) by (apply N.mod_lt; lia).
  revert Hlt. generalize (n mod 64)%N as m. apply below_64. intros k Hk.
  rewrite Nat2N.id.
  do 64 (destruct k as [|k]; [reflexivity|]). lia.
Qed.

Lemma byte_of_code a n : (n mod 256 = Base64.code a)%N -> byte_of n = a.
Proof.
  intros H. unfold byte_of. rewrite H. unfold Base64.code. by rewrite Byte.of_to_N.
Qed.

Lemma code_bounded a : (Base64.code a < 256)%N.
Proof. unfold Base64.code. pose proof (Byte.to_N_bounded a). lia. Qed.

(** Induction on a list, three elements at a time. *)
Lemma triples_ind {A} (P : list A -> Prop) :
  P [] -> (forall a, P [a]) -> (forall a b, P [a; b]) ->
  (forall a b c l, P l -> P (a :: b :: c :: l)) ->
  forall l, P l.
Proof.
  intros H0 H1 H2 H3. fix IH 1.
  intros [|a [|b [|c l]]]; [exact H0|apply H1|apply H2|apply H3, IH].
Qed.

Ltac sextets := zify; Z.to_euclidean_division_equations; lia.

Lemma b64decode_b64encode bs : b64decode (Base64.b64encode bs) = bs.
Proof.
  induction bs as [|a|a b|a b c l IH] using triples_ind.
  - reflexivity.
  - pose proof (code_bounded a).
    cbn [Base64.b64encode b64decode]. cbv zeta.
    change (Ascii.eqb "=" "=") with true. cbv iota.
    rewrite !unsextet_sextet. f_equal. apply byte_of_code. sextets.
  - pose proof (code_bounded a). pose proof (code_bounded b).
    cbn [Base64.b64encode b64decode]. cbv zeta.
    rewrite sextet_not_pad. change (Ascii.eqb "=" "=") with true. cbv iota.
    rewrite !unsextet_sextet.
    f_equal; [|f_equal]; apply byte_of_code; sextets.
  - pose proof (code_bounded a). pose proof (code_bounded b). pose proof (code_bounded c).
    cbn [Base64.b64encode b64decode]. cbv zeta.
    rewrite !sextet_not_pad. rewrite !unsextet_sextet. rewrite IH.
    f_equal; [|f_equal; [|f_equal]]; apply byte_of_code; sextets.
Qed.

Lemma length_b64encode bs :
  String.length (Base64.b64encode bs) = 4 * ((List.length bs + 2) / 3).
Proof.
  induction bs as [|a|a b|a b c l IH] using triples_ind; try reflexivity.
  cbn [Base64.b64encode]. cbv zeta. cbn [String.length List.length]. rewrite IH.
  replace (S (S (S (List.length l))) + 2) with (1 * 3 + (List.length l + 2)) by lia.
  rewrite Nat.div_add_l by lia. lia.
Qed.

(** X19. The string [serialize_fields] writes for [bytes] is the padded
    base64 of the bytes: it has four characters for every three bytes,
    the last group being filled up, and the bytes can be read back from
    it, so two byte strings with the same dump are the same. *)
Theorem the_base64_of_bytes :
  (forall bs, serialize_fields (VBytes bs) = VStr (Base64.b64encode bs))
  /\ (forall bs, String.length (Base64.b64encode bs) = 4 * ((List.length bs + 2) / 3))
  /\ (forall bs, b64decode (Base64.b64encode bs) = bs)
  /\ (forall bs1 bs2, serialize_fields (VBytes bs1) = serialize_fields (VBytes bs2) ->
                      bs1 = bs2).
Proof.
  split; [reflexivity|]. split; [exact length_b64encode|].
  split; [exact b64decode_b64encode|].
  intros bs1 bs2 Heq. unfold serialize_fields in Heq. simpl in Heq.
  injection Heq as Heq.
  rewrite <- (b64decode_b64encode bs1), <- (b64decode_b64encode bs2).
  by rewrite Heq.
Qed.

(** ** The status *)

(** X20. Every member of [ProductStatusEnum] passes [max_length=8] of
    [Product.status] (the longest value, ["archived"], has exactly eight
    characters): a product constructed with a member for [status] holds
    that member, and dumps it as the member itself, which no serialiser of
    the table touches. *)
Theorem the_status_of_a_product {lax : Coercions} (e : ProductStatusEnum) :
  String.length (enum_value e) <= 8
  /\ (forall nested,
        validate_field nested (max_length 8 (Field "status" TProductStatusEnum)) (VEnum e)
        = Valid (VEnum e))
  /\ (forall kwargs self,
        Dict.get kwargs "status" = Some (VEnum e) ->
        construct Product kwargs = Ok self ->
        getattr self "status" = Some (VEnum e)
        /\ Dict.get (dump self) "status" = Some (VEnum e)).
Proof.
  set (f := max_length 8 (Field "status" TProductStatusEnum)).
  assert (Hf : In f (model_fields Product)) by (simpl; tauto).
  assert (Hfield : forall nested, validate_field nested f (VEnum e) = Valid (VEnum e)).
  { intros nested. by destruct e. }
  split; [destruct e; simpl; lia|]. split; [exact Hfield|].
  intros kwargs self Hget Hself.
  pose proof Hself as Hself'.
  apply construct_Ok_inv in Hself as (Hfv & -> & _).
  assert (Hattr : getattr (built Product kwargs) "status" = Some (VEnum e)).
  { change "status" with (f_name f). rewrite (built_getattr _ _ _ Hf).
    unfold field_value. change (f_name f) with "status". rewrite Hget.
    by rewrite Hfield. }
  split; [exact Hattr|].
  assert (Hin : In "status" (field_names Product)) by (simpl; tauto).
  rewrite (dump_get_field (built Product kwargs) "status" Hin).
  rewrite decide_True.
  - by rewrite Hattr.
  - simpl. apply elem_of_list_to_set. unfold given. apply list_elem_of_filter.
    split; [by rewrite Hget|]. apply list_elem_of_In. simpl. tauto.
Qed.
